(** * Risk-insights pipeline: feature aggregation and anomaly scoring

    A shallow embedding of the data-shaping code of the repository
    ([anomaly.py], [model_default.py], [model_churn.py], [app.py],
    [pipeline.py]) together with the properties its specification states.

    Conventions.
    - Finite floating-point values are idealised as exact rationals ([Q]);
      the special values the code can produce (NaN, the pandas null, and the
      two infinities) are kept explicit in [fnum].
    - Timestamps are seconds on the integer line; a [Timedelta]'s [.days]
      is the floor of the difference divided by 86400.
    - A [DataFrame] is the length of its index together with a finite map
      from column names to columns; frames live in a store and are passed
      by reference, as Python objects are.
    - The third-party estimators are interfaces: the tree ensemble of the
      isolation forest and the trained classifiers are abstract, while the
      parts of scikit-learn, NumPy and pandas whose behaviour the code
      depends on (parameter validation, the offset of the forest, quantiles,
      the mean imputer, group-by aggregation) are written out. *)

From Stdlib Require Import QArith Qround Qabs Lqa Lia ZArith List Bool String Sorted.
From stdpp Require Import gmap strings.
Import ListNotations.

Local Open Scope string_scope.

(** ** Exceptions and results *)

Inductive error :=
| KeyError (column : string)
| InvalidParameterError
| ValueError
| IndexError
| HTTPException (status : Z)
| IOError.

Inductive result (A : Type) :=
| Ok (a : A)
| Raise (e : error).
Arguments Ok {A} a.
Arguments Raise {A} e.

Definition result_bind {A B} (r : result A) (k : A -> result B) : result B :=
  match r with
  | Ok a => k a
  | Raise e => Raise e
  end.

(** ** NumPy on rationals *)

Module Np.

Definition Qltb (x y : Q) : bool := negb (Qle_bool y x).

Fixpoint insert_sorted (x : Q) (l : list Q) : list Q :=
  match l with
  | [] => [x]
  | y :: l' => if Qle_bool x y then x :: l else y :: insert_sorted x l'
  end.

(** [np.sort]: ascending order. *)
Fixpoint sort (l : list Q) : list Q :=
  match l with
  | [] => []
  | x :: l' => insert_sorted x (sort l')
  end.

(** NumPy's [_lerp]: the two algebraically equal forms, switched at
    [t >= 0.5]. *)
Definition lerp (a b t : Q) : Q :=
  if Qle_bool (1 # 2) t then (b - (b - a) * (1 - t))%Q
  else (a + (b - a) * t)%Q.

(** An index clipped into [0, n-1]. *)
Definition clip_index (n : nat) (i : Z) : nat :=
  Z.to_nat (Z.max 0 (Z.min i (Z.of_nat n - 1))).

(** The value at a virtual index [h] of a sorted array: linear
    interpolation between the two neighbouring order statistics, the
    indices clipped to the array. *)
Definition at_index (s : list Q) (h : Q) : Q :=
  let previous := Qfloor h in
  let gamma := (h - inject_Z previous)%Q in
  lerp (nth (clip_index (length s) previous) s 0%Q)
       (nth (clip_index (length s) (previous + 1)) s 0%Q)
       gamma.

(** [np.quantile(a, q)] with the default method: the virtual index is
    [q * (n - 1)]. *)
Definition quantile (a : list Q) (q : Q) : Q :=
  let s := sort a in
  at_index s (q * (inject_Z (Z.of_nat (length s)) - 1))%Q.

(** [np.percentile(a, p)] is [np.quantile(a, p / 100)]. *)
Definition percentile (a : list Q) (p : Q) : Q :=
  quantile a (p / 100).

Definition sum (l : list Q) : Q := fold_right Qplus 0%Q l.

(** Number of [True] entries of a boolean vector ([.sum()]). *)
Definition count_true (l : list bool) : nat :=
  length (List.filter (fun b => b) l).

End Np.

(** ** scikit-learn's isolation forest

    The tree ensemble is an interface: [fit_trees] grows the trees from a
    random generator and the training matrix, [path_score] is the value of
    [score_samples] at one point (the negated anomaly score of the original
    paper, so larger means more normal).  What [IsolationForest.fit] and
    [decision_function] add around the trees is written out. *)

Definition matrix := list (Q * Q).

Class TreeEnsemble := {
  rng : Type;
  forest : Type;
  RandomState : Z -> rng;
  fit_trees : rng -> matrix -> forest;
  path_score : forest -> Q * Q -> Q
}.

Module Sklearn.
Section IsolationForest.
Context `{TreeEnsemble}.

Record IsolationForest := {
  contamination : Q;
  random_state : option Z
}.

Record FittedIsolationForest := {
  estimators_ : forest;
  offset_ : Q
}.

(** [check_random_state]: an integer seeds a fresh generator, [None]
    means the process-wide NumPy generator. *)
Definition check_random_state (seed : option Z) (np_random : rng) : rng :=
  match seed with
  | Some s => RandomState s
  | None => np_random
  end.

(** The constraint declared for [contamination]: the interval (0, 0.5]. *)
Definition valid_contamination (c : Q) : bool :=
  Np.Qltb 0 c && Qle_bool c (1 # 2).

Definition score_samples (f : forest) (X : matrix) : list Q :=
  map (path_score f) X.

(** [fit]: parameters are validated first, then the data (at least one
    sample); the offset is the [100 * contamination] percentile of the
    training scores. *)
Definition fit (p : IsolationForest) (np_random : rng) (X : matrix)
  : result FittedIsolationForest :=
  if negb (valid_contamination (contamination p)) then Raise InvalidParameterError
  else if (length X =? 0)%nat then Raise ValueError
  else
    let trees := fit_trees (check_random_state (random_state p) np_random) X in
    Ok {| estimators_ := trees;
          offset_ := Np.percentile (score_samples trees X)
                                   (100 * contamination p) |}.

(** [decision_function]: larger means more normal. *)
Definition decision_function (m : FittedIsolationForest) (X : matrix) : list Q :=
  map (fun s => (s - offset_ m)%Q) (score_samples (estimators_ m) X).

End IsolationForest.
End Sklearn.

(** ** Floats with the IEEE special values *)

Inductive fnum :=
| Fin (q : Q)
| NaN
| PInf
| NInf.

(** True division of two integers as NumPy and pandas perform it on
    [int64] operands: a zero divisor raises nothing and yields a signed
    infinity, or NaN for [0 / 0]. *)
Definition true_divide (a b : Z) : fnum :=
  if (b =? 0)%Z then
    if (0 <? a)%Z then PInf
    else if (a <? 0)%Z then NInf
    else NaN
  else Fin (inject_Z a / inject_Z b).

Definition is_nan (x : fnum) : bool :=
  match x with
  | NaN => true
  | _ => false
  end.

Definition is_inf (x : fnum) : bool :=
  match x with
  | PInf | NInf => true
  | _ => false
  end.

(** ** Tables of the datamart *)

Module Tx.
Record t := {
  transaction_id : Z;
  account_id : Z;
  client_id : Z;
  time_id : Z;
  amount : Q;
  transaction_date : Z;
  transaction_type : string
}.
End Tx.

Module Acct.
Record t := {
  account_id : Z;
  client_id : Z;
  account_type : string;
  opened_date : Z
}.
End Acct.

Record Datamart := {
  fact_transactions : list Tx.t;
  dim_accounts : list Acct.t;
  dim_time : list Z
}.

(** ** Data frames *)

Inductive cell :=
| CFloat (q : Q)
| CInt (z : Z)
| CBool (b : bool)
| CStr (s : string)
| CTime (t : Z).

Definition column := list cell.

(** A frame: the length of its index and its columns by name. *)
Record DataFrame := {
  nrows : nat;
  columns : gmap string column
}.

Definition loc := nat.

(** Conversion of a cell to a float, as [to_numpy] followed by the
    estimator's input check does it; text and dates are rejected. *)
Definition as_float (c : cell) : option Q :=
  match c with
  | CFloat q => Some q
  | CInt z => Some (inject_Z z)
  | CBool b => Some (if b then 1%Q else 0%Q)
  | CStr _ => None
  | CTime _ => None
  end.

Fixpoint as_floats (col : column) : option (list Q) :=
  match col with
  | [] => Some []
  | c :: col' =>
      match as_float c, as_floats col' with
      | Some q, Some qs => Some (q :: qs)
      | _, _ => None
      end
  end.

(** [series >= threshold], element-wise. *)
Definition cell_ge (threshold : Q) (c : cell) : cell :=
  match as_float c with
  | Some q => CBool (Qle_bool threshold q)
  | None => CBool false
  end.

Definition is_true (c : cell) : bool :=
  match c with
  | CBool true => true
  | _ => false
  end.

(** [df[mask]] on one column. *)
Fixpoint mask_column (mask : list bool) (col : column) : column :=
  match mask, col with
  | b :: mask', c :: col' =>
      if b then c :: mask_column mask' col' else mask_column mask' col'
  | _, _ => []
  end.

(** [df[mask]]: the rows at which the boolean mask holds. *)
Definition getitem_mask (d : DataFrame) (mask : list bool) : DataFrame :=
  {| nrows := Np.count_true mask;
     columns := mask_column mask <$> columns d |}.

(** One row of a frame as a record. *)
Definition row (d : DataFrame) (i : nat) : gmap string cell :=
  omap (fun col : column => col !! i) (columns d).

(** [df.to_dict(orient="records")] *)
Definition to_dict_records (d : DataFrame) : list (gmap string cell) :=
  map (row d) (seq 0 (nrows d)).

(** ** Reports *)

Inductive json :=
| JString (s : string)
| JRecords (records : list (gmap string cell)).

(** ** The process state

    The tables of the datamart, the frames that are alive, the process-wide
    NumPy generator, the wall clock (the instant returned by each successive
    reading), the metrics sent to the tracking server and the report files
    written so far. *)

Section State.
Context `{TreeEnsemble}.

Record World := {
  db : Datamart;
  frames : gmap loc DataFrame;
  np_random : rng;
  wall_clock : nat -> Z;
  clock_reads : nat;
  mlflow_metrics : list (string * fnum);
  report_files : list (string * gmap string json)
}.

Definition set_frames (f : gmap loc DataFrame) (w : World) : World :=
  {| db := db w; frames := f; np_random := np_random w;
     wall_clock := wall_clock w; clock_reads := clock_reads w;
     mlflow_metrics := mlflow_metrics w; report_files := report_files w |}.

Definition set_db (d : Datamart) (w : World) : World :=
  {| db := d; frames := frames w; np_random := np_random w;
     wall_clock := wall_clock w; clock_reads := clock_reads w;
     mlflow_metrics := mlflow_metrics w; report_files := report_files w |}.

Definition tick (w : World) : World :=
  {| db := db w; frames := frames w; np_random := np_random w;
     wall_clock := wall_clock w; clock_reads := S (clock_reads w);
     mlflow_metrics := mlflow_metrics w; report_files := report_files w |}.

Definition add_metric (name : string) (v : fnum) (w : World) : World :=
  {| db := db w; frames := frames w; np_random := np_random w;
     wall_clock := wall_clock w; clock_reads := clock_reads w;
     mlflow_metrics := mlflow_metrics w ++ [(name, v)];
     report_files := report_files w |}.

Definition add_report (path : string) (r : gmap string json) (w : World) : World :=
  {| db := db w; frames := frames w; np_random := np_random w;
     wall_clock := wall_clock w; clock_reads := clock_reads w;
     mlflow_metrics := mlflow_metrics w;
     report_files := report_files w ++ [(path, r)] |}.

(** Computations that read and update the world and may raise. *)
Definition M (A : Type) : Type := World -> result A * World.

Definition ret {A} (a : A) : M A := fun w => (Ok a, w).
Definition raise {A} (e : error) : M A := fun w => (Raise e, w).
Definition bind {A B} (m : M A) (k : A -> M B) : M B :=
  fun w =>
    match m w with
    | (Ok a, w') => k a w'
    | (Raise e, w') => (Raise e, w')
    end.
Definition lift {A} (r : result A) : M A := fun w => (r, w).
Definition gets {A} (f : World -> A) : M A := fun w => (Ok (f w), w).
Definition modify (f : World -> World) : M unit := fun w => (Ok tt, f w).

(** [pd.Timestamp.today()], [datetime.utcnow()]: one reading of the clock. *)
Definition today : M Z :=
  fun w => (Ok (wall_clock w (clock_reads w)), tick w).

End State.

#[global] Instance M_ret `{TreeEnsemble} : MRet M := @ret _.
#[global] Instance M_bind `{TreeEnsemble} : MBind M := fun A B k m => bind m k.

(** [mapM]: the elements are visited from left to right. *)
Fixpoint mapM `{TreeEnsemble} {A B} (f : A -> M B) (l : list A) : M (list B) :=
  match l with
  | [] => ret []
  | x :: l' =>
      y ← f x;
      ys ← mapM f l';
      ret (y :: ys)
  end.

(** ** pandas on typed rows *)

Module Pd.

Fixpoint insert_by {A} (leb : A -> A -> bool) (x : A) (l : list A) : list A :=
  match l with
  | [] => [x]
  | y :: l' => if leb x y then x :: l else y :: insert_by leb x l'
  end.

(** [sort_values]: ascending and stable. *)
Fixpoint sort_by {A} (leb : A -> A -> bool) (l : list A) : list A :=
  match l with
  | [] => []
  | x :: l' => insert_by leb x (sort_by leb l')
  end.

Fixpoint insert_unique (k : Z) (l : list Z) : list Z :=
  match l with
  | [] => [k]
  | y :: l' =>
      if (k <? y)%Z then k :: l
      else if (k =? y)%Z then l
      else y :: insert_unique k l'
  end.

(** The distinct values of a key column in ascending order. *)
Definition unique_sorted (l : list Z) : list Z :=
  fold_right insert_unique [] l.

(** [nunique] *)
Definition nunique (l : list Z) : Z :=
  Z.of_nat (length (unique_sorted l)).

(** [groupby(key)]: one group per distinct key, keys ascending, the rows
    of a group in the order of the frame. *)
Definition groupby {A} (key : A -> Z) (l : list A) : list (Z * list A) :=
  map (fun k => (k, List.filter (fun x => (key x =? k)%Z) l))
      (unique_sorted (map key l)).

(** [count] of a column without nulls. *)
Definition count {A} (l : list A) : Z := Z.of_nat (length l).

(** [mean]: NaN on an empty series. *)
Definition mean (l : list Q) : fnum :=
  match l with
  | [] => NaN
  | _ => Fin (Np.sum l / inject_Z (count l))
  end.

(** [diff] on a datetime series: the first entry is NaT. *)
Fixpoint diff_from (prev : Z) (l : list Z) : list (option Z) :=
  match l with
  | [] => []
  | x :: l' => Some (x - prev)%Z :: diff_from x l'
  end.

Definition diff (l : list Z) : list (option Z) :=
  match l with
  | [] => []
  | x :: l' => None :: diff_from x l'
  end.

(** [Timedelta.days]: the floor of the number of days. *)
Definition days (delta : Z) : Z := (delta / 86400)%Z.

(** [.dt.days]: NaT becomes NaN. *)
Definition dt_days (l : list (option Z)) : list (option Z) :=
  map (option_map days) l.

Fixpoint dropna (l : list (option Z)) : list Z :=
  match l with
  | [] => []
  | Some x :: l' => x :: dropna l'
  | None :: l' => dropna l'
  end.

Fixpoint minimum (x : Z) (l : list Z) : Z :=
  match l with
  | [] => x
  | y :: l' => minimum (Z.min x y) l'
  end.

Fixpoint maximum (x : Z) (l : list Z) : Z :=
  match l with
  | [] => x
  | y :: l' => maximum (Z.max x y) l'
  end.

End Pd.

(** ** Interfaces of the environment *)

(** The trained classifiers: the positive-class probability of each row, or
    the exception raised by loading or applying the model. *)
Class Classifiers := {
  logreg_predict_proba : list (list fnum) -> result (list Q);
  xgb_predict : list (list fnum) -> result (list Q)
}.

(** Square root, the text forms of an instant, and the ETL job that
    rebuilds the datamart from the raw files. *)
Class Platform := {
  fsqrt : Q -> Q;
  isoformat : Z -> string;
  strftime : Z -> string;
  astype_str : cell -> string;
  etl_main : result Datamart
}.

(** ** scikit-learn's mean imputer *)

Module Imputer.

Definition column_of (j : nat) (X : list (list fnum)) : list fnum :=
  map (fun r => nth j r NaN) X.

Fixpoint finite_values (l : list fnum) : list Q :=
  match l with
  | [] => []
  | Fin q :: l' => q :: finite_values l'
  | _ :: l' => finite_values l'
  end.

(** The statistic of a column: the mean of its non-null entries, none
    when every entry is null. *)
Definition statistic (j : nat) (X : list (list fnum)) : option Q :=
  match Pd.mean (finite_values (column_of j X)) with
  | Fin m => Some m
  | _ => None
  end.

Definition n_features (X : list (list fnum)) : nat :=
  match X with
  | [] => 0
  | r :: _ => length r
  end.

(** Mean imputation of one entry. *)
Definition impute (m : Q) (x : fnum) : Q :=
  match x with
  | Fin q => q
  | _ => m
  end.

(** A column without any observed value is dropped from the output. *)
Definition transform_row (X : list (list fnum)) (r : list fnum) : list Q :=
  flat_map
    (fun j =>
       match statistic j X with
       | None => []
       | Some m =>
           [impute m (nth j r NaN)]
       end)
    (seq 0 (n_features X)).

(** [SimpleImputer(strategy="mean").fit_transform(X)]: the input check
    accepts NaN and rejects an empty matrix and infinities. *)
Definition fit_transform (X : list (list fnum)) : result (list (list Q)) :=
  if (length X =? 0)%nat then Raise ValueError
  else if existsb (existsb is_inf) X then Raise ValueError
  else Ok (map (transform_row X) X).

End Imputer.

(** ** anomaly.py *)

Module Anomaly.
Section Scorer.
Context `{TreeEnsemble}.

(** A reference always designates a live frame; the lookup of a dead one
    is reported as a missing key. *)
Definition deref (df : loc) : M DataFrame :=
  fun w =>
    match frames w !! df with
    | Some d => (Ok d, w)
    | None => (Raise (KeyError "<frame>"), w)
    end.

(** A new frame object. *)
Definition alloc (d : DataFrame) : M loc :=
  fun w =>
    let l := fresh (dom (frames w)) in
    (Ok l, set_frames (<[l := d]> (frames w)) w).

(** [df[name]] *)
Definition getitem (df : loc) (name : string) : M column :=
  d ← deref df;
  match columns d !! name with
  | Some col => ret col
  | None => raise (KeyError name)
  end.

(** [df[name] = values]: the frame object itself is updated. *)
Definition setitem (df : loc) (name : string) (values : column) : M unit :=
  d ← deref df;
  modify (fun w =>
    set_frames (<[df := {| nrows := nrows d;
                           columns := <[name := values]> (columns d) |}]>
                  (frames w)) w).

(** [df.copy()]: a fresh object with the same content. *)
Definition copy (df : loc) : M loc :=
  d ← deref df;
  alloc d.

(** The frequency feature: the number of transactions that share the
    account of [t], counted over the whole table. *)
Definition tx_per_account (txs : list Tx.t) (t : Tx.t) : Z :=
  Pd.count (List.filter (fun u => (Tx.account_id u =? Tx.account_id t)%Z) txs).

(** The frame [fact_transactions] merged with the per-account counts. *)
Definition tx_frame (txs : list Tx.t) : DataFrame :=
  {| nrows := length txs;
     columns :=
       <["transaction_id" := map (fun t => CInt (Tx.transaction_id t)) txs]>
       (<["account_id" := map (fun t => CInt (Tx.account_id t)) txs]>
       (<["client_id" := map (fun t => CInt (Tx.client_id t)) txs]>
       (<["time_id" := map (fun t => CInt (Tx.time_id t)) txs]>
       (<["amount" := map (fun t => CFloat (Tx.amount t)) txs]>
       (<["transaction_date" := map (fun t => CTime (Tx.transaction_date t)) txs]>
       (<["transaction_type" := map (fun t => CStr (Tx.transaction_type t)) txs]>
       (<["tx_per_account" := map (fun t => CInt (tx_per_account txs t)) txs]>
        ∅))))))) |}.

(** [load_data] *)
Definition load_data : M loc :=
  df_tx ← gets (fun w => fact_transactions (db w));
  alloc (tx_frame df_tx).

(** [df[[c1, c2]].to_numpy()] *)
Definition to_numpy2 (df : loc) (c1 c2 : string) : M matrix :=
  a ← getitem df c1;
  b ← getitem df c2;
  match as_floats a, as_floats b with
  | Some xs, Some ys => ret (combine xs ys)
  | _, _ => raise ValueError
  end.

(** The same matrix read off a frame value. *)
Definition design_matrix (d : DataFrame) : option matrix :=
  a ← columns d !! "amount";
  b ← columns d !! "tx_per_account";
  xs ← as_floats a;
  ys ← as_floats b;
  Some (combine xs ys).

Definition sk_fit (p : Sklearn.IsolationForest) (X : matrix)
  : M Sklearn.FittedIsolationForest :=
  fun w => (Sklearn.fit p (np_random w) X, w).

(** [detect_anomalies] *)
Definition detect_anomalies (df : loc) (contamination : Q) : M loc :=
  X ← to_numpy2 df "amount" "tx_per_account";
  iso ← sk_fit {| Sklearn.contamination := contamination;
                  Sklearn.random_state := Some 42%Z |} X;
  let scores := map Qopp (Sklearn.decision_function iso X) in
  setitem df "anomaly_score" (map CFloat scores);;
  let threshold := Np.quantile scores (1 - contamination) in
  col ← getitem df "anomaly_score";
  setitem df "is_anomaly" (map (cell_ge threshold) col);;
  ret df.

(** The estimator a valid call fits, and the anomaly scores before its
    offset is added: the negated [score_samples] of the forest grown with
    seed 42. *)
Definition fitted (c : Q) (X : matrix) : Sklearn.FittedIsolationForest :=
  {| Sklearn.estimators_ := fit_trees (RandomState 42) X;
     Sklearn.offset_ :=
       Np.percentile (Sklearn.score_samples (fit_trees (RandomState 42) X) X)
                     (100 * c) |}.

Definition raw_scores (X : matrix) : list Q :=
  map Qopp (Sklearn.score_samples (fit_trees (RandomState 42) X) X).

(** The frame value that [detect_anomalies] leaves in the object it was
    given, or the exception it raises, as a function of the frame value
    it finds there. *)
Definition scored_frame (d : DataFrame) (contamination : Q) : result DataFrame :=
  match columns d !! "amount" with
  | None => Raise (KeyError "amount")
  | Some a =>
      match columns d !! "tx_per_account" with
      | None => Raise (KeyError "tx_per_account")
      | Some b =>
          match as_floats a, as_floats b with
          | Some xs, Some ys =>
              let X := combine xs ys in
              match Sklearn.fit {| Sklearn.contamination := contamination;
                                   Sklearn.random_state := Some 42%Z |}
                                (RandomState 42) X with
              | Raise e => Raise e
              | Ok iso =>
                  let scores := map Qopp (Sklearn.decision_function iso X) in
                  let threshold := Np.quantile scores (1 - contamination) in
                  Ok {| nrows := nrows d;
                        columns :=
                          <["is_anomaly" :=
                              map (cell_ge threshold) (map CFloat scores)]>
                            (<["anomaly_score" := map CFloat scores]> (columns d)) |}
              end
          | _, _ => Raise ValueError
          end
      end
  end.

(** The two result columns of a frame, empty when absent. *)
Definition anomaly_score (d : DataFrame) : list Q :=
  match columns d !! "anomaly_score" with
  | Some col => default [] (as_floats col)
  | None => []
  end.

Definition is_anomaly (d : DataFrame) : list bool :=
  match columns d !! "is_anomaly" with
  | Some col => map is_true col
  | None => []
  end.

(** The score vector a call leaves in the frame it returns. *)
Definition score_vector (df : loc) (contamination : Q) (w : World)
  : result (list Q) :=
  match detect_anomalies df contamination w with
  | (Ok l, w') =>
      match frames w' !! l with
      | Some d => Ok (anomaly_score d)
      | None => Raise (KeyError "<frame>")
      end
  | (Raise e, _) => Raise e
  end.

(** [int(df['is_anomaly'].sum())] *)
Definition n_anomalies (d : DataFrame) : nat := Np.count_true (is_anomaly d).

End Scorer.
End Anomaly.

(** ** Feature aggregation for default scoring
    ([model_default.py], [pipeline.py]) *)

Module DefaultFeatures.
Section Aggregator.
Context `{Platform}.

Record t := {
  account_id : Z;
  avg_amount : fnum;
  std_amount : fnum;
  tx_count : Z;
  avg_delay_days : fnum;
  tx_count_per_day : fnum
}.

(** The sample standard deviation ([ddof=1]): NaN below two values. *)
Definition std (l : list Q) : fnum :=
  match Pd.mean l with
  | Fin m =>
      if (length l <? 2)%nat then NaN
      else Fin (fsqrt (Np.sum (map (fun x => (x - m) * (x - m))%Q l)
                       / (inject_Z (Pd.count l) - 1)))
  | _ => NaN
  end.

(** [d.diff().dt.days.dropna().mean()] *)
Definition avg_delay (d : list Z) : fnum :=
  Pd.mean (map inject_Z (Pd.dropna (Pd.dt_days (Pd.diff d)))).

Definition by_account_and_date (a b : Tx.t) : bool :=
  (Tx.account_id a <? Tx.account_id b)%Z
  || ((Tx.account_id a =? Tx.account_id b)%Z
      && (Tx.transaction_date a <=? Tx.transaction_date b)%Z).

(** The aggregation of one group, and the rate column computed from it. *)
Definition aggregate (total_days : Z) (k : Z) (g : list Tx.t) : t :=
  {| account_id := k;
     avg_amount := Pd.mean (map Tx.amount g);
     std_amount := std (map Tx.amount g);
     tx_count := Pd.count g;
     avg_delay_days := avg_delay (map Tx.transaction_date g);
     tx_count_per_day := true_divide (Pd.count g) total_days |}.

(** [features]: the transactions sorted by account and date, grouped by
    account and aggregated; [tx_count_per_day] divides by the number of
    distinct days of the time dimension. *)
Definition features (df_tx : list Tx.t) (df_time : list Z) : list t :=
  let total_days := Pd.nunique df_time in
  let sorted := Pd.sort_by by_account_and_date df_tx in
  map (fun kg => aggregate total_days (fst kg) (snd kg))
      (Pd.groupby Tx.account_id sorted).

(** A row of the feature matrix [X]. *)
Definition X_row (f : t) : list fnum :=
  [avg_amount f; std_amount f; tx_count_per_day f; avg_delay_days f].

End Aggregator.
End DefaultFeatures.

(** ** Feature aggregation for churn ([model_churn.py], [pipeline.py]) *)

Module ChurnFeatures.
Section Aggregator.
Context `{TreeEnsemble}.

Record t := {
  client_id : Z;
  tenure_days : Z;
  avg_balance : fnum;
  total_tx_count : Z;
  days_since_last : Z
}.

(** [df_tx.merge(df_acct, on="account_id")]: the inner join, in the order
    of the transactions. *)
Definition merge (df_tx : list Tx.t) (df_acct : list Acct.t)
  : list (Tx.t * Acct.t) :=
  flat_map
    (fun tx =>
       map (fun a => (tx, a))
           (List.filter (fun a => (Acct.account_id a =? Tx.account_id tx)%Z)
                        df_acct))
    df_tx.

Definition by_client_and_date (a b : Tx.t * Acct.t) : bool :=
  (Tx.client_id (fst a) <? Tx.client_id (fst b))%Z
  || ((Tx.client_id (fst a) =? Tx.client_id (fst b))%Z
      && (Tx.transaction_date (fst a) <=? Tx.transaction_date (fst b))%Z).

(** [d.min()] and [d.max()] of a group; a group is never empty. *)
Definition series_min (l : list Z) : Z :=
  match l with
  | [] => 0%Z
  | x :: l' => Pd.minimum x l'
  end.

Definition series_max (l : list Z) : Z :=
  match l with
  | [] => 0%Z
  | x :: l' => Pd.maximum x l'
  end.

(** [lambda d: (pd.Timestamp.today() - d.min()).days]: the clock is read
    inside the aggregation function, once for each group. *)
Definition tenure (g : list (Tx.t * Acct.t)) : M Z :=
  now ← today;
  ret (Pd.days (now - series_min (map (fun r => Acct.opened_date (snd r)) g))).

(** [lambda d: (pd.Timestamp.today() - d.max()).days] *)
Definition recency (g : list (Tx.t * Acct.t)) : M Z :=
  now ← today;
  ret (Pd.days (now - series_max (map (fun r => Tx.transaction_date (fst r)) g))).

Fixpoint assemble (groups : list (Z * list (Tx.t * Acct.t)))
         (tenures lasts : list Z) : list t :=
  match groups, tenures, lasts with
  | (k, g) :: groups', tn :: tenures', ls :: lasts' =>
      {| client_id := k;
         tenure_days := tn;
         avg_balance := Pd.mean (map (fun r => Tx.amount (fst r)) g);
         total_tx_count := Pd.count g;
         days_since_last := ls |}
      :: assemble groups' tenures' lasts'
  | _, _, _ => []
  end.

(** [groupby("client_id").agg(...)]: the named aggregations are evaluated
    column by column, each over the groups in key order. *)
Definition aggregate (df : list (Tx.t * Acct.t)) : M (list t) :=
  let groups := Pd.groupby (fun r => Tx.client_id (fst r)) df in
  tenures ← mapM (fun kg => tenure (snd kg)) groups;
  lasts ← mapM (fun kg => recency (snd kg)) groups;
  ret (assemble groups tenures lasts).

(** [features] of [model_churn.py]: the merged frame is sorted by client
    and date first. *)
Definition features (df_tx : list Tx.t) (df_acct : list Acct.t) : M (list t) :=
  aggregate (Pd.sort_by by_client_and_date (merge df_tx df_acct)).

(** [features_churn] of [pipeline.py]: the merged frame is grouped as it
    is. *)
Definition features_churn (df_tx : list Tx.t) (df_acct : list Acct.t)
  : M (list t) :=
  aggregate (merge df_tx df_acct).

(** The aggregation the specification asks for, with the instant [now]
    given by the caller instead of read from the clock. *)
Definition features_at (now : Z) (df_tx : list Tx.t) (df_acct : list Acct.t)
  : list t :=
  let df := Pd.sort_by by_client_and_date (merge df_tx df_acct) in
  map (fun kg =>
         {| client_id := fst kg;
            tenure_days :=
              Pd.days (now - series_min
                               (map (fun r => Acct.opened_date (snd r)) (snd kg)));
            avg_balance := Pd.mean (map (fun r => Tx.amount (fst r)) (snd kg));
            total_tx_count := Pd.count (snd kg);
            days_since_last :=
              Pd.days (now - series_max
                               (map (fun r => Tx.transaction_date (fst r)) (snd kg))) |})
      (Pd.groupby (fun r => Tx.client_id (fst r)) df).

Definition X_row (f : t) : list fnum :=
  [Fin (inject_Z (tenure_days f)); avg_balance f;
   Fin (inject_Z (total_tx_count f)); Fin (inject_Z (days_since_last f))].

End Aggregator.
End ChurnFeatures.

(** ** app.py *)

Module App.
Section Endpoints.
Context `{TreeEnsemble} `{Classifiers} `{Platform}.

Definition by_date (a b : Tx.t) : bool :=
  (Tx.transaction_date a <=? Tx.transaction_date b)%Z.

(** The feature row that [score_default] hands to the classifier. *)
Definition default_row (df : list Tx.t) (total_days : Z) : list fnum :=
  [Pd.mean (map Tx.amount df);
   DefaultFeatures.std (map Tx.amount df);
   true_divide (Pd.count df) total_days;
   DefaultFeatures.avg_delay (map Tx.transaction_date df)].

(** [score_default]: the response carries the account and its score. *)
Definition score_default (account_id : Z) : M (Z * Q) :=
  df_tx ← gets (fun w => fact_transactions (db w));
  df_time ← gets (fun w => dim_time (db w));
  let df := Pd.sort_by by_date
              (List.filter (fun t => (Tx.account_id t =? account_id)%Z) df_tx) in
  if (length df =? 0)%nat then raise (HTTPException 404)
  else
    let total_days := Pd.nunique df_time in
    proba ← lift (logreg_predict_proba [default_row df total_days]);
    match proba with
    | score :: _ => ret (account_id, score)
    | [] => raise IndexError
    end.

Definition record_score (r : gmap string cell) : Q :=
  match r !! "anomaly_score" with
  | Some c => default 0%Q (as_float c)
  | None => 0%Q
  end.

Definition by_score_desc (a b : gmap string cell) : bool :=
  Qle_bool (record_score b) (record_score a).

(** [detect_anomaly]: the scorer works on a copy of the loaded frame; the
    hundred highest-scored flagged rows are returned. *)
Definition detect_anomaly (contamination : Q) : M (list (gmap string cell)) :=
  df ← Anomaly.load_data;
  df' ← Anomaly.copy df;
  df_res ← Anomaly.detect_anomalies df' contamination;
  d ← Anomaly.deref df_res;
  let out := getitem_mask d (Anomaly.is_anomaly d) in
  ret (firstn 100 (Pd.sort_by by_score_desc (to_dict_records out))).

End Endpoints.
End App.

(** ** model_default.py: the imputation step of the training script *)

Module ModelDefault.
Section Training.
Context `{TreeEnsemble} `{Platform}.

(** [features]: the two tables are read from the datamart and
    aggregated. *)
Definition features : M (list DefaultFeatures.t) :=
  df_tx ← gets (fun w => fact_transactions (db w));
  df_time ← gets (fun w => dim_time (db w));
  ret (DefaultFeatures.features df_tx df_time).

(** [X_imputed]: the feature matrix after mean imputation; rebuilding the
    frame under the four column names fails when a column was dropped. *)
Definition X_imputed (df_tx : list Tx.t) (df_time : list Z)
  : result (list (list Q)) :=
  let X := map DefaultFeatures.X_row (DefaultFeatures.features df_tx df_time) in
  result_bind (Imputer.fit_transform X) (fun rows =>
    if forallb (fun r => (length r =? 4)%nat) rows then Ok rows
    else Raise ValueError).

End Training.
End ModelDefault.

(** ** model_churn.py: the aggregation step of the training script *)

Module ModelChurn.
Section Training.
Context `{TreeEnsemble}.

Definition features : M (list ChurnFeatures.t) :=
  df_tx ← gets (fun w => fact_transactions (db w));
  df_acct ← gets (fun w => dim_accounts (db w));
  ChurnFeatures.features df_tx df_acct.

End Training.
End ModelChurn.

(** ** pipeline.py *)

Module Pipeline.
Section Orchestrator.
Context `{TreeEnsemble} `{Classifiers} `{Platform}.

(** [frame[col] = array]: the array must have one entry for each row. *)
Definition assign {A B} (rows : list A) (values : list B) : result (list (A * B)) :=
  if (length rows =? length values)%nat then Ok (combine rows values)
  else Raise ValueError.

(** Stage 2: default scoring, one probability for each account. *)
Definition default_scoring : M (list (DefaultFeatures.t * Q)) :=
  df_tx ← gets (fun w => fact_transactions (db w));
  df_time ← gets (fun w => dim_time (db w));
  let features_def := DefaultFeatures.features df_tx df_time in
  X_def_imputed ← lift (Imputer.fit_transform (map DefaultFeatures.X_row features_def));
  def_prob ← lift (logreg_predict_proba (map (map Fin) X_def_imputed));
  lift (assign features_def def_prob).

(** Stage 3: churn prediction, one probability for each client. *)
Definition churn_prediction : M (list (ChurnFeatures.t * Q)) :=
  df_tx ← gets (fun w => fact_transactions (db w));
  df_acct ← gets (fun w => dim_accounts (db w));
  features_churn ← ChurnFeatures.features_churn df_tx df_acct;
  churn_prob ← lift (xgb_predict (map ChurnFeatures.X_row features_churn));
  lift (assign features_churn churn_prob).

(** Stage 4: anomaly detection on the loaded frame itself, then the date
    column is turned into text. *)
Definition anomaly_detection : M loc :=
  df ← Anomaly.load_data;
  df_anom ← Anomaly.detect_anomalies df (5 # 100);
  d ← Anomaly.deref df_anom;
  match columns d !! "transaction_date" with
  | Some col => Anomaly.setitem df_anom "transaction_date" (map (fun c => CStr (astype_str c)) col)
  | None => ret tt
  end;;
  ret df_anom.

(** Stage 5: the three metrics sent to the tracking server. *)
Definition mlflow_tracking (features_def : list (DefaultFeatures.t * Q))
           (features_churn : list (ChurnFeatures.t * Q)) (df_anom : DataFrame)
  : M unit :=
  modify (add_metric "avg_default_risk" (Pd.mean (map snd features_def)));;
  modify (add_metric "avg_churn_risk" (Pd.mean (map snd features_churn)));;
  modify (add_metric "n_anomalies"
            (Fin (inject_Z (Z.of_nat (Anomaly.n_anomalies df_anom))))).

Definition default_record (r : DefaultFeatures.t * Q) : gmap string cell :=
  <["account_id" := CInt (DefaultFeatures.account_id (fst r))]>
    (<["default_risk" := CFloat (snd r)]> ∅).

Definition churn_record (r : ChurnFeatures.t * Q) : gmap string cell :=
  <["client_id" := CInt (ChurnFeatures.client_id (fst r))]>
    (<["churn_risk" := CFloat (snd r)]> ∅).

(** Stage 6: the report. *)
Definition report (timestamp : Z) (features_def : list (DefaultFeatures.t * Q))
           (features_churn : list (ChurnFeatures.t * Q)) (df_anom : DataFrame)
  : gmap string json :=
  <["timestamp" := JString (isoformat timestamp)]>
  (<["default_risk_summary" := JRecords (map default_record features_def)]>
  (<["churn_risk_summary" := JRecords (map churn_record features_churn)]>
  (<["anomalies" :=
       JRecords (to_dict_records
                   (getitem_mask df_anom (Anomaly.is_anomaly df_anom)))]>
   ∅))).

(** The whole script; the value is the path of the report. *)
Definition main : M string :=
  mart ← lift etl_main;
  modify (set_db mart);;
  features_def ← default_scoring;
  features_churn ← churn_prediction;
  df_anom ← anomaly_detection;
  d ← Anomaly.deref df_anom;
  mlflow_tracking features_def features_churn d;;
  timestamp ← today;
  let rep := report timestamp features_def features_churn d in
  stamp ← today;
  let report_path := "report_" +:+ strftime stamp +:+ ".json" in
  modify (add_report report_path rep);;
  ret report_path.

End Orchestrator.
End Pipeline.

(** ** A small instance to run the definitions

    A stand-in for the tree ensemble: the generator is its seed, the fitted
    forest remembers the largest amount of the training matrix, and a point
    is the more normal the further its amount lies below that maximum. *)

Module Toy.

Definition largest_amount (X : matrix) : Q :=
  fold_right (fun x m => if Qle_bool m (fst x) then fst x else m) 0%Q X.

#[export] Instance ensemble : TreeEnsemble := {|
  rng := Z;
  forest := Q;
  RandomState := fun seed => seed;
  fit_trees := fun _ X => largest_amount X;
  path_score := fun top x => (top - fst x)%Q
|}.

#[export] Instance classifiers : Classifiers := {|
  logreg_predict_proba := fun X => Ok (map (fun _ => (1 # 4)%Q) X);
  xgb_predict := fun X => Ok (map (fun _ => (1 # 2)%Q) X)
|}.

Definition tx (id account client : Z) (amt : Q) (date : Z) : Tx.t :=
  {| Tx.transaction_id := id; Tx.account_id := account;
     Tx.client_id := client; Tx.time_id := 1;
     Tx.amount := amt; Tx.transaction_date := date;
     Tx.transaction_type := "debit" |}.

(** Two transactions on account 1, one large transaction on account 2. *)
Definition transactions : list Tx.t :=
  [tx 1 1 10 50 86400; tx 2 1 10 55 259200; tx 3 2 20 5000 172800].

(** A table in which every account has exactly one transaction. *)
Definition singles : list Tx.t :=
  [tx 1 1 10 50 86400; tx 3 2 20 5000 172800].

Definition accounts : list Acct.t :=
  [ {| Acct.account_id := 1; Acct.client_id := 10;
       Acct.account_type := "checking"; Acct.opened_date := 0 |};
    {| Acct.account_id := 2; Acct.client_id := 20;
       Acct.account_type := "savings"; Acct.opened_date := 43200 |} ].

Definition mart : Datamart :=
  {| fact_transactions := transactions;
     dim_accounts := accounts;
     dim_time := [1; 3; 2]%Z |}.

#[export] Instance platform : Platform := {|
  fsqrt := fun q => q;
  isoformat := fun _ => "2024-01-05T00:00:00";
  strftime := fun _ => "20240105_000000";
  astype_str := fun _ => "2024-01-01";
  etl_main := Ok mart
|}.

(** A process that has loaded nothing yet; the clock stands at [now]. *)
Definition world_at (now : Z) : World :=
  {| db := mart; frames := ∅; np_random := 7%Z;
     wall_clock := fun _ => now; clock_reads := 0;
     mlflow_metrics := []; report_files := [] |}.

(** A process in which the transactions frame is alive at address 0. *)
Definition world : World :=
  {| db := mart; frames := {[ 0%nat := Anomaly.tx_frame transactions ]};
     np_random := 7%Z;
     wall_clock := fun k => (432000 + Z.of_nat k)%Z; clock_reads := 0;
     mlflow_metrics := []; report_files := [] |}.

(** The same process with an empty time dimension. *)
Definition world_without_days : World :=
  set_db {| fact_transactions := transactions;
            dim_accounts := accounts;
            dim_time := [] |} world.

(** Another process: other addresses, another generator state, another
    clock, with the same transactions frame alive at address 5. *)
Definition other_world : World :=
  {| db := mart;
     frames := {[ 5%nat := Anomaly.tx_frame transactions;
                  2%nat := Anomaly.tx_frame singles ]};
     np_random := 123%Z;
     wall_clock := fun k => (900000 + 86400 * Z.of_nat k)%Z; clock_reads := 3;
     mlflow_metrics := [("n_anomalies", Fin 1)]; report_files := [] |}.

End Toy.

(** ** etl.py

    The three raw files as read by [extract_raw], with their dates already
    parsed; cleaning, the time dimension and the load into the star
    schema. *)

(** The calendar fields of a date. *)
Class Calendar := {
  year_of : Z -> Z;
  month_of : Z -> Z;
  day_of : Z -> Z;
  weekday_of : Z -> Z
}.

Module Etl.

Record RawTx := {
  transaction_id : Z;
  account_id : Z;
  amount : Q;
  transaction_date : Z;
  transaction_type : string
}.

Record Kyc := {
  client_id : Z;
  name : string;
  birthdate : Z;
  country : string
}.

Fixpoint drop_duplicates_from {A} (key : A -> Z) (seen : list Z) (l : list A)
  : list A :=
  match l with
  | [] => []
  | x :: l' =>
      if existsb (Z.eqb (key x)) seen then drop_duplicates_from key seen l'
      else x :: drop_duplicates_from key (key x :: seen) l'
  end.

(** [drop_duplicates(subset=key)]: the first row of each key is kept. *)
Definition drop_duplicates {A} (key : A -> Z) (l : list A) : list A :=
  drop_duplicates_from key [] l.

(** [unique()]: the distinct values in order of first appearance. *)
Definition unique (l : list Z) : list Z := drop_duplicates (fun x => x) l.

Definition clean_accounts (df : list Acct.t) : list Acct.t :=
  drop_duplicates Acct.account_id df.

Definition with_abs_amount (t : RawTx) : RawTx :=
  {| transaction_id := transaction_id t;
     account_id := account_id t;
     amount := Qabs (amount t);
     transaction_date := transaction_date t;
     transaction_type := transaction_type t |}.

Definition clean_transactions (df : list RawTx) : list RawTx :=
  map with_abs_amount (drop_duplicates transaction_id df).

Definition clean_kyc (df : list Kyc) : list Kyc :=
  drop_duplicates client_id df.

(** [.dt.date]: the calendar day of an instant. *)
Definition date_of (t : Z) : Z := (t / 86400)%Z.

Record TimeRow := {
  date : Z;
  year : Z;
  month : Z;
  day : Z;
  quarter : Z;
  weekday : Z
}.

(** [populate_time_dimension]: one row for each distinct transaction
    day, in order of first appearance. *)
Definition populate_time_dimension `{Calendar} (df_transactions : list RawTx)
  : list TimeRow :=
  map (fun d => {| date := d;
                   year := year_of d;
                   month := month_of d;
                   day := day_of d;
                   quarter := ((month_of d - 1) / 3 + 1)%Z;
                   weekday := weekday_of d |})
      (unique (map (fun t => date_of (transaction_date t)) df_transactions)).

(** A dictionary built from pairs; a later pair replaces an earlier one
    with the same key. *)
Definition dict {V} (pairs : list (Z * V)) : gmap Z V :=
  fold_left (fun m kv => <[fst kv := snd kv]> m) pairs ∅.

(** [{row["date"]: idx + 1 for idx, row in df_time.iterrows()}] *)
Definition time_ids (df_time : list TimeRow) : gmap Z Z :=
  dict (combine (map date df_time)
                (map (fun i => (Z.of_nat i + 1)%Z) (seq 0 (length df_time)))).

(** [dict(zip(df_accounts["account_id"], df_accounts["client_id"]))] *)
Definition client_ids (df_accounts : list Acct.t) : gmap Z Z :=
  dict (map (fun a => (Acct.account_id a, Acct.client_id a)) df_accounts).

(** A row of [fact_transactions]: the transaction with its two foreign
    keys; [.map(dict)] leaves a null where the dictionary has no entry. *)
Record FactTx := {
  tx : RawTx;
  time_id : option Z;
  fact_client_id : option Z
}.

Record Mart := {
  dim_clients : list Kyc;
  dim_accounts : list Acct.t;
  dim_time : list TimeRow;
  fact_transactions : list FactTx;
  fact_events : list (Z * Z * Z * string)
}.

(** [load_data] *)
Definition load_data `{Calendar} (df_accounts : list Acct.t)
           (df_transactions : list RawTx) (df_kyc : list Kyc) : Mart :=
  let df_time := populate_time_dimension df_transactions in
  {| dim_clients := df_kyc;
     dim_accounts := df_accounts;
     dim_time := df_time;
     fact_transactions :=
       map (fun t =>
              {| tx := t;
                 time_id := time_ids df_time !! date_of (transaction_date t);
                 fact_client_id := client_ids df_accounts !! account_id t |})
           df_transactions;
     fact_events := [] |}.

(** [main], from the three frames [extract_raw] returns. *)
Definition main `{Calendar} (accts : list Acct.t) (txs : list RawTx)
           (kyc : list Kyc) : Mart :=
  load_data (clean_accounts accts) (clean_transactions txs) (clean_kyc kyc).

End Etl.

(** ** Raw files to run the ETL on: the rows of the fixture of
    [tests/test_etl.py], with one duplicated key in each file. *)

Module ToyEtl.

(** A stand-in calendar of 365-day years and 31-day months; the
    properties below do not depend on the calendar fields. *)
#[export] Instance calendar : Calendar := {|
  year_of := fun d => (1970 + d / 365)%Z;
  month_of := fun d => (1 + (d mod 365) / 31)%Z;
  day_of := fun d => (1 + (d mod 365) mod 31)%Z;
  weekday_of := fun d => ((d + 3) mod 7)%Z
|}.

Definition accounts : list Acct.t :=
  [ {| Acct.account_id := 1; Acct.client_id := 10;
       Acct.account_type := "A"; Acct.opened_date := 1577836800 |};
    {| Acct.account_id := 1; Acct.client_id := 20;
       Acct.account_type := "A"; Acct.opened_date := 1577836800 |};
    {| Acct.account_id := 2; Acct.client_id := 20;
       Acct.account_type := "B"; Acct.opened_date := 1623715200 |} ].

Definition transactions : list Etl.RawTx :=
  [ {| Etl.transaction_id := 100; Etl.account_id := 1; Etl.amount := -50;
       Etl.transaction_date := 1646092800; Etl.transaction_type := "debit" |};
    {| Etl.transaction_id := 100; Etl.account_id := 2; Etl.amount := -50;
       Etl.transaction_date := 1646092800; Etl.transaction_type := "debit" |};
    {| Etl.transaction_id := 101; Etl.account_id := 2; Etl.amount := 75;
       Etl.transaction_date := 1646179200; Etl.transaction_type := "credit" |};
    {| Etl.transaction_id := 102; Etl.account_id := 7; Etl.amount := 20;
       Etl.transaction_date := 1646100000; Etl.transaction_type := "credit" |} ].

Definition kyc : list Etl.Kyc :=
  [ {| Etl.client_id := 10; Etl.name := "Alice";
       Etl.birthdate := 642297600; Etl.country := "FR" |};
    {| Etl.client_id := 10; Etl.name := "Alice";
       Etl.birthdate := 642297600; Etl.country := "FR" |};
    {| Etl.client_id := 20; Etl.name := "Bob";
       Etl.birthdate := 490665600; Etl.country := "US" |} ].

(** The first row the ETL loads from these files. *)
Definition first_fact : Etl.FactTx :=
  {| Etl.tx := {| Etl.transaction_id := 100; Etl.account_id := 1;
                  Etl.amount := 50; Etl.transaction_date := 1646092800;
                  Etl.transaction_type := "debit" |};
     Etl.time_id := Some 1%Z;
     Etl.fact_client_id := Some 10%Z |}.

End ToyEtl.

(** ** reporting.py *)

Module Reporting.

Record Kpi := {
  transaction_type : string;
  total_amount : Q;
  avg_amount : fnum;
  count : Z
}.

Fixpoint unique_from (seen : list string) (l : list string) : list string :=
  match l with
  | [] => []
  | x :: l' =>
      if existsb (String.eqb x) seen then unique_from seen l'
      else x :: unique_from (x :: seen) l'
  end.

(** The distinct values of a text column. *)
Definition unique (l : list string) : list string := unique_from [] l.

(** [groupby] on a text key: one group for each distinct value, the keys
    in lexicographic order. *)
Definition groupby {A} (key : A -> string) (l : list A)
  : list (string * list A) :=
  map (fun k => (k, List.filter (fun x => String.eqb (key x) k) l))
      (Pd.sort_by String.leb (unique (map key l))).

(** [generate_kpi_summary]: total, mean and number of the transactions
    of each type. *)
Definition generate_kpi_summary (df_transactions : list Tx.t) : list Kpi :=
  map (fun kg =>
         {| transaction_type := fst kg;
            total_amount := Np.sum (map Tx.amount (snd kg));
            avg_amount := Pd.mean (map Tx.amount (snd kg));
            count := Pd.count (snd kg) |})
      (groupby Tx.transaction_type df_transactions).

End Reporting.

(** ** The simulated targets of the training scripts *)

Module Targets.

(** [x > t] on floats: false whenever one side is NaN. *)
Definition fgt (x t : fnum) : bool :=
  match x, t with
  | NaN, _ | _, NaN => false
  | PInf, PInf => false
  | PInf, _ => true
  | _, PInf => false
  | NInf, _ => false
  | Fin _, NInf => true
  | Fin a, Fin b => Np.Qltb b a
  end.

(** [Series.quantile(q)]: nulls are skipped; NaN on an empty series. *)
Definition series_quantile (l : list fnum) (q : Q) : fnum :=
  match Imputer.finite_values l with
  | [] => NaN
  | values => Fin (Np.quantile values q)
  end.

(** [model_default.py], step 4: the accounts whose average amount lies
    above the 0.8-quantile of the averages are marked as defaults. *)
Definition simulate_is_default (features : list DefaultFeatures.t) : list Z :=
  let threshold := series_quantile (map DefaultFeatures.avg_amount features) (8 # 10) in
  map (fun f => if fgt (DefaultFeatures.avg_amount f) threshold then 1%Z else 0%Z)
      features.

(** [model_churn.py], step 4: the clients whose last transaction is older
    than the 0.8-quantile are marked as churned. *)
Definition simulate_is_churn (features : list ChurnFeatures.t) : list Z :=
  let days := map (fun f => Fin (inject_Z (ChurnFeatures.days_since_last f))) features in
  let threshold := series_quantile days (8 # 10) in
  map (fun x => if fgt x threshold then 1%Z else 0%Z) days.

End Targets.

(** ** Frames with named columns, row by row

    The [predict_churn] endpoint depends on the names a merge gives to the
    columns of its result, so here a frame is its header together with its
    rows as records. *)

Module Table.

Record t := {
  header : list string;
  rows : list (gmap string cell)
}.

Definition mem (name : string) (names : list string) : bool :=
  existsb (String.eqb name) names.

(** Equality of two cells as [==] sees it. *)
Definition cell_eqb (a b : cell) : bool :=
  match as_float a, as_float b with
  | Some x, Some y => Qeq_bool x y
  | _, _ =>
      match a, b with
      | CStr x, CStr y => String.eqb x y
      | CTime x, CTime y => (x =? y)%Z
      | _, _ => false
      end
  end.

(** The columns other than the key that both sides have. *)
Definition overlap (left right : t) (on : string) : list string :=
  List.filter (fun n => negb (String.eqb n on) && mem n (header right))
              (header left).

Definition rename (ov : list string) (suffix : string) (n : string) : string :=
  if mem n ov then n +:+ suffix else n.

Fixpoint fields (ov : list string) (suffix : string) (names : list string)
         (r : gmap string cell) : list (string * cell) :=
  match names with
  | [] => []
  | n :: names' =>
      match r !! n with
      | Some c => (rename ov suffix n, c) :: fields ov suffix names' r
      | None => fields ov suffix names' r
      end
  end.

Definition same_key (on : string) (l r : gmap string cell) : bool :=
  match l !! on, r !! on with
  | Some a, Some b => cell_eqb a b
  | _, _ => false
  end.

(** [left.merge(right, on=key)]: the inner join on one key column.  A
    column other than the key that is present on both sides appears
    twice in the result, with the suffixes [_x] and [_y]. *)
Definition merge (left right : t) (on : string) : result t :=
  if negb (mem on (header left) && mem on (header right)) then Raise (KeyError on)
  else
    let ov := overlap left right on in
    let right_names := List.filter (fun n => negb (String.eqb n on)) (header right) in
    Ok {| header := (map (rename ov "_x") (header left)
                     ++ map (rename ov "_y") right_names)%list;
          rows :=
            flat_map
              (fun l =>
                 map (fun r =>
                        (list_to_map (fields ov "_x" (header left) l
                                      ++ fields ov "_y" right_names r)%list
                         : gmap string cell))
                     (List.filter (same_key on l) (rows right)))
              (rows left) |}.

(** [df[name]] *)
Definition column_of (df : t) (name : string) : result (list cell) :=
  if mem name (header df)
  then Ok (flat_map (fun r => match r !! name with
                              | Some c => [c]
                              | None => []
                              end) (rows df))
  else Raise (KeyError name).

Definition of_transactions (txs : list Tx.t) : t :=
  {| header := ["transaction_id"; "account_id"; "amount"; "transaction_date";
                "transaction_type"; "time_id"; "client_id"];
     rows :=
       map (fun t =>
              (list_to_map
                 [("transaction_id", CInt (Tx.transaction_id t));
                  ("account_id", CInt (Tx.account_id t));
                  ("amount", CFloat (Tx.amount t));
                  ("transaction_date", CTime (Tx.transaction_date t));
                  ("transaction_type", CStr (Tx.transaction_type t));
                  ("time_id", CInt (Tx.time_id t));
                  ("client_id", CInt (Tx.client_id t))]
               : gmap string cell))
           txs |}.

Definition of_accounts (accts : list Acct.t) : t :=
  {| header := ["account_id"; "client_id"; "account_type"; "opened_date"];
     rows :=
       map (fun a =>
              (list_to_map
                 [("account_id", CInt (Acct.account_id a));
                  ("client_id", CInt (Acct.client_id a));
                  ("account_type", CStr (Acct.account_type a));
                  ("opened_date", CTime (Acct.opened_date a))]
               : gmap string cell))
           accts |}.

End Table.

(** ** app.py: the churn endpoint *)

Module ChurnEndpoint.

(** What the endpoint can raise: the exceptions of the other endpoints
    and the one [DataFrame.query] raises for a name it cannot resolve. *)
Inductive failure :=
| Error (e : error)
| UndefinedVariableError (name : string)
| TypeError.

Inductive outcome (A : Type) :=
| Returns (a : A)
| Fails (f : failure).
Arguments Returns {A} a.
Arguments Fails {A} f.

Section Endpoint.
Context `{TreeEnsemble} `{Classifiers}.

(** [df.query("name == value")]: the name is looked up among the columns
    of the frame. *)
Definition query_eq (df : Table.t) (name : string) (value : Z)
  : outcome Table.t :=
  if Table.mem name (Table.header df)
  then Returns {| Table.header := Table.header df;
                  Table.rows :=
                    List.filter
                      (fun r => match r !! name with
                                | Some c => Table.cell_eqb c (CInt value)
                                | None => false
                                end)
                      (Table.rows df) |}
  else Fails (UndefinedVariableError name).

Definition of_result {A} (r : result A) : outcome A :=
  match r with
  | Ok a => Returns a
  | Raise e => Fails (Error e)
  end.

(** [pd.to_datetime] of a column read from the datamart, whose date
    columns hold timestamps. *)
Fixpoint to_datetime (col : list cell) : result (list Z) :=
  match col with
  | [] => Ok []
  | CTime t :: col' => result_bind (to_datetime col') (fun ts => Ok (t :: ts))
  | _ :: _ => Raise ValueError
  end.

(** The part of [predict_churn] after the query. *)
Definition score_client (client_id : Z) (df : Table.t) (w : World)
  : outcome (Z * Q) * World :=
  if (length (Table.rows df) =? 0)%nat then (Fails (Error (HTTPException 404)), w)
  else
    match result_bind (Table.column_of df "transaction_date") to_datetime,
          result_bind (Table.column_of df "opened_date") to_datetime,
          Table.column_of df "amount",
          Table.column_of df "transaction_id" with
    | Ok dates, Ok opened, Ok amounts, Ok ids =>
        let now1 := wall_clock w (clock_reads w) in
        let now2 := wall_clock w (S (clock_reads w)) in
        let tenure := Pd.days (now1 - ChurnFeatures.series_min opened) in
        match as_floats amounts with
        | None => (Fails TypeError, tick w)
        | Some values =>
            let avg_bal := Pd.mean values in
            let total_count := Pd.count ids in
            let days_since := Pd.days (now2 - ChurnFeatures.series_max dates) in
            match xgb_predict [[Fin (inject_Z tenure); avg_bal;
                                Fin (inject_Z total_count);
                                Fin (inject_Z days_since)]] with
            | Ok (score :: _) => (Returns (client_id, score), tick (tick w))
            | Ok [] => (Fails (Error IndexError), tick (tick w))
            | Raise e => (Fails (Error e), tick (tick w))
            end
        end
    | Raise e, _, _, _ => (Fails (Error e), w)
    | _, Raise e, _, _ => (Fails (Error e), w)
    | _, _, Raise e, _ => (Fails (Error e), tick w)
    | _, _, _, Raise e => (Fails (Error e), tick w)
    end.

(** [predict_churn] *)
Definition predict_churn (client_id : Z) (w : World) : outcome (Z * Q) * World :=
  let df_tx := Table.of_transactions (fact_transactions (db w)) in
  let df_acct := Table.of_accounts (dim_accounts (db w)) in
  match of_result (Table.merge df_tx df_acct "account_id") with
  | Fails f => (Fails f, w)
  | Returns merged =>
      match query_eq merged "client_id" client_id with
      | Fails f => (Fails f, w)
      | Returns df => score_client client_id df w
      end
  end.

End Endpoint.
End ChurnEndpoint.

(** A platform whose ETL leaves the time dimension empty. *)

Module ToyFailure.

Definition mart : Datamart :=
  {| fact_transactions := Toy.transactions;
     dim_accounts := Toy.accounts;
     dim_time := [] |}.

Definition platform : Platform := {|
  fsqrt := fun q => q;
  isoformat := fun _ => "2024-01-05T00:00:00";
  strftime := fun _ => "20240105_000000";
  astype_str := fun _ => "2024-01-01";
  etl_main := Ok mart
|}.

End ToyFailure.

(** Rows of the two feature tables of the small instance. *)

Module ToyRows.
Local Open Scope Q_scope.

Definition first_account : DefaultFeatures.t :=
  {| DefaultFeatures.account_id := 1;
     DefaultFeatures.avg_amount := Fin (105 # 2);
     DefaultFeatures.std_amount := Fin (200 # 16);
     DefaultFeatures.tx_count := 2;
     DefaultFeatures.avg_delay_days := Fin 2;
     DefaultFeatures.tx_count_per_day := Fin (2 # 3) |}.

Definition two_clients : list ChurnFeatures.t :=
  [ {| ChurnFeatures.client_id := 10; ChurnFeatures.tenure_days := 5;
       ChurnFeatures.avg_balance := Fin (105 # 2);
       ChurnFeatures.total_tx_count := 2; ChurnFeatures.days_since_last := 2 |};
    {| ChurnFeatures.client_id := 20; ChurnFeatures.tenure_days := 5;
       ChurnFeatures.avg_balance := Fin 5000;
       ChurnFeatures.total_tx_count := 1; ChurnFeatures.days_since_last := 3 |} ].

End ToyRows.

(** * Properties *)

(** ** Order statistics and quantiles *)

Section NpFacts.
Local Open Scope Q_scope.

Lemma Qle_bool_false (x y : Q) : Qle_bool x y = false -> y < x.
Proof.
  intros E. destruct (Qlt_le_dec y x) as [L|L]; [exact L|].
  apply Qle_bool_iff in L. congruence.
Qed.

Lemma insert_sorted_length x l :
  length (Np.insert_sorted x l) = S (length l).
Proof.
  induction l as [|y l IH]; simpl; [reflexivity|].
  destruct (Qle_bool x y); simpl; congruence.
Qed.

Lemma sort_length l : length (Np.sort l) = length l.
Proof.
  induction l as [|x l IH]; simpl; [reflexivity|].
  rewrite insert_sorted_length. congruence.
Qed.

Lemma insert_sorted_In x y l :
  In y (Np.insert_sorted x l) <-> y = x \/ In y l.
Proof.
  induction l as [|z l IH]; simpl.
  - intuition.
  - destruct (Qle_bool x z); simpl; rewrite ?IH; intuition.
Qed.

Lemma sort_In y l : In y (Np.sort l) <-> In y l.
Proof.
  induction l as [|x l IH]; simpl; [reflexivity|].
  rewrite insert_sorted_In, IH. intuition.
Qed.

Lemma insert_sorted_sorted x l :
  StronglySorted Qle l -> StronglySorted Qle (Np.insert_sorted x l).
Proof.
  induction 1 as [|y l Hs IH Hall]; simpl.
  - constructor; constructor.
  - destruct (Qle_bool x y) eqn:E.
    + apply Qle_bool_iff in E. constructor.
      * constructor; assumption.
      * constructor; [exact E|].
        eapply List.Forall_impl; [|exact Hall]. intros z Hz. simpl in Hz. lra.
    + apply Qle_bool_false in E. constructor; [exact IH|].
      apply List.Forall_forall. intros z Hz. apply insert_sorted_In in Hz.
      destruct Hz as [->|Hz]; [lra|].
      rewrite List.Forall_forall in Hall. apply Hall, Hz.
Qed.

Lemma sort_sorted l : StronglySorted Qle (Np.sort l).
Proof.
  induction l as [|x l IH]; simpl; [constructor|].
  apply insert_sorted_sorted, IH.
Qed.

Lemma sorted_nth_le (s : list Q) :
  StronglySorted Qle s ->
  forall i j, (i <= j)%nat -> (j < length s)%nat ->
              nth i s 0 <= nth j s 0.
Proof.
  induction 1 as [|x s Hs IH Hall]; intros i j Hij Hj; simpl in Hj; [lia|].
  destruct j as [|j].
  - assert (i = 0%nat) as -> by lia. simpl. lra.
  - destruct i as [|i]; simpl.
    + rewrite List.Forall_forall in Hall. apply Hall, nth_In. lia.
    + apply IH; lia.
Qed.

Lemma lerp_eq a b t : Np.lerp a b t == a + (b - a) * t.
Proof.
  unfold Np.lerp. destruct (Qle_bool (1 # 2) t); ring.
Qed.

Lemma clip_index_mono n i j :
  (i <= j)%Z -> (Np.clip_index n i <= Np.clip_index n j)%nat.
Proof. unfold Np.clip_index. lia. Qed.

Lemma clip_index_lt n i : (0 < n)%nat -> (Np.clip_index n i < n)%nat.
Proof. unfold Np.clip_index. lia. Qed.

Lemma frac_bounds h : 0 <= h - inject_Z (Qfloor h) /\ h - inject_Z (Qfloor h) < 1.
Proof.
  pose proof (Qfloor_le h) as L. pose proof (Qlt_floor h) as U.
  rewrite inject_Z_plus in U. change (inject_Z 1) with 1 in U. lra.
Qed.

Lemma at_index_between s h :
  StronglySorted Qle s -> s <> [] ->
  nth (Np.clip_index (length s) (Qfloor h)) s 0 <= Np.at_index s h
  /\ Np.at_index s h <= nth (Np.clip_index (length s) (Qfloor h + 1)) s 0.
Proof.
  intros Hs Hne. unfold Np.at_index. rewrite lerp_eq.
  assert (0 < length s)%nat as Hn by (destruct s; simpl; [congruence|lia]).
  pose proof (sorted_nth_le s Hs _ _
                (clip_index_mono (length s) (Qfloor h) (Qfloor h + 1) ltac:(lia))
                (clip_index_lt _ _ Hn)) as Hle.
  pose proof (frac_bounds h) as [G0 G1].
  split; nra.
Qed.

Lemma at_index_mono s h1 h2 :
  StronglySorted Qle s -> h1 <= h2 -> Np.at_index s h1 <= Np.at_index s h2.
Proof.
  intros Hs Hh. destruct s as [|x s'] eqn:Es.
  - unfold Np.at_index. rewrite !lerp_eq. simpl.
    destruct (Np.clip_index 0 _), (Np.clip_index 0 _),
             (Np.clip_index 0 _), (Np.clip_index 0 _); simpl; lra.
  - rewrite <- Es in *. assert (s <> []) as Hne by (rewrite Es; discriminate).
    assert (0 < length s)%nat as Hn by (rewrite Es; simpl; lia).
    pose proof (Qfloor_resp_le _ _ Hh) as Hf.
    destruct (Z.eq_dec (Qfloor h1) (Qfloor h2)) as [E|NE].
    + unfold Np.at_index. rewrite !lerp_eq, E.
      pose proof (sorted_nth_le s Hs _ _
                    (clip_index_mono (length s) (Qfloor h2) (Qfloor h2 + 1) ltac:(lia))
                    (clip_index_lt _ _ Hn)) as Hle.
      assert (h1 - inject_Z (Qfloor h2) <= h2 - inject_Z (Qfloor h2)) by lra.
      nra.
    + pose proof (at_index_between s h1 Hs Hne) as [_ U1].
      pose proof (at_index_between s h2 Hs Hne) as [L2 _].
      pose proof (sorted_nth_le s Hs _ _
                    (clip_index_mono (length s) (Qfloor h1 + 1) (Qfloor h2) ltac:(lia))
                    (clip_index_lt _ _ Hn)) as Hle.
      lra.
Qed.

(** The quantile never decreases with the level. *)
Lemma quantile_mono a q1 q2 :
  q1 <= q2 -> Np.quantile a q1 <= Np.quantile a q2.
Proof.
  intros Hq. unfold Np.quantile.
  destruct a as [|x a].
  - unfold Np.at_index. rewrite !lerp_eq. simpl.
    destruct (Np.clip_index 0 _), (Np.clip_index 0 _),
             (Np.clip_index 0 _), (Np.clip_index 0 _); simpl; lra.
  - apply at_index_mono; [apply sort_sorted|].
    rewrite sort_length. simpl length.
    assert (0 <= inject_Z (Z.of_nat (S (length a))) - 1).
    { rewrite Nat2Z.inj_succ, <- Z.add_1_r, inject_Z_plus.
      change (inject_Z 1) with 1.
      assert (0 <= inject_Z (Z.of_nat (length a))).
      { change 0 with (inject_Z 0). rewrite <- Zle_Qle. lia. }
      lra. }
    nra.
Qed.

(** The quantile never exceeds the largest value. *)
Lemma quantile_le_max a q :
  a <> [] -> Np.quantile a q <= nth (length a - 1) (Np.sort a) 0.
Proof.
  intros Hne. unfold Np.quantile.
  assert (Np.sort a <> []) as Hne'.
  { intros E. apply (f_equal (@length Q)) in E. rewrite sort_length in E.
    destruct a; simpl in E; [congruence|lia]. }
  pose proof (at_index_between (Np.sort a) (q * (inject_Z (Z.of_nat (length (Np.sort a))) - 1))
                (sort_sorted a) Hne') as [_ U].
  eapply Qle_trans; [exact U|].
  assert (0 < length a)%nat by (destruct a; simpl; [congruence|lia]).
  apply sorted_nth_le; [apply sort_sorted| |rewrite sort_length; lia].
  rewrite sort_length. unfold Np.clip_index. lia.
Qed.

End NpFacts.

Section NpShift.
Local Open Scope Q_scope.

Lemma Qle_bool_shift x y k : Qle_bool (x + k) (y + k) = Qle_bool x y.
Proof.
  apply Bool.eq_true_iff_eq. rewrite !Qle_bool_iff. split; intros; lra.
Qed.

Lemma Qle_bool_compat x x' y y' :
  x == x' -> y == y' -> Qle_bool x y = Qle_bool x' y'.
Proof.
  intros Ex Ey. apply Bool.eq_true_iff_eq. rewrite !Qle_bool_iff.
  rewrite Ex, Ey. reflexivity.
Qed.

Lemma insert_sorted_shift k x l :
  Np.insert_sorted (x + k) (map (fun y => y + k) l)
  = map (fun y => y + k) (Np.insert_sorted x l).
Proof.
  induction l as [|y l IH]; simpl; [reflexivity|].
  rewrite Qle_bool_shift. destruct (Qle_bool x y); simpl; [reflexivity|].
  now rewrite IH.
Qed.

Lemma sort_shift k l :
  Np.sort (map (fun y => y + k) l) = map (fun y => y + k) (Np.sort l).
Proof.
  induction l as [|x l IH]; simpl; [reflexivity|].
  now rewrite IH, insert_sorted_shift.
Qed.

Lemma nth_map_shift k (s : list Q) i :
  (i < length s)%nat ->
  nth i (map (fun y => y + k) s) 0 = nth i s 0 + k.
Proof.
  intros Hi.
  rewrite (nth_indep _ 0 (0 + k)) by (rewrite length_map; exact Hi).
  apply (map_nth (fun y => y + k)).
Qed.

(** Adding a constant to every value adds it to every quantile. *)
Lemma quantile_shift k a q :
  a <> [] ->
  Np.quantile (map (fun y => y + k) a) q == Np.quantile a q + k.
Proof.
  intros Hne. unfold Np.quantile. rewrite sort_shift, length_map.
  unfold Np.at_index. rewrite !lerp_eq, length_map.
  assert (0 < length (Np.sort a))%nat as Hn.
  { rewrite sort_length. destruct a; simpl; [congruence|lia]. }
  rewrite !nth_map_shift by (apply clip_index_lt, Hn).
  ring.
Qed.

Lemma count_true_le (l1 l2 : list bool) :
  Forall2 (fun a b => a = true -> b = true) l1 l2 ->
  (Np.count_true l1 <= Np.count_true l2)%nat.
Proof.
  unfold Np.count_true. induction 1 as [|a b l1 l2 Hab _ IH]; simpl; [lia|].
  destruct a; simpl.
  - rewrite Hab by reflexivity. simpl. lia.
  - destruct b; simpl; lia.
Qed.

Lemma count_true_pos (l : list bool) : In true l -> (1 <= Np.count_true l)%nat.
Proof.
  unfold Np.count_true. induction l as [|b l IH]; simpl; [tauto|].
  intros [->|Hin]; simpl; [lia|].
  destruct b; simpl; [lia|]. apply IH, Hin.
Qed.

End NpShift.

(** ** The anomaly scorer *)

Section ScorerFacts.
Context `{TreeEnsemble}.
Local Open Scope Q_scope.

Ltac unfold_monad :=
  unfold mbind, mret, M_bind, M_ret, bind, ret, raise, lift, gets, modify in *.

Lemma as_floats_CFloat (l : list Q) : as_floats (map CFloat l) = Some l.
Proof.
  induction l as [|q l IH]; simpl; [reflexivity|]. now rewrite IH.
Qed.

Lemma is_true_cell_ge thr (l : list Q) :
  map is_true (map (cell_ge thr) (map CFloat l)) = map (Qle_bool thr) l.
Proof.
  induction l as [|q l IH]; simpl; [reflexivity|].
  rewrite IH. unfold cell_ge; simpl. now destruct (Qle_bool thr q).
Qed.

(** A seeded estimator does not look at the process-wide generator. *)
Lemma fit_seeded c s (g1 g2 : rng) X :
  Sklearn.fit {| Sklearn.contamination := c; Sklearn.random_state := Some s |} g1 X
  = Sklearn.fit {| Sklearn.contamination := c; Sklearn.random_state := Some s |} g2 X.
Proof. reflexivity. Qed.

(** [detect_anomalies] replaces the frame it is given by [scored_frame]
    of it and touches nothing else; when it raises, nothing changed. *)
Lemma detect_anomalies_run (w : World) (df : loc) (d : DataFrame) (c : Q) :
  frames w !! df = Some d ->
  Anomaly.detect_anomalies df c w
  = match Anomaly.scored_frame d c with
    | Ok d' => (Ok df, set_frames (<[df := d']> (frames w)) w)
    | Raise e => (Raise e, w)
    end.
Proof.
  intros Hd.
  unfold Anomaly.detect_anomalies, Anomaly.scored_frame, Anomaly.to_numpy2,
    Anomaly.getitem, Anomaly.setitem, Anomaly.deref, Anomaly.sk_fit.
  unfold_monad. rewrite Hd.
  destruct (columns d !! "amount") as [a|]; [|reflexivity].
  rewrite Hd.
  destruct (columns d !! "tx_per_account") as [b|]; [|reflexivity].
  destruct (as_floats a) as [xs|]; [|reflexivity].
  destruct (as_floats b) as [ys|]; [|reflexivity].
  rewrite (fit_seeded c 42%Z (np_random w) (RandomState 42)).
  destruct (Sklearn.fit _ _ _) as [iso|e]; [|reflexivity].
  rewrite Hd. simpl. rewrite lookup_insert_eq. simpl.
  rewrite lookup_insert_eq. simpl. rewrite lookup_insert_eq.
  f_equal. unfold set_frames; simpl. f_equal.
  apply insert_insert_eq.
Qed.

End ScorerFacts.

Section ScorerClaims.
Context `{TreeEnsemble}.
Local Open Scope Q_scope.

Lemma valid_contamination_iff c :
  Sklearn.valid_contamination c = true <-> 0 < c /\ c <= 1 # 2.
Proof.
  unfold Sklearn.valid_contamination, Np.Qltb.
  rewrite andb_true_iff, negb_true_iff, Qle_bool_iff. split.
  - intros [L U]. split; [apply Qle_bool_false, L|exact U].
  - intros [L U]. split; [|exact U].
    destruct (Qle_bool c 0) eqn:E; [|reflexivity].
    apply Qle_bool_iff in E. lra.
Qed.

Lemma valid_contamination_false c :
  ~ (0 < c /\ c <= 1 # 2) -> Sklearn.valid_contamination c = false.
Proof.
  intros N. destruct (Sklearn.valid_contamination c) eqn:E; [|reflexivity].
  apply valid_contamination_iff in E. contradiction.
Qed.

Lemma fit_ok c (g : rng) X :
  Sklearn.valid_contamination c = true -> X <> [] ->
  Sklearn.fit {| Sklearn.contamination := c; Sklearn.random_state := Some 42%Z |} g X
  = Ok (Anomaly.fitted c X).
Proof.
  intros Hc HX. unfold Sklearn.fit. simpl. rewrite Hc. simpl.
  destruct X as [|x X]; [congruence|]. reflexivity.
Qed.

Lemma fit_invalid c rs (g : rng) X :
  Sklearn.valid_contamination c = false ->
  Sklearn.fit {| Sklearn.contamination := c; Sklearn.random_state := rs |} g X
  = Raise InvalidParameterError.
Proof. intros Hc. unfold Sklearn.fit. simpl. now rewrite Hc. Qed.

Lemma scored_frame_matrix d X c :
  Anomaly.design_matrix d = Some X ->
  Anomaly.scored_frame d c
  = match Sklearn.fit {| Sklearn.contamination := c;
                         Sklearn.random_state := Some 42%Z |}
                      (RandomState 42) X with
    | Raise e => Raise e
    | Ok iso =>
        let scores := map Qopp (Sklearn.decision_function iso X) in
        Ok {| nrows := nrows d;
              columns :=
                <["is_anomaly" :=
                    map (cell_ge (Np.quantile scores (1 - c))) (map CFloat scores)]>
                  (<["anomaly_score" := map CFloat scores]> (columns d)) |}
    end.
Proof.
  unfold Anomaly.design_matrix, Anomaly.scored_frame. intros HX.
  destruct (columns d !! "amount") as [a|]; [|discriminate].
  destruct (columns d !! "tx_per_account") as [b|]; [|discriminate].
  simpl in HX.
  destruct (as_floats a) as [xs|]; [|discriminate].
  destruct (as_floats b) as [ys|]; [|discriminate].
  simpl in HX. injection HX as <-. reflexivity.
Qed.

Lemma scores_shift (iso : Sklearn.FittedIsolationForest) X :
  map Qopp (Sklearn.decision_function iso X)
  = map (fun y => y + Sklearn.offset_ iso)
        (map Qopp (Sklearn.score_samples (Sklearn.estimators_ iso) X)).
Proof.
  unfold Sklearn.decision_function. rewrite !map_map. apply map_ext.
  intros [n1 d1].
  destruct (Sklearn.offset_ iso) as [n2 d2].
  unfold Qopp, Qminus, Qplus. simpl. f_equal. lia.
Qed.

Lemma flags_shift (r : list Q) k q :
  r <> [] ->
  map (Qle_bool (Np.quantile (map (fun y => y + k) r) q)) (map (fun y => y + k) r)
  = map (Qle_bool (Np.quantile r q)) r.
Proof.
  intros Hr. rewrite map_map. apply map_ext. intros y.
  rewrite (Qle_bool_compat _ (Np.quantile r q + k) (y + k) (y + k));
    [apply Qle_bool_shift|apply quantile_shift, Hr|reflexivity].
Qed.

Lemma raw_scores_nonempty X : X <> [] -> Anomaly.raw_scores X <> [].
Proof. destruct X; [congruence|discriminate]. Qed.

(** On a valid call the frame is scored, and the flags are those of the
    raw scores against their own quantile: the offset of the forest, the
    only part of the scores that depends on the contamination, cancels. *)
Lemma scored_frame_valid d X c :
  Anomaly.design_matrix d = Some X -> X <> [] ->
  Sklearn.valid_contamination c = true ->
  exists d',
    Anomaly.scored_frame d c = Ok d'
    /\ nrows d' = nrows d
    /\ Anomaly.anomaly_score d' = map Qopp (Sklearn.decision_function (Anomaly.fitted c X) X)
    /\ Anomaly.is_anomaly d'
       = map (Qle_bool (Np.quantile (map Qopp (Sklearn.decision_function (Anomaly.fitted c X) X))
                                    (1 - c)))
             (map Qopp (Sklearn.decision_function (Anomaly.fitted c X) X))
    /\ Anomaly.is_anomaly d'
       = map (Qle_bool (Np.quantile (Anomaly.raw_scores X) (1 - c))) (Anomaly.raw_scores X).
Proof.
  intros HX Hne Hc. rewrite (scored_frame_matrix d X c HX), (fit_ok c _ X Hc Hne).
  eexists. split; [reflexivity|]. split; [reflexivity|].
  assert (Anomaly.is_anomaly
            {| nrows := nrows d;
               columns :=
                 <["is_anomaly" :=
                     map (cell_ge (Np.quantile
                                     (map Qopp (Sklearn.decision_function (Anomaly.fitted c X) X))
                                     (1 - c)))
                         (map CFloat (map Qopp (Sklearn.decision_function (Anomaly.fitted c X) X)))]>
                   (<["anomaly_score" :=
                        map CFloat (map Qopp (Sklearn.decision_function (Anomaly.fitted c X) X))]>
                      (columns d)) |}
          = map (Qle_bool (Np.quantile (map Qopp (Sklearn.decision_function (Anomaly.fitted c X) X))
                                       (1 - c)))
                (map Qopp (Sklearn.decision_function (Anomaly.fitted c X) X))) as Hflags.
  { unfold Anomaly.is_anomaly. simpl. rewrite lookup_insert_eq.
    apply is_true_cell_ge. }
  split; [|split; [exact Hflags|]].
  - unfold Anomaly.anomaly_score. simpl.
    rewrite lookup_insert_ne by discriminate. rewrite lookup_insert_eq.
    now rewrite as_floats_CFloat.
  - rewrite Hflags, scores_shift. apply flags_shift, raw_scores_nonempty, Hne.
Qed.

Lemma flags_mono (r : list Q) q1 q2 :
  q2 <= q1 ->
  Forall2 (fun a b => a = true -> b = true)
          (map (Qle_bool (Np.quantile r q1)) r)
          (map (Qle_bool (Np.quantile r q2)) r).
Proof.
  intros Hq. pose proof (quantile_mono r q2 q1 Hq) as Hm.
  generalize (Np.quantile r q1) (Np.quantile r q2) Hm. clear Hm.
  intros t1 t2 Ht.
  induction r as [|y r IH]; simpl; [constructor|].
  constructor; [|exact IH].
  rewrite !Qle_bool_iff. lra.
Qed.

Lemma flags_top (r : list Q) q :
  r <> [] -> In true (map (Qle_bool (Np.quantile r q)) r).
Proof.
  intros Hr. apply in_map_iff.
  exists (nth (length r - 1) (Np.sort r) 0). split.
  - apply Qle_bool_iff, quantile_le_max, Hr.
  - apply sort_In, nth_In. rewrite sort_length.
    destruct r; simpl; [congruence|lia].
Qed.

End ScorerClaims.

Section ScorerTheorems.
Context `{TreeEnsemble}.
Local Open Scope Q_scope.

Lemma detect_anomalies_valid (w : World) (df : loc) (d : DataFrame) X c :
  frames w !! df = Some d ->
  Anomaly.design_matrix d = Some X -> X <> [] ->
  0 < c -> c <= 1 # 2 ->
  exists d',
    Anomaly.detect_anomalies df c w
    = (Ok df, set_frames (<[df := d']> (frames w)) w)
    /\ Anomaly.scored_frame d c = Ok d'
    /\ Anomaly.anomaly_score d'
       = map Qopp (Sklearn.decision_function (Anomaly.fitted c X) X)
    /\ Anomaly.is_anomaly d'
       = map (Qle_bool
                (Np.quantile
                   (map Qopp (Sklearn.decision_function (Anomaly.fitted c X) X))
                   (1 - c)))
             (map Qopp (Sklearn.decision_function (Anomaly.fitted c X) X))
    /\ Anomaly.is_anomaly d'
       = map (Qle_bool (Np.quantile (Anomaly.raw_scores X) (1 - c)))
             (Anomaly.raw_scores X).
Proof.
  intros Hd HX Hne Hc0 Hc1.
  assert (Sklearn.valid_contamination c = true) as Hc
      by (apply valid_contamination_iff; split; assumption).
  destruct (scored_frame_valid d X c HX Hne Hc) as (d' & Hs & _ & Hsc & Hfl & Hraw).
  exists d'. rewrite (detect_anomalies_run w df d c Hd), Hs. auto.
Qed.

(** C1. On a non-empty transaction set and a contamination [c] the
    estimator accepts, [detect_anomalies] fits the forest, stores as
    [anomaly_score] the negation of its decision function (so a higher
    score is a more anomalous point), and stores as [is_anomaly], for
    each point, whether its score is greater than or equal to the
    [(1 - c)]-quantile of the scores; points that tie with the threshold
    are flagged. *)
Theorem C1_scores_threshold_flags (w : World) (df : loc) (d : DataFrame) X c :
  frames w !! df = Some d ->
  Anomaly.design_matrix d = Some X -> X <> [] ->
  0 < c -> c <= 1 # 2 ->
  exists iso d',
    Sklearn.fit {| Sklearn.contamination := c;
                   Sklearn.random_state := Some 42%Z |} (np_random w) X = Ok iso
    /\ Anomaly.detect_anomalies df c w
       = (Ok df, set_frames (<[df := d']> (frames w)) w)
    /\ let scores := map Qopp (Sklearn.decision_function iso X) in
       let threshold := Np.quantile scores (1 - c) in
       Anomaly.anomaly_score d' = scores
       /\ Anomaly.is_anomaly d' = map (fun s => Qle_bool threshold s) scores
       /\ (forall i s, scores !! i = Some s ->
             (Anomaly.is_anomaly d' !! i = Some true <-> threshold <= s)).
Proof.
  intros Hd HX Hne Hc0 Hc1.
  destruct (detect_anomalies_valid w df d X c Hd HX Hne Hc0 Hc1)
    as (d' & Hrun & _ & Hsc & Hfl & _).
  exists (Anomaly.fitted c X), d'. split.
  - apply fit_ok; [apply valid_contamination_iff; split; assumption|exact Hne].
  - split; [exact Hrun|]. cbv zeta. split; [exact Hsc|]. split; [exact Hfl|].
    intros i s Hi. rewrite Hfl, list_lookup_fmap, Hi. simpl.
    rewrite <- Qle_bool_iff. split; [now intros [= ->]|now intros ->].
Qed.

(** C2. With the data held fixed, the number of flagged transactions
    does not decrease when the contamination increases within the valid
    range. *)
Theorem C2_flagged_count_monotone (w : World) (df : loc) (d : DataFrame) X c1 c2 :
  frames w !! df = Some d ->
  Anomaly.design_matrix d = Some X -> X <> [] ->
  0 < c1 -> c1 <= c2 -> c2 <= 1 # 2 ->
  exists d1 d2,
    Anomaly.detect_anomalies df c1 w
    = (Ok df, set_frames (<[df := d1]> (frames w)) w)
    /\ Anomaly.detect_anomalies df c2 w
       = (Ok df, set_frames (<[df := d2]> (frames w)) w)
    /\ (Anomaly.n_anomalies d1 <= Anomaly.n_anomalies d2)%nat.
Proof.
  intros Hd HX Hne H1 H12 H2.
  destruct (detect_anomalies_valid w df d X c1 Hd HX Hne ltac:(lra) ltac:(lra))
    as (d1 & Hrun1 & _ & _ & _ & Hraw1).
  destruct (detect_anomalies_valid w df d X c2 Hd HX Hne ltac:(lra) ltac:(lra))
    as (d2 & Hrun2 & _ & _ & _ & Hraw2).
  exists d1, d2. split; [exact Hrun1|]. split; [exact Hrun2|].
  unfold Anomaly.n_anomalies. rewrite Hraw1, Hraw2.
  apply count_true_le, flags_mono. lra.
Qed.

(** C6. The score vector is a function of the transaction set and the
    contamination alone: two runs on the same frame value give the same
    scores, or raise the same exception, whatever the rest of the process
    state is (the process-wide generator, the clock, other frames),
    because the forest is seeded with the constant 42. *)
Theorem C6_scores_deterministic (w1 w2 : World) (df1 df2 : loc) (d : DataFrame) c :
  frames w1 !! df1 = Some d ->
  frames w2 !! df2 = Some d ->
  Anomaly.score_vector df1 c w1 = Anomaly.score_vector df2 c w2.
Proof.
  intros Hd1 Hd2. unfold Anomaly.score_vector.
  rewrite (detect_anomalies_run w1 df1 d c Hd1),
          (detect_anomalies_run w2 df2 d c Hd2).
  destruct (Anomaly.scored_frame d c) as [d'|e]; [|reflexivity].
  simpl. now rewrite !lookup_insert_eq.
Qed.

(** C9. [detect_anomalies] returns the reference it was given and
    updates that frame object in place: afterwards the object has the
    columns [anomaly_score] and [is_anomaly], the same number of rows and
    every other column as before; no other frame and no other part of
    the process state changes. *)
Theorem C9_mutates_argument_in_place (w w' : World) (df r : loc) (d : DataFrame) c :
  frames w !! df = Some d ->
  Anomaly.detect_anomalies df c w = (Ok r, w') ->
  r = df
  /\ exists d',
       frames w' = <[df := d']> (frames w)
       /\ nrows d' = nrows d
       /\ is_Some (columns d' !! "anomaly_score")
       /\ is_Some (columns d' !! "is_anomaly")
       /\ (forall k, k <> "anomaly_score" -> k <> "is_anomaly" ->
                     columns d' !! k = columns d !! k)
       /\ (forall l, l <> df -> frames w' !! l = frames w !! l)
       /\ w' = set_frames (frames w') w.
Proof.
  intros Hd Hrun. rewrite (detect_anomalies_run w df d c Hd) in Hrun.
  unfold Anomaly.scored_frame in Hrun.
  destruct (columns d !! "amount") as [a|]; [|discriminate].
  destruct (columns d !! "tx_per_account") as [b|]; [|discriminate].
  destruct (as_floats a) as [xs|]; [|discriminate].
  destruct (as_floats b) as [ys|]; [|discriminate].
  destruct (Sklearn.fit _ _ _) as [iso|e]; [|discriminate].
  injection Hrun as <- <-. split; [reflexivity|].
  eexists. split; [reflexivity|]. simpl.
  split; [reflexivity|].
  split; [rewrite lookup_insert_ne by discriminate; rewrite lookup_insert_eq; eauto|].
  split; [rewrite lookup_insert_eq; eauto|].
  split; [|split].
  - intros k K1 K2. now rewrite !lookup_insert_ne by congruence.
  - intros l Hl. now rewrite lookup_insert_ne by congruence.
  - reflexivity.
Qed.

(** A caller that passes a copy keeps its own frame: after
    [detect_anomalies(df.copy(), c)] the object [df] is as it was. *)
Lemma copy_protects_original (w w' : World) (df r : loc) (d : DataFrame) c :
  frames w !! df = Some d ->
  (df' ← Anomaly.copy df; Anomaly.detect_anomalies df' c) w = (Ok r, w') ->
  r <> df /\ frames w' !! df = Some d.
Proof.
  intros Hd. unfold Anomaly.copy, Anomaly.alloc, Anomaly.deref.
  unfold mbind, M_bind, bind. rewrite Hd. cbv zeta. intros Hrun.
  remember (fresh (dom (frames w))) as l eqn:El.
  assert (l <> df) as Hl.
  { intros E. apply (is_fresh (dom (frames w))). rewrite <- El, E.
    apply elem_of_dom. rewrite Hd. eauto. }
  rewrite (detect_anomalies_run _ l d c) in Hrun
    by (simpl; apply lookup_insert_eq).
  destruct (Anomaly.scored_frame d c) as [d'|e]; [|discriminate].
  injection Hrun as <- <-. split; [exact Hl|]. simpl.
  rewrite !lookup_insert_ne by exact Hl. exact Hd.
Qed.

(** C10, as the code has it. For a non-empty transaction set and a
    contamination in (0, 0.5], the range the estimator accepts,
    [detect_anomalies] flags at least one transaction: the largest score
    is never below the [(1 - c)]-quantile of the scores. *)
Theorem C10_some_transaction_flagged (w : World) (df : loc) (d : DataFrame) X c :
  frames w !! df = Some d ->
  Anomaly.design_matrix d = Some X -> X <> [] ->
  0 < c -> c <= 1 # 2 ->
  exists d',
    Anomaly.detect_anomalies df c w
    = (Ok df, set_frames (<[df := d']> (frames w)) w)
    /\ (1 <= Anomaly.n_anomalies d')%nat.
Proof.
  intros Hd HX Hne Hc0 Hc1.
  destruct (detect_anomalies_valid w df d X c Hd HX Hne Hc0 Hc1)
    as (d' & Hrun & _ & _ & _ & Hraw).
  exists d'. split; [exact Hrun|].
  unfold Anomaly.n_anomalies. rewrite Hraw.
  apply count_true_pos, flags_top, raw_scores_nonempty, Hne.
Qed.

End ScorerTheorems.

Section EndpointTheorems.
Context `{TreeEnsemble} `{Classifiers} `{Platform}.
Local Open Scope Q_scope.

Lemma as_floats_map_CFloat {A} (f : A -> Q) (l : list A) :
  as_floats (map (fun t => CFloat (f t)) l) = Some (map f l).
Proof.
  induction l as [|x l IH]; simpl; [reflexivity|]. now rewrite IH.
Qed.

Lemma as_floats_map_CInt {A} (f : A -> Z) (l : list A) :
  as_floats (map (fun t => CInt (f t)) l) = Some (map (fun t => inject_Z (f t)) l).
Proof.
  induction l as [|x l IH]; simpl; [reflexivity|]. now rewrite IH.
Qed.

Lemma combine_map_same {A B C} (f : A -> B) (g : A -> C) (l : list A) :
  combine (map f l) (map g l) = map (fun t => (f t, g t)) l.
Proof.
  induction l as [|x l IH]; simpl; [reflexivity|]. now rewrite IH.
Qed.

(** The matrix the scorer reads off the loaded frame: one row
    [amount, tx_per_account] for each transaction. *)
Lemma design_matrix_tx_frame (txs : list Tx.t) :
  Anomaly.design_matrix (Anomaly.tx_frame txs)
  = Some (map (fun t => (Tx.amount t, inject_Z (Anomaly.tx_per_account txs t))) txs).
Proof.
  unfold Anomaly.design_matrix, Anomaly.tx_frame. simpl.
  repeat (rewrite lookup_insert_ne by discriminate).
  rewrite lookup_insert_eq. simpl.
  repeat (rewrite lookup_insert_ne by discriminate).
  rewrite lookup_insert_eq. simpl.
  rewrite as_floats_map_CFloat. simpl.
  rewrite (as_floats_map_CInt (Anomaly.tx_per_account txs)). simpl.
  now rewrite combine_map_same.
Qed.

Lemma detect_anomalies_invalid (w : World) (df : loc) (d : DataFrame) X c :
  frames w !! df = Some d ->
  Anomaly.design_matrix d = Some X ->
  ~ (0 < c /\ c <= 1 # 2) ->
  Anomaly.detect_anomalies df c w = (Raise InvalidParameterError, w).
Proof.
  intros Hd HX Hc.
  rewrite (detect_anomalies_run w df d c Hd), (scored_frame_matrix d X c HX).
  now rewrite (fit_invalid c _ _ X (valid_contamination_false c Hc)).
Qed.

(** C3. A contamination outside (0, 0.5] makes the scorer raise
    [InvalidParameterError]: [detect_anomalies] raises it on every frame
    that has the two feature columns and leaves the process state as it
    was, and so does the [detect_anomaly] endpoint, whatever the
    transactions table holds. *)
Theorem C3_invalid_contamination_raises (c : Q) :
  ~ (0 < c /\ c <= 1 # 2) ->
  (forall (w : World) (df : loc) (d : DataFrame) X,
      frames w !! df = Some d ->
      Anomaly.design_matrix d = Some X ->
      Anomaly.detect_anomalies df c w = (Raise InvalidParameterError, w))
  /\ (forall w : World, fst (App.detect_anomaly c w) = Raise InvalidParameterError).
Proof.
  intros Hc. split.
  - intros w df d X Hd HX. now apply (detect_anomalies_invalid w df d X c).
  - intros w. unfold App.detect_anomaly, Anomaly.load_data, Anomaly.copy,
      Anomaly.alloc, Anomaly.deref.
    unfold mbind, M_bind, bind, gets. cbv zeta. simpl.
    rewrite lookup_insert_eq.
    erewrite (detect_anomalies_invalid _ _ (Anomaly.tx_frame (fact_transactions (db w))));
      [reflexivity| |apply design_matrix_tx_frame|exact Hc].
    simpl. apply lookup_insert_eq.
Qed.

End EndpointTheorems.

(** ** Group-by aggregation *)

Section PdFacts.

Lemma insert_by_In {A} (leb : A -> A -> bool) x y (l : list A) :
  In y (Pd.insert_by leb x l) <-> y = x \/ In y l.
Proof.
  induction l as [|z l IH]; simpl.
  - intuition.
  - destruct (leb x z); simpl; rewrite ?IH; intuition.
Qed.

Lemma sort_by_In {A} (leb : A -> A -> bool) y (l : list A) :
  In y (Pd.sort_by leb l) <-> In y l.
Proof.
  induction l as [|x l IH]; simpl; [reflexivity|].
  rewrite insert_by_In, IH. intuition.
Qed.

Lemma insert_by_filter_length {A} (leb : A -> A -> bool) (p : A -> bool) x l :
  length (List.filter p (Pd.insert_by leb x l))
  = length (List.filter p (x :: l)).
Proof.
  induction l as [|z l IH]; simpl; [reflexivity|].
  destruct (leb x z); simpl; [reflexivity|].
  simpl in IH. destruct (p z), (p x); simpl in *; lia.
Qed.

Lemma sort_by_filter_length {A} (leb : A -> A -> bool) (p : A -> bool) l :
  length (List.filter p (Pd.sort_by leb l)) = length (List.filter p l).
Proof.
  induction l as [|x l IH]; simpl; [reflexivity|].
  rewrite insert_by_filter_length. simpl. destruct (p x); simpl; lia.
Qed.

Lemma insert_unique_In k y l :
  In y (Pd.insert_unique k l) <-> y = k \/ In y l.
Proof.
  induction l as [|z l IH]; simpl.
  - intuition.
  - destruct (k <? z)%Z eqn:E1; simpl; [intuition|].
    destruct (k =? z)%Z eqn:E2; simpl.
    + apply Z.eqb_eq in E2. subst. intuition.
    + rewrite IH. intuition.
Qed.

Lemma unique_sorted_In y l : In y (Pd.unique_sorted l) <-> In y l.
Proof.
  unfold Pd.unique_sorted. induction l as [|x l IH]; simpl; [reflexivity|].
  rewrite insert_unique_In, IH. intuition.
Qed.

Lemma insert_unique_increasing k l :
  StronglySorted Z.lt l -> StronglySorted Z.lt (Pd.insert_unique k l).
Proof.
  induction 1 as [|z l Hs IH Hall]; simpl.
  - constructor; constructor.
  - destruct (k <? z)%Z eqn:E1.
    + apply Z.ltb_lt in E1. constructor; [constructor; assumption|].
      constructor; [exact E1|].
      eapply List.Forall_impl; [|exact Hall]. intros a Ha. simpl in Ha. lia.
    + destruct (k =? z)%Z eqn:E2; [constructor; assumption|].
      apply Z.ltb_ge in E1. apply Z.eqb_neq in E2.
      constructor; [exact IH|].
      apply List.Forall_forall. intros a Ha. apply insert_unique_In in Ha.
      destruct Ha as [->|Ha]; [lia|].
      rewrite List.Forall_forall in Hall. apply Hall, Ha.
Qed.

Lemma unique_sorted_increasing l : StronglySorted Z.lt (Pd.unique_sorted l).
Proof.
  unfold Pd.unique_sorted. induction l as [|x l IH]; simpl; [constructor|].
  apply insert_unique_increasing, IH.
Qed.

Lemma increasing_NoDup (l : list Z) : StronglySorted Z.lt l -> List.NoDup l.
Proof.
  induction 1 as [|z l Hs IH Hall]; constructor; [|exact IH].
  intros Hin. rewrite List.Forall_forall in Hall. specialize (Hall z Hin). lia.
Qed.

(** One group for each distinct key, and no key twice. *)
Lemma groupby_keys {A} (key : A -> Z) (l : list A) :
  map fst (Pd.groupby key l) = Pd.unique_sorted (map key l).
Proof.
  unfold Pd.groupby. rewrite map_map. simpl. apply map_id.
Qed.

Lemma groupby_In {A} (key : A -> Z) (l : list A) k g :
  In (k, g) (Pd.groupby key l) ->
  g = List.filter (fun x => (key x =? k)%Z) l /\ g <> [].
Proof.
  unfold Pd.groupby. intros Hin. apply in_map_iff in Hin.
  destruct Hin as (k' & [= <- <-] & Hk). split; [reflexivity|].
  apply unique_sorted_In, in_map_iff in Hk. destruct Hk as (x & Hx & Hin).
  intros E. assert (In x (List.filter (fun x => (key x =? k')%Z) l)) as Hf.
  { apply filter_In. split; [exact Hin|]. now apply Z.eqb_eq. }
  rewrite E in Hf. exact Hf.
Qed.

Lemma groupby_key_In {A} (key : A -> Z) (l : list A) k :
  List.filter (fun x => (key x =? k)%Z) l <> [] ->
  In (k, List.filter (fun x => (key x =? k)%Z) l) (Pd.groupby key l).
Proof.
  intros Hne. unfold Pd.groupby. apply in_map_iff. exists k.
  split; [reflexivity|]. apply unique_sorted_In, in_map_iff.
  destruct (List.filter _ l) as [|x g] eqn:E; [congruence|].
  assert (In x (List.filter (fun x => (key x =? k)%Z) l)) as Hf
      by (rewrite E; left; reflexivity).
  apply filter_In in Hf. destruct Hf as [Hin Hk]. apply Z.eqb_eq in Hk.
  exists x. split; assumption.
Qed.

Lemma true_divide_zero n : (0 < n)%Z -> true_divide n 0 = PInf.
Proof.
  intros Hn. unfold true_divide. simpl.
  destruct (0 <? n)%Z eqn:E; [reflexivity|]. apply Z.ltb_ge in E. lia.
Qed.

End PdFacts.

(** ** The default-scoring aggregator *)

Section DefaultFeatureTheorems.
Context `{TreeEnsemble} `{Classifiers} `{Platform}.
Local Open Scope Q_scope.

Lemma std_single (x : Q) : DefaultFeatures.std [x] = NaN.
Proof. reflexivity. Qed.

Lemma avg_delay_single (t : Z) : DefaultFeatures.avg_delay [t] = NaN.
Proof. reflexivity. Qed.

Lemma aggregate_single total_days k (g : list Tx.t) :
  length g = 1%nat ->
  DefaultFeatures.std_amount (DefaultFeatures.aggregate total_days k g) = NaN
  /\ DefaultFeatures.avg_delay_days (DefaultFeatures.aggregate total_days k g) = NaN.
Proof.
  destruct g as [|t [|u g]]; try discriminate. intros _. split; reflexivity.
Qed.

(** Every row of [features] is the aggregate of a non-empty group. *)
Lemma features_In df_tx df_time f :
  In f (DefaultFeatures.features df_tx df_time) ->
  exists k g,
    f = DefaultFeatures.aggregate (Pd.nunique df_time) k g
    /\ g <> []
    /\ g = List.filter (fun t => (Tx.account_id t =? k)%Z)
                       (Pd.sort_by DefaultFeatures.by_account_and_date df_tx).
Proof.
  unfold DefaultFeatures.features. intros Hin. apply in_map_iff in Hin.
  destruct Hin as ([k g] & <- & Hkg). apply groupby_In in Hkg.
  destruct Hkg as [Hg Hne]. exists k, g. simpl. auto.
Qed.

Lemma features_nonempty df_tx df_time :
  df_tx <> [] -> DefaultFeatures.features df_tx df_time <> [].
Proof.
  intros Hne E. destruct df_tx as [|t l]; [congruence|].
  assert (In (Tx.account_id t)
             (map fst (Pd.groupby Tx.account_id
                         (Pd.sort_by DefaultFeatures.by_account_and_date (t :: l)))))
    as Hin.
  { rewrite groupby_keys. apply unique_sorted_In, in_map, sort_by_In.
    left. reflexivity. }
  unfold DefaultFeatures.features in E. apply map_eq_nil in E.
  rewrite E in Hin. exact Hin.
Qed.

Lemma count_pos {A} (g : list A) : g <> [] -> (0 < Pd.count g)%Z.
Proof. destruct g; [congruence|]. unfold Pd.count. simpl length. lia. Qed.

Lemma fit_transform_inf (X : list (list fnum)) :
  X <> [] -> existsb (existsb is_inf) X = true ->
  Imputer.fit_transform X = Raise ValueError.
Proof.
  intros Hne Hinf. unfold Imputer.fit_transform.
  destruct X; [congruence|]. simpl length. simpl Nat.eqb. cbv iota.
  now rewrite Hinf.
Qed.

Lemma X_rows_inf (fs : list DefaultFeatures.t) :
  fs <> [] ->
  List.Forall (fun f => DefaultFeatures.tx_count_per_day f = PInf) fs ->
  existsb (existsb is_inf) (map DefaultFeatures.X_row fs) = true.
Proof.
  intros Hne Hall. destruct fs as [|f fs]; [congruence|].
  apply List.Forall_inv in Hall. simpl. rewrite Hall. simpl.
  now rewrite !orb_true_r.
Qed.

(** C4, as the code has it. When the time dimension has no distinct
    day, the division [tx_count / total_days] raises nothing: for a
    non-empty transaction set [features] returns a row for every account
    and [tx_count_per_day] is +Infinity in each of them.  The infinite
    value leaves the aggregation; the first consumer that refuses it is
    the mean imputer of the training script and of the pipeline, with
    [ValueError]. *)
Theorem C4_zero_day_span_gives_infinity (df_tx : list Tx.t) (df_time : list Z) :
  df_tx <> [] ->
  Pd.nunique df_time = 0%Z ->
  DefaultFeatures.features df_tx df_time <> []
  /\ List.Forall (fun f => DefaultFeatures.tx_count_per_day f = PInf)
                 (DefaultFeatures.features df_tx df_time)
  /\ ModelDefault.X_imputed df_tx df_time = Raise ValueError
  /\ (forall w : World,
        fact_transactions (db w) = df_tx -> dim_time (db w) = df_time ->
        Pipeline.default_scoring w = (Raise ValueError, w)).
Proof.
  intros Hne Hdays.
  pose proof (features_nonempty df_tx df_time Hne) as Hfs.
  assert (List.Forall (fun f => DefaultFeatures.tx_count_per_day f = PInf)
                      (DefaultFeatures.features df_tx df_time)) as Hall.
  { apply List.Forall_forall. intros f Hf.
    destruct (features_In _ _ _ Hf) as (k & g & -> & Hg & _).
    simpl. rewrite Hdays. apply true_divide_zero, count_pos, Hg. }
  assert (Imputer.fit_transform
            (map DefaultFeatures.X_row (DefaultFeatures.features df_tx df_time))
          = Raise ValueError) as Himp.
  { apply fit_transform_inf; [|apply X_rows_inf; assumption].
    intros E. apply map_eq_nil in E. contradiction. }
  split; [exact Hfs|]. split; [exact Hall|]. split.
  - unfold ModelDefault.X_imputed. now rewrite Himp.
  - intros w Htx Htime. unfold Pipeline.default_scoring.
    unfold mbind, M_bind, bind, gets, lift. rewrite Htx, Htime, Himp. reflexivity.
Qed.

(** The number of rows of an account is the same before and after the
    sort. *)
Lemma group_length df_tx k :
  length (List.filter (fun t => (Tx.account_id t =? k)%Z)
                      (Pd.sort_by DefaultFeatures.by_account_and_date df_tx))
  = length (List.filter (fun t => (Tx.account_id t =? k)%Z) df_tx).
Proof. apply sort_by_filter_length. Qed.

(** In [features], an account with exactly one transaction has a null
    standard deviation and a null average delay. *)
Lemma features_single_transaction df_tx df_time k :
  length (List.filter (fun t => (Tx.account_id t =? k)%Z) df_tx) = 1%nat ->
  exists f,
    In f (DefaultFeatures.features df_tx df_time)
    /\ DefaultFeatures.account_id f = k
    /\ DefaultFeatures.tx_count f = 1%Z
    /\ DefaultFeatures.std_amount f = NaN
    /\ DefaultFeatures.avg_delay_days f = NaN.
Proof.
  intros Hone. rewrite <- group_length in Hone.
  set (g := List.filter (fun t => (Tx.account_id t =? k)%Z)
                        (Pd.sort_by DefaultFeatures.by_account_and_date df_tx)) in *.
  exists (DefaultFeatures.aggregate (Pd.nunique df_time) k g).
  split.
  - unfold DefaultFeatures.features. apply in_map_iff. exists (k, g).
    split; [reflexivity|]. apply groupby_key_In. fold g.
    destruct g; [discriminate|discriminate].
  - split; [reflexivity|]. split; [simpl; unfold Pd.count; now rewrite Hone|].
    apply aggregate_single, Hone.
Qed.

(** The row [score_default] builds for an account with exactly one
    transaction has the same two nulls. *)
Lemma default_row_single (df : list Tx.t) total_days :
  length df = 1%nat ->
  nth 1 (App.default_row df total_days) (Fin 0) = NaN
  /\ nth 3 (App.default_row df total_days) (Fin 0) = NaN.
Proof.
  destruct df as [|t [|u df]]; try discriminate. intros _. split; reflexivity.
Qed.

(** When no entry is infinite and each of the four columns has an
    observed value, the imputer keeps the observed entries and puts the
    mean of its column in the place of every null. *)
Lemma fit_transform_imputes (X : list (list fnum)) m0 m1 m2 m3 :
  X <> [] ->
  List.Forall (fun r => length r = 4%nat) X ->
  existsb (existsb is_inf) X = false ->
  Imputer.statistic 0 X = Some m0 -> Imputer.statistic 1 X = Some m1 ->
  Imputer.statistic 2 X = Some m2 -> Imputer.statistic 3 X = Some m3 ->
  Imputer.fit_transform X
  = Ok (map (fun r => [Imputer.impute m0 (nth 0 r NaN); Imputer.impute m1 (nth 1 r NaN);
                       Imputer.impute m2 (nth 2 r NaN); Imputer.impute m3 (nth 3 r NaN)]) X).
Proof.
  intros Hne Hlen Hinf S0 S1 S2 S3. unfold Imputer.fit_transform.
  destruct X as [|r0 X0] eqn:EX; [congruence|]. rewrite <- EX in *.
  assert ((length X =? 0)%nat = false) as -> by (rewrite EX; reflexivity).
  rewrite Hinf. f_equal. apply map_ext. intros r.
  unfold Imputer.transform_row.
  assert (Imputer.n_features X = 4%nat) as ->.
  { rewrite EX in *. simpl. now apply List.Forall_inv in Hlen. }
  simpl. rewrite S0, S1, S2, S3. reflexivity.
Qed.

End DefaultFeatureTheorems.

Section SingleTransactionTheorem.
Context `{TreeEnsemble} `{Classifiers} `{Platform}.
Local Open Scope Q_scope.

Lemma X_rows_length (fs : list DefaultFeatures.t) :
  List.Forall (fun r : list fnum => length r = 4%nat) (map DefaultFeatures.X_row fs).
Proof.
  apply List.Forall_forall. intros r Hr. apply in_map_iff in Hr.
  now destruct Hr as (f & <- & _).
Qed.

(** C5, as the code has it. An account with exactly one transaction has
    a null [std_amount] and a null [avg_delay_days], not zeros, both in
    [features] and in the row [score_default] builds.  In the training
    script and in the pipeline the feature matrix then goes through the
    mean imputer: when no entry is infinite and every column has at least
    one observed value, the two nulls of that account are replaced by the
    means of their columns over the whole matrix. *)
Theorem C5_single_transaction_nulls_imputed
        (df_tx : list Tx.t) (df_time : list Z) (k : Z) :
  length (List.filter (fun t => (Tx.account_id t =? k)%Z) df_tx) = 1%nat ->
  exists f,
    In f (DefaultFeatures.features df_tx df_time)
    /\ DefaultFeatures.account_id f = k
    /\ DefaultFeatures.std_amount f = NaN
    /\ DefaultFeatures.avg_delay_days f = NaN
    /\ (let df := Pd.sort_by App.by_date
                    (List.filter (fun t => (Tx.account_id t =? k)%Z) df_tx) in
        nth 1 (App.default_row df (Pd.nunique df_time)) (Fin 0) = NaN
        /\ nth 3 (App.default_row df (Pd.nunique df_time)) (Fin 0) = NaN)
    /\ (let X := map DefaultFeatures.X_row (DefaultFeatures.features df_tx df_time) in
        forall m0 m1 m2 m3,
          existsb (existsb is_inf) X = false ->
          Imputer.statistic 0 X = Some m0 -> Imputer.statistic 1 X = Some m1 ->
          Imputer.statistic 2 X = Some m2 -> Imputer.statistic 3 X = Some m3 ->
          exists rows,
            Imputer.fit_transform X = Ok rows
            /\ ModelDefault.X_imputed df_tx df_time = Ok rows
            /\ length rows = length (DefaultFeatures.features df_tx df_time)
            /\ In [Imputer.impute m0 (DefaultFeatures.avg_amount f); m1;
                   Imputer.impute m2 (DefaultFeatures.tx_count_per_day f); m3]
                  rows).
Proof.
  intros Hone.
  destruct (features_single_transaction df_tx df_time k Hone)
    as (f & Hin & Hk & _ & Hstd & Hdelay).
  exists f. repeat (split; [assumption|]). split.
  - cbv zeta. apply default_row_single.
    clear - Hone.
    assert (forall {A} (leb : A -> A -> bool) l,
               length (Pd.sort_by leb l) = length l) as Hlen.
    { intros A leb l. induction l as [|x l IH]; simpl; [reflexivity|].
      rewrite <- IH. generalize (Pd.sort_by leb l). intros s.
      induction s as [|y s IHs]; simpl; [reflexivity|].
      destruct (leb x y); simpl; congruence. }
    now rewrite Hlen.
  - cbv zeta. intros m0 m1 m2 m3 Hinf S0 S1 S2 S3.
    set (fs := DefaultFeatures.features df_tx df_time) in *.
    assert (map DefaultFeatures.X_row fs <> []) as Hne.
    { intros E. apply map_eq_nil in E. rewrite E in Hin. exact Hin. }
    pose proof (fit_transform_imputes _ m0 m1 m2 m3 Hne (X_rows_length fs)
                  Hinf S0 S1 S2 S3) as Hfit.
    eexists. split; [exact Hfit|]. split; [|split].
    + unfold ModelDefault.X_imputed. fold fs. rewrite Hfit. simpl.
      match goal with
      | |- (if forallb ?p ?l then _ else _) = _ =>
          assert (forallb p l = true) as ->; [|reflexivity]
      end.
      apply forallb_forall. intros r Hr. apply in_map_iff in Hr.
      now destruct Hr as (r0 & <- & _).
    + now rewrite !length_map.
    + rewrite map_map. apply in_map_iff. exists f. split; [|exact Hin].
      simpl. now rewrite Hstd, Hdelay.
Qed.

End SingleTransactionTheorem.

(** ** The churn aggregator and the clock *)

Section ChurnTheorems.
Context `{TreeEnsemble}.

Lemma iter_tick_clock n (w : World) k :
  wall_clock (Nat.iter n tick w) k = wall_clock w k.
Proof. induction n as [|n IH]; simpl; [reflexivity|exact IH]. Qed.

Lemma iter_tick_shift n (w : World) :
  Nat.iter n tick (tick w) = tick (Nat.iter n tick w).
Proof. induction n as [|n IH]; simpl; [reflexivity|now rewrite IH]. Qed.

Lemma iter_tick_db n (w : World) : db (Nat.iter n tick w) = db w.
Proof. induction n as [|n IH]; simpl; [reflexivity|exact IH]. Qed.

(** With the clock standing at [now], a column of clock-relative values
    reads the clock once for each group and sees [now] every time. *)
Lemma mapM_today {A} (f : A -> Z -> Z) (groups : list A) (w : World) now :
  (forall k, wall_clock w k = now) ->
  mapM (fun g => t ← today; ret (f g t)) groups w
  = (Ok (map (fun g => f g now) groups), Nat.iter (length groups) tick w).
Proof.
  revert w. induction groups as [|g groups IH]; intros w Hnow; [reflexivity|].
  simpl. unfold mbind, M_bind, bind, today at 1, ret.
  rewrite Hnow. rewrite IH by (intros k; apply Hnow).
  now rewrite iter_tick_shift.
Qed.

Lemma assemble_map (groups : list (Z * list (Tx.t * Acct.t)))
      (f g : Z * list (Tx.t * Acct.t) -> Z) :
  ChurnFeatures.assemble groups (map f groups) (map g groups)
  = map (fun kg =>
           {| ChurnFeatures.client_id := fst kg;
              ChurnFeatures.tenure_days := f kg;
              ChurnFeatures.avg_balance :=
                Pd.mean (map (fun r => Tx.amount (fst r)) (snd kg));
              ChurnFeatures.total_tx_count := Pd.count (snd kg);
              ChurnFeatures.days_since_last := g kg |}) groups.
Proof.
  induction groups as [|[k grp] groups IH]; simpl; [reflexivity|].
  now rewrite IH.
Qed.

Lemma aggregate_frozen (df : list (Tx.t * Acct.t)) (w : World) now :
  (forall k, wall_clock w k = now) ->
  fst (ChurnFeatures.aggregate df w)
  = Ok (map (fun kg =>
           {| ChurnFeatures.client_id := fst kg;
              ChurnFeatures.tenure_days :=
                Pd.days (now - ChurnFeatures.series_min
                                 (map (fun r => Acct.opened_date (snd r)) (snd kg)));
              ChurnFeatures.avg_balance :=
                Pd.mean (map (fun r => Tx.amount (fst r)) (snd kg));
              ChurnFeatures.total_tx_count := Pd.count (snd kg);
              ChurnFeatures.days_since_last :=
                Pd.days (now - ChurnFeatures.series_max
                                 (map (fun r => Tx.transaction_date (fst r)) (snd kg))) |})
         (Pd.groupby (fun r => Tx.client_id (fst r)) df)).
Proof.
  intros Hnow. unfold ChurnFeatures.aggregate.
  unfold ChurnFeatures.tenure, ChurnFeatures.recency.
  unfold mbind at 1, M_bind at 1, bind at 1.
  rewrite (mapM_today
             (fun kg t => Pd.days (t - ChurnFeatures.series_min
                  (map (fun r => Acct.opened_date (snd r)) (snd kg)))) _ w now Hnow).
  unfold mbind at 1, M_bind at 1, bind at 1.
  rewrite (mapM_today
             (fun kg t => Pd.days (t - ChurnFeatures.series_max
                  (map (fun r => Tx.transaction_date (fst r)) (snd kg)))) _ _ now)
    by (intros k; rewrite iter_tick_clock; apply Hnow).
  simpl. f_equal. apply assemble_map.
Qed.

(** C8, as the code has it. The default-scoring aggregation reads only
    the tables: two runs over the same datamart yield the same feature
    vectors and change nothing.  The churn aggregation reads the wall
    clock inside the aggregation functions; two runs over the same
    datamart yield the same feature vectors when the clock stands at the
    same instant [now] during both, and these are the vectors computed
    from [now]. *)
Theorem C8_aggregation_reproducible `{Platform} (w1 w2 : World) :
  db w1 = db w2 ->
  (fst (ModelDefault.features w1) = fst (ModelDefault.features w2)
   /\ snd (ModelDefault.features w1) = w1)
  /\ (forall now,
        (forall k, wall_clock w1 k = now) ->
        (forall k, wall_clock w2 k = now) ->
        fst (ModelChurn.features w1) = fst (ModelChurn.features w2)
        /\ fst (ModelChurn.features w1)
           = Ok (ChurnFeatures.features_at now (fact_transactions (db w1))
                                           (dim_accounts (db w1)))).
Proof.
  intros Hdb. split.
  - unfold ModelDefault.features, mbind, M_bind, bind, gets, mret, M_ret, ret.
    simpl. now rewrite Hdb.
  - intros now H1 H2.
    assert (forall w : World, (forall k, wall_clock w k = now) ->
              fst (ModelChurn.features w)
              = Ok (ChurnFeatures.features_at now (fact_transactions (db w))
                                              (dim_accounts (db w)))) as Hrun.
    { intros w Hw. unfold ModelChurn.features, ChurnFeatures.features.
      unfold mbind, M_bind, bind, gets.
      apply (aggregate_frozen _ w now Hw). }
    rewrite (Hrun w1 H1), (Hrun w2 H2), Hdb. split; reflexivity.
Qed.

End ChurnTheorems.

(** ** Boolean masks and records *)

Section FrameFacts.

Lemma mask_column_nil (mask : list bool) : mask_column mask [] = [].
Proof. destruct mask; reflexivity. Qed.

Lemma row_tail n n' (cols : gmap string column) i :
  row {| nrows := n; columns := cols |} (S i)
  = row {| nrows := n'; columns := tail <$> cols |} i.
Proof.
  unfold row. simpl. apply map_eq. intros k.
  rewrite !lookup_omap, lookup_fmap. unfold column in *.
  destruct (cols !! k) as [[|c col]|]; reflexivity.
Qed.

Lemma row_mask_true_head n n' (cols : gmap string column) mask :
  row {| nrows := n; columns := mask_column (true :: mask) <$> cols |} 0
  = row {| nrows := n'; columns := cols |} 0.
Proof.
  unfold row. simpl. apply map_eq. intros k.
  rewrite !lookup_omap, lookup_fmap. unfold column in *.
  destruct (cols !! k) as [[|c col]|]; reflexivity.
Qed.

Lemma row_mask_true_tail n n' (cols : gmap string column) mask i :
  row {| nrows := n; columns := mask_column (true :: mask) <$> cols |} (S i)
  = row {| nrows := n'; columns := mask_column mask <$> (tail <$> cols) |} i.
Proof.
  unfold row. simpl. apply map_eq. intros k.
  rewrite !lookup_omap, !lookup_fmap. unfold column in *.
  destruct (cols !! k) as [[|c col]|]; simpl; try reflexivity.
  now rewrite mask_column_nil.
Qed.

Lemma mask_false_tail (cols : gmap string column) mask :
  mask_column (false :: mask) <$> cols = mask_column mask <$> (tail <$> cols).
Proof.
  apply map_eq. intros k. rewrite !lookup_fmap. unfold column in *.
  destruct (cols !! k) as [[|c col]|]; simpl; try reflexivity.
  now rewrite mask_column_nil.
Qed.

Lemma rows_shift n n' (cols : gmap string column) m :
  map (row {| nrows := n; columns := cols |}) (seq 1 m)
  = map (row {| nrows := n'; columns := tail <$> cols |}) (seq 0 m).
Proof.
  rewrite <- seq_shift, map_map. apply map_ext. intros i. apply row_tail.
Qed.

(** The records of [df[mask]] are the records of [df] at which the mask
    holds, in the same order. *)
Lemma records_of_mask (cols : gmap string column) (mask : list bool) :
  to_dict_records (getitem_mask {| nrows := length mask; columns := cols |} mask)
  = map snd (List.filter fst
               (combine mask
                  (to_dict_records {| nrows := length mask; columns := cols |}))).
Proof.
  unfold to_dict_records, getitem_mask. simpl nrows. simpl columns.
  revert cols. induction mask as [|b mask IH]; intros cols; [reflexivity|].
  simpl length. cbn [seq map combine].
  rewrite (rows_shift _ (length mask)).
  destruct b; cbn [List.filter fst map snd].
  - change (Np.count_true (true :: mask)) with (S (Np.count_true mask)).
    cbn [seq map]. f_equal; [apply row_mask_true_head|].
    rewrite <- IH, <- seq_shift, map_map. apply map_ext. intros i.
    apply row_mask_true_tail.
  - change (Np.count_true (false :: mask)) with (Np.count_true mask).
    rewrite <- IH. now rewrite mask_false_tail.
Qed.

Lemma records_length (d : DataFrame) (mask : list bool) :
  length (to_dict_records (getitem_mask d mask)) = Np.count_true mask.
Proof. unfold to_dict_records. now rewrite length_map, length_seq. Qed.

Lemma map_fst_combine {A B} (l1 : list A) (l2 : list B) :
  length l1 = length l2 -> map fst (combine l1 l2) = l1.
Proof.
  revert l2. induction l1 as [|x l1 IH]; intros [|y l2] E; simpl in *;
    try reflexivity; try discriminate.
  f_equal. apply IH. congruence.
Qed.

End FrameFacts.

(** ** The orchestrator *)

Section PipelineTheorems.
Context `{TreeEnsemble} `{Classifiers} `{Platform}.
Local Open Scope Q_scope.

Lemma assign_Ok {A B} (rows : list A) (values : list B) r :
  Pipeline.assign rows values = Ok r ->
  r = combine rows values /\ length rows = length values.
Proof.
  unfold Pipeline.assign. destruct (length rows =? length values)%nat eqn:E;
    [|discriminate].
  intros [= <-]. split; [reflexivity|]. now apply Nat.eqb_eq.
Qed.

(** Stage 2 reads the tables and changes nothing; its rows are those of
    [features], one for each account. *)
Lemma default_scoring_run (w : World) :
  snd (Pipeline.default_scoring w) = w
  /\ forall fd, fst (Pipeline.default_scoring w) = Ok fd ->
       map fst fd = DefaultFeatures.features (fact_transactions (db w))
                                             (dim_time (db w)).
Proof.
  unfold Pipeline.default_scoring, mbind, M_bind, bind, gets, lift. simpl.
  destruct (Imputer.fit_transform _) as [X|e]; [|split; [reflexivity|discriminate]].
  destruct (logreg_predict_proba _) as [p|e]; [|split; [reflexivity|discriminate]].
  split; [reflexivity|]. simpl. intros fd Hfd.
  apply assign_Ok in Hfd. destruct Hfd as [-> Hlen].
  now apply map_fst_combine.
Qed.

Lemma features_accounts df_tx df_time :
  map DefaultFeatures.account_id (DefaultFeatures.features df_tx df_time)
  = Pd.unique_sorted
      (map Tx.account_id (Pd.sort_by DefaultFeatures.by_account_and_date df_tx)).
Proof.
  unfold DefaultFeatures.features. rewrite map_map. simpl.
  rewrite <- groupby_keys. reflexivity.
Qed.

Lemma iter_tick_frames n (w : World) : frames (Nat.iter n tick w) = frames w.
Proof. induction n as [|n IH]; simpl; [reflexivity|exact IH]. Qed.

Lemma iter_tick_reports n (w : World) :
  report_files (Nat.iter n tick w) = report_files w.
Proof. induction n as [|n IH]; simpl; [reflexivity|exact IH]. Qed.

Lemma mapM_today_run {A} (f : A -> Z -> Z) (groups : list A) (w : World) :
  exists ys,
    mapM (fun g => t ← today; ret (f g t)) groups w
    = (Ok ys, Nat.iter (length groups) tick w)
    /\ length ys = length groups.
Proof.
  revert w. induction groups as [|g groups IH]; intros w.
  - exists []. split; reflexivity.
  - destruct (IH (tick w)) as (ys & Hrun & Hlen).
    exists (f g (wall_clock w (clock_reads w)) :: ys). split.
    + simpl. unfold mbind, M_bind, bind, ret in Hrun |- *.
      unfold today at 1. rewrite Hrun. now rewrite iter_tick_shift.
    + simpl. now rewrite Hlen.
Qed.

Lemma assemble_keys (groups : list (Z * list (Tx.t * Acct.t))) (ts ls : list Z) :
  length ts = length groups -> length ls = length groups ->
  map ChurnFeatures.client_id (ChurnFeatures.assemble groups ts ls)
  = map fst groups.
Proof.
  revert ts ls. induction groups as [|[k g] groups IH];
    intros [|t ts] [|l ls] Ht Hl; simpl in *; try reflexivity; try discriminate.
  f_equal. apply IH; congruence.
Qed.

(** The churn aggregation only advances the clock; it returns one row
    for each client of the merged frame. *)
Lemma churn_aggregate_run (df : list (Tx.t * Acct.t)) (w : World) :
  exists fs n,
    ChurnFeatures.aggregate df w = (Ok fs, Nat.iter n tick w)
    /\ map ChurnFeatures.client_id fs
       = Pd.unique_sorted (map (fun r => Tx.client_id (fst r)) df).
Proof.
  unfold ChurnFeatures.aggregate, ChurnFeatures.tenure, ChurnFeatures.recency.
  set (groups := Pd.groupby (fun r => Tx.client_id (fst r)) df).
  destruct (mapM_today_run
              (fun kg t => Pd.days (t - ChurnFeatures.series_min
                   (map (fun r => Acct.opened_date (snd r)) (snd kg)))) groups w)
    as (ts & Hts & Lts).
  destruct (mapM_today_run
              (fun kg t => Pd.days (t - ChurnFeatures.series_max
                   (map (fun r => Tx.transaction_date (fst r)) (snd kg)))) groups
              (Nat.iter (length groups) tick w))
    as (ls & Hls & Lls).
  exists (ChurnFeatures.assemble groups ts ls), (length groups + length groups)%nat.
  split.
  - unfold mbind at 1, M_bind at 1, bind at 1. rewrite Hts.
    unfold mbind at 1, M_bind at 1, bind at 1. rewrite Hls.
    unfold ret. f_equal. now rewrite Nat.iter_add.
  - rewrite assemble_keys by assumption. apply groupby_keys.
Qed.

Lemma churn_prediction_run (w w' : World) fc :
  Pipeline.churn_prediction w = (Ok fc, w') ->
  db w' = db w /\ frames w' = frames w /\ report_files w' = report_files w
  /\ map (fun r => ChurnFeatures.client_id (fst r)) fc
     = Pd.unique_sorted
         (map (fun r => Tx.client_id (fst r))
              (ChurnFeatures.merge (fact_transactions (db w)) (dim_accounts (db w)))).
Proof.
  unfold Pipeline.churn_prediction, ChurnFeatures.features_churn.
  unfold mbind at 1 2, M_bind at 1 2, bind at 1 2, gets.
  destruct (churn_aggregate_run
              (ChurnFeatures.merge (fact_transactions (db w)) (dim_accounts (db w))) w)
    as (fs & n & Hrun & Hkeys).
  unfold mbind at 1, M_bind at 1, bind at 1. rewrite Hrun.
  unfold mbind, M_bind, bind, lift.
  destruct (xgb_predict _) as [p|e]; [|discriminate].
  destruct (Pipeline.assign fs p) as [r|e] eqn:Ea; [|discriminate].
  intros [= <- <-]. apply assign_Ok in Ea. destruct Ea as [-> Hlen].
  rewrite iter_tick_db, iter_tick_frames, iter_tick_reports.
  repeat (split; [reflexivity|]).
  rewrite <- Hkeys.
  transitivity (map ChurnFeatures.client_id (map fst (combine fs p)));
    [now rewrite map_map|now rewrite map_fst_combine].
Qed.

End PipelineTheorems.

Section ReportTheorem.
Context `{TreeEnsemble} `{Classifiers} `{Platform}.
Local Open Scope Q_scope.

Lemma scored_tx_frame (txs : list Tx.t) c d1 :
  Anomaly.scored_frame (Anomaly.tx_frame txs) c = Ok d1 ->
  exists scores thr,
    length scores = length txs
    /\ d1 = {| nrows := length txs;
               columns :=
                 <["is_anomaly" := map (cell_ge thr) (map CFloat scores)]>
                   (<["anomaly_score" := map CFloat scores]>
                      (columns (Anomaly.tx_frame txs))) |}.
Proof.
  rewrite (scored_frame_matrix _ _ c (design_matrix_tx_frame txs)).
  destruct (Sklearn.fit _ _ _) as [iso|e]; [|discriminate].
  cbv zeta. intros [= <-]. eexists _, _. split; [|reflexivity].
  unfold Sklearn.decision_function, Sklearn.score_samples.
  now rewrite !length_map.
Qed.

(** Stage 4 leaves a scored frame alive at the address it returns; the
    flag vector has one entry for each row. *)
Lemma anomaly_detection_run (w w' : World) (l : loc) :
  Pipeline.anomaly_detection w = (Ok l, w') ->
  exists d,
    frames w' !! l = Some d
    /\ db w' = db w
    /\ report_files w' = report_files w
    /\ length (Anomaly.is_anomaly d) = nrows d.
Proof.
  unfold Pipeline.anomaly_detection, Anomaly.load_data, Anomaly.alloc.
  unfold mbind at 1 2, M_bind at 1 2, bind at 1 2, gets. cbv zeta.
  unfold mbind at 1, M_bind at 1, bind at 1.
  set (txs := fact_transactions (db w)).
  set (l0 := fresh (dom (frames w))).
  set (wa := set_frames (<[l0 := Anomaly.tx_frame txs]> (frames w)) w).
  rewrite (detect_anomalies_run wa l0 (Anomaly.tx_frame txs) (5 # 100))
    by apply lookup_insert_eq.
  destruct (Anomaly.scored_frame (Anomaly.tx_frame txs) (5 # 100)) as [d1|e] eqn:Es;
    [|discriminate].
  destruct (scored_tx_frame txs _ d1 Es) as (scores & thr & Hlen & ->).
  unfold mbind at 1, M_bind at 1, bind at 1.
  unfold Anomaly.deref at 1. cbn [frames set_frames]. rewrite lookup_insert_eq.
  cbn [columns]. rewrite !lookup_insert_ne by discriminate.
  unfold Anomaly.tx_frame at 1. cbn [columns].
  rewrite !lookup_insert_ne by discriminate. rewrite lookup_insert_eq.
  unfold Anomaly.setitem, Anomaly.deref, modify, ret.
  unfold mbind, M_bind, bind. cbn [frames set_frames]. rewrite lookup_insert_eq.
  intros [= <- <-]. eexists. cbn [frames set_frames db report_files].
  split; [apply lookup_insert_eq|]. split; [reflexivity|]. split; [reflexivity|].
  unfold Anomaly.is_anomaly. cbn [columns nrows].
  rewrite lookup_insert_ne by discriminate. rewrite lookup_insert_eq.
  now rewrite !length_map.
Qed.

Lemma report_keys timestamp fd fc d :
  dom (Pipeline.report timestamp fd fc d)
  = ({["timestamp"]} ∪ {["default_risk_summary"]}
     ∪ {["churn_risk_summary"]} ∪ {["anomalies"]} : gset string).
Proof.
  unfold Pipeline.report. rewrite !dom_insert_L, dom_empty_L. set_solver.
Qed.

(** C7. A run of the pipeline that completes writes exactly one report
    file.  The report has exactly the four keys [timestamp],
    [default_risk_summary], [churn_risk_summary] and [anomalies]; the
    default summary has one record for each account that has
    transactions and the churn summary one for each client of the merged
    frame; the anomalies are the records of the rows of the scored frame
    whose [is_anomaly] flag is set, and of no other row. *)
Theorem C7_one_report_four_keys_flagged_only (w w' : World) (path : string) :
  Pipeline.main w = (Ok path, w') ->
  exists rep mart fd fc df_anom d,
    etl_main = Ok mart
    /\ db w' = mart
    /\ report_files w' = (report_files w ++ [(path, rep)])%list
    /\ dom rep = ({["timestamp"]} ∪ {["default_risk_summary"]}
                  ∪ {["churn_risk_summary"]} ∪ {["anomalies"]} : gset string)
    /\ rep !! "default_risk_summary"
       = Some (JRecords (map Pipeline.default_record fd))
    /\ List.NoDup (map (fun r => DefaultFeatures.account_id (fst r)) fd)
    /\ (forall k, In k (map (fun r => DefaultFeatures.account_id (fst r)) fd)
                  <-> exists t, In t (fact_transactions mart) /\ Tx.account_id t = k)
    /\ rep !! "churn_risk_summary"
       = Some (JRecords (map Pipeline.churn_record fc))
    /\ List.NoDup (map (fun r => ChurnFeatures.client_id (fst r)) fc)
    /\ (forall k, In k (map (fun r => ChurnFeatures.client_id (fst r)) fc)
                  <-> exists r, In r (ChurnFeatures.merge (fact_transactions mart)
                                                         (dim_accounts mart))
                                /\ Tx.client_id (fst r) = k)
    /\ frames w' !! df_anom = Some d
    /\ rep !! "anomalies"
       = Some (JRecords
                 (map snd (List.filter fst
                             (combine (Anomaly.is_anomaly d) (to_dict_records d)))))
    /\ length (map snd (List.filter fst
                          (combine (Anomaly.is_anomaly d) (to_dict_records d))))
       = Anomaly.n_anomalies d.
Proof.
  unfold Pipeline.main.
  unfold mbind at 1, M_bind at 1, bind at 1, lift.
  destruct etl_main as [mart|e] eqn:Eetl; [|discriminate].
  unfold mbind at 1, M_bind at 1, bind at 1, modify.
  set (w1 := set_db mart w).
  unfold mbind at 1, M_bind at 1, bind at 1.
  destruct (default_scoring_run w1) as [Hst Hfd].
  destruct (Pipeline.default_scoring w1) as [[fd|e] w1'] eqn:Eds; [|discriminate].
  simpl in Hst. subst w1'. specialize (Hfd fd eq_refl).
  unfold mbind at 1, M_bind at 1, bind at 1.
  destruct (Pipeline.churn_prediction w1) as [[fc|e] w2] eqn:Ecp; [|discriminate].
  destruct (churn_prediction_run w1 w2 fc Ecp) as (Hdb2 & Hfr2 & Hrep2 & Hfc).
  unfold mbind at 1, M_bind at 1, bind at 1.
  destruct (Pipeline.anomaly_detection w2) as [[df_anom|e] w3] eqn:Ead; [|discriminate].
  destruct (anomaly_detection_run w2 w3 df_anom Ead) as (d & Hd & Hdb3 & Hrep3 & Hlen).
  unfold mbind at 1, M_bind at 1, bind at 1.
  unfold Anomaly.deref at 1. rewrite Hd.
  unfold Pipeline.mlflow_tracking, today, modify, ret.
  unfold mbind, M_bind, bind.
  intros [= <- <-].
  exists (Pipeline.report (wall_clock w3 (clock_reads w3)) fd fc d),
         mart, fd, fc, df_anom, d.
  cbn [db report_files frames add_report add_metric tick].
  split; [reflexivity|]. split; [rewrite Hdb3, Hdb2; reflexivity|].
  split; [rewrite Hrep3, Hrep2; reflexivity|].
  split; [apply report_keys|].
  assert (map (fun r => DefaultFeatures.account_id (fst r)) fd
          = Pd.unique_sorted
              (map Tx.account_id
                   (Pd.sort_by DefaultFeatures.by_account_and_date
                               (fact_transactions mart)))) as Hacc.
  { rewrite <- (map_map fst DefaultFeatures.account_id), Hfd.
    apply features_accounts. }
  split; [unfold Pipeline.report; rewrite lookup_insert_ne by discriminate;
          apply lookup_insert_eq|].
  split; [rewrite Hacc; apply increasing_NoDup, unique_sorted_increasing|].
  split.
  { intros k. rewrite Hacc, unique_sorted_In, in_map_iff.
    split.
    - intros (t & Ht & Hin). exists t. split; [|exact Ht].
      now apply sort_by_In in Hin.
    - intros (t & Hin & Ht). exists t. split; [exact Ht|].
      now apply sort_by_In. }
  split; [unfold Pipeline.report; rewrite !lookup_insert_ne by discriminate;
          apply lookup_insert_eq|].
  split; [rewrite Hfc; apply increasing_NoDup, unique_sorted_increasing|].
  split.
  { intros k. rewrite Hfc, unique_sorted_In, in_map_iff.
    split.
    - intros (r & Hr & Hin). exists r. split; assumption.
    - intros (r & Hin & Hr). exists r. split; assumption. }
  split; [exact Hd|].
  assert (to_dict_records (getitem_mask d (Anomaly.is_anomaly d))
          = map snd (List.filter fst
                       (combine (Anomaly.is_anomaly d) (to_dict_records d)))) as Hrec.
  { destruct d as [n cols]. simpl in Hlen. rewrite <- Hlen. apply records_of_mask. }
  split.
  - unfold Pipeline.report. rewrite !lookup_insert_ne by discriminate.
    rewrite lookup_insert_eq. now rewrite Hrec.
  - rewrite <- Hrec. apply records_length.
Qed.

End ReportTheorem.

(** ** The theorems on a concrete datamart *)

Section Instances.
Import Toy.
Local Open Scope Q_scope.

Lemma toy_matrix_nonempty :
  [(50, 2); (55, 2); (5000, 1)] <> ([] : matrix).
Proof. discriminate. Defined.

Lemma C1_scores_threshold_flags_witness :
  exists d',
    Anomaly.detect_anomalies 0%nat (34 # 100) world
    = (Ok 0%nat, set_frames (<[0%nat := d']> (frames world)) world)
    /\ Anomaly.is_anomaly d' = [false; false; true].
Proof.
  destruct (C1_scores_threshold_flags world 0%nat (Anomaly.tx_frame transactions)
              [(50, 2); (55, 2); (5000, 1)] (34 # 100)
              eq_refl eq_refl toy_matrix_nonempty eq_refl ltac:(discriminate))
    as (iso & d' & Hfit & Hrun & _ & Hflags & _).
  exists d'. split; [exact Hrun|].
  rewrite Hflags. injection Hfit as <-. reflexivity.
Defined.

Lemma C2_flagged_count_monotone_witness :
  exists d1 d2,
    Anomaly.detect_anomalies 0%nat (5 # 100) world
    = (Ok 0%nat, set_frames (<[0%nat := d1]> (frames world)) world)
    /\ Anomaly.detect_anomalies 0%nat (34 # 100) world
       = (Ok 0%nat, set_frames (<[0%nat := d2]> (frames world)) world)
    /\ (Anomaly.n_anomalies d1 <= Anomaly.n_anomalies d2)%nat.
Proof.
  exact (C2_flagged_count_monotone world 0%nat (Anomaly.tx_frame transactions)
           [(50, 2); (55, 2); (5000, 1)] (5 # 100) (34 # 100)
           eq_refl eq_refl toy_matrix_nonempty eq_refl
           ltac:(discriminate) ltac:(discriminate)).
Defined.

Lemma three_quarters_invalid : ~ (0 < 3 # 4 /\ 3 # 4 <= 1 # 2).
Proof. intros [_ L]. apply L. reflexivity. Defined.

Lemma C3_invalid_contamination_raises_witness :
  Anomaly.detect_anomalies 0%nat (3 # 4) world = (Raise InvalidParameterError, world)
  /\ fst (App.detect_anomaly (3 # 4) world) = Raise InvalidParameterError.
Proof.
  destruct (C3_invalid_contamination_raises (3 # 4) three_quarters_invalid)
    as [Hscorer Hendpoint].
  split.
  - exact (Hscorer world 0%nat (Anomaly.tx_frame transactions)
                   [(50, 2); (55, 2); (5000, 1)] eq_refl eq_refl).
  - exact (Hendpoint world).
Defined.

Lemma C4_zero_day_span_gives_infinity_witness :
  List.Forall (fun f => DefaultFeatures.tx_count_per_day f = PInf)
              (DefaultFeatures.features transactions [])
  /\ Pipeline.default_scoring world_without_days
     = (Raise ValueError, world_without_days).
Proof.
  destruct (C4_zero_day_span_gives_infinity transactions []
              ltac:(discriminate) eq_refl) as (_ & Hinf & _ & Hpipe).
  split; [exact Hinf|]. exact (Hpipe world_without_days eq_refl eq_refl).
Defined.

(** The claim C4 at a concrete input: with two accounts and an empty
    time dimension nothing is raised by the division, the rate is
    +Infinity for both accounts, and the exception that ends the default
    stage of the pipeline is the imputer's [ValueError]. *)
Lemma C4_counterexample :
  transactions <> []
  /\ Pd.nunique [] = 0%Z
  /\ map DefaultFeatures.tx_count_per_day (DefaultFeatures.features transactions [])
     = [PInf; PInf]
  /\ fst (Pipeline.default_scoring world_without_days) = Raise ValueError.
Proof.
  split; [discriminate|]. split; [reflexivity|]. split; vm_compute; reflexivity.
Qed.

Lemma C5_single_transaction_nulls_imputed_witness :
  exists f,
    In f (DefaultFeatures.features transactions [1; 2; 3]%Z)
    /\ DefaultFeatures.account_id f = 2%Z
    /\ DefaultFeatures.std_amount f = NaN
    /\ DefaultFeatures.avg_delay_days f = NaN
    /\ exists rows,
         ModelDefault.X_imputed transactions [1; 2; 3]%Z = Ok rows
         /\ In [Imputer.impute (10105 # 4) (DefaultFeatures.avg_amount f); 200 # 16;
                Imputer.impute (9 # 18) (DefaultFeatures.tx_count_per_day f); 2]
               rows.
Proof.
  destruct (C5_single_transaction_nulls_imputed transactions [1; 2; 3]%Z 2%Z eq_refl)
    as (f & Hin & Hk & Hstd & Hdelay & _ & Himp).
  exists f. repeat (split; [assumption|]).
  destruct (Himp (10105 # 4) (200 # 16) (9 # 18) 2 eq_refl eq_refl eq_refl eq_refl eq_refl)
    as (rows & _ & HX & _ & Hrow).
  exists rows. split; assumption.
Defined.

(** The claim C5 at a concrete input: when every account has exactly
    one transaction, the standard deviation and the delay are null for
    all of them, the imputer has no mean to put in their place and drops
    both columns, and the training script fails on the two-column
    result. *)
Lemma C5_counterexample :
  length (List.filter (fun t => (Tx.account_id t =? 1)%Z) singles) = 1%nat
  /\ map DefaultFeatures.std_amount (DefaultFeatures.features singles [1; 2]%Z)
     = [NaN; NaN]
  /\ map DefaultFeatures.avg_delay_days (DefaultFeatures.features singles [1; 2]%Z)
     = [NaN; NaN]
  /\ Imputer.fit_transform
       (map DefaultFeatures.X_row (DefaultFeatures.features singles [1; 2]%Z))
     = Ok [[50; 1 # 2]; [5000; 1 # 2]]
  /\ ModelDefault.X_imputed singles [1; 2]%Z = Raise ValueError.
Proof. repeat split; vm_compute; reflexivity. Qed.

Lemma C6_scores_deterministic_witness :
  Anomaly.score_vector 0%nat (34 # 100) world
  = Anomaly.score_vector 5%nat (34 # 100) other_world.
Proof.
  exact (C6_scores_deterministic world other_world 0%nat 5%nat
           (Anomaly.tx_frame transactions) (34 # 100) eq_refl eq_refl).
Defined.

Lemma pipeline_completes :
  Pipeline.main (world_at 500000)
  = (Ok "report_20240105_000000.json", snd (Pipeline.main (world_at 500000))).
Proof. vm_compute. reflexivity. Defined.

Lemma C7_one_report_four_keys_flagged_only_witness :
  exists rep,
    report_files (snd (Pipeline.main (world_at 500000)))
    = [("report_20240105_000000.json", rep)]
    /\ dom rep = ({["timestamp"]} ∪ {["default_risk_summary"]}
                  ∪ {["churn_risk_summary"]} ∪ {["anomalies"]} : gset string).
Proof.
  destruct (C7_one_report_four_keys_flagged_only
              (world_at 500000) _ _ pipeline_completes)
    as (rep & mart & fd & fc & df_anom & d & _ & _ & Hfiles & Hkeys & _).
  exists rep. split; [exact Hfiles|exact Hkeys].
Defined.

Lemma C8_aggregation_reproducible_witness :
  fst (ModelDefault.features world) = fst (ModelDefault.features other_world)
  /\ fst (ModelChurn.features (world_at 500000))
     = fst (ModelChurn.features (tick (world_at 500000))).
Proof.
  split.
  - exact (proj1 (proj1 (C8_aggregation_reproducible world other_world eq_refl))).
  - exact (proj1 (proj2 (C8_aggregation_reproducible
                           (world_at 500000) (tick (world_at 500000)) eq_refl)
                        500000%Z (fun _ => eq_refl) (fun _ => eq_refl))).
Defined.

(** The claim C8 at a concrete input: the same tables aggregated for
    churn at two instants a little more than a day apart give different
    feature vectors. *)
Lemma C8_counterexample :
  db (world_at 500000) = db (world_at 600000)
  /\ fst (ModelChurn.features (world_at 500000))
     <> fst (ModelChurn.features (world_at 600000)).
Proof.
  split; [reflexivity|]. intros E. vm_compute in E. discriminate E.
Qed.

Lemma C9_mutates_argument_in_place_witness :
  exists w' d',
    Anomaly.detect_anomalies 0%nat (34 # 100) world = (Ok 0%nat, w')
    /\ frames w' = <[0%nat := d']> (frames world)
    /\ nrows d' = 3%nat
    /\ columns d' !! "amount" = columns (Anomaly.tx_frame transactions) !! "amount".
Proof.
  destruct (detect_anomalies_valid world 0%nat (Anomaly.tx_frame transactions)
              [(50, 2); (55, 2); (5000, 1)] (34 # 100)
              eq_refl eq_refl toy_matrix_nonempty eq_refl ltac:(discriminate))
    as (d0 & Hrun & _).
  destruct (C9_mutates_argument_in_place world _ 0%nat 0%nat
              (Anomaly.tx_frame transactions) (34 # 100) eq_refl Hrun)
    as (_ & d' & Hframes & Hrows & _ & _ & Hcols & _).
  eexists _, d'. split; [exact Hrun|]. split; [exact Hframes|].
  split; [exact Hrows|]. apply Hcols; discriminate.
Defined.

Lemma C10_some_transaction_flagged_witness :
  exists d',
    Anomaly.detect_anomalies 0%nat (34 # 100) world
    = (Ok 0%nat, set_frames (<[0%nat := d']> (frames world)) world)
    /\ (1 <= Anomaly.n_anomalies d')%nat.
Proof.
  exact (C10_some_transaction_flagged world 0%nat (Anomaly.tx_frame transactions)
           [(50, 2); (55, 2); (5000, 1)] (34 # 100)
           eq_refl eq_refl toy_matrix_nonempty eq_refl ltac:(discriminate)).
Defined.

(** The claim C10 at a concrete input: 0.75 lies in (0, 1), the
    transaction set is not empty, and the call flags nothing: it raises
    [InvalidParameterError] and leaves the frame without flags. *)
Lemma C10_counterexample :
  0 < 3 # 4 /\ 3 # 4 < 1
  /\ Anomaly.design_matrix (Anomaly.tx_frame transactions)
     = Some [(50, 2); (55, 2); (5000, 1)]
  /\ Anomaly.detect_anomalies 0%nat (3 # 4) world
     = (Raise InvalidParameterError, world)
  /\ Anomaly.n_anomalies (Anomaly.tx_frame transactions) = 0%nat.
Proof. repeat split; vm_compute; reflexivity. Qed.

End Instances.

(** ** The ETL *)

Section EtlFacts.

Lemma seen_spec k seen : existsb (Z.eqb k) seen = true <-> In k seen.
Proof.
  rewrite existsb_exists. split.
  - intros (x & Hin & E). apply Z.eqb_eq in E. now subst.
  - intros Hin. exists k. split; [exact Hin|apply Z.eqb_refl].
Qed.

Lemma drop_duplicates_from_In {A} (key : A -> Z) seen (l : list A) x :
  In x (Etl.drop_duplicates_from key seen l) -> In x l /\ ~ In (key x) seen.
Proof.
  revert seen. induction l as [|y l IH]; intros seen; simpl; [tauto|].
  destruct (existsb (Z.eqb (key y)) seen) eqn:E.
  - intros Hin. apply IH in Hin. tauto.
  - intros [<-|Hin].
    + split; [now left|]. intros Hs. apply seen_spec in Hs. congruence.
    + apply IH in Hin. destruct Hin as [Hl Hs]. split; [now right|].
      intros Hs'. apply Hs. now right.
Qed.

Lemma drop_duplicates_from_NoDup {A} (key : A -> Z) seen (l : list A) :
  List.NoDup (map key (Etl.drop_duplicates_from key seen l)).
Proof.
  revert seen. induction l as [|y l IH]; intros seen; simpl; [constructor|].
  destruct (existsb (Z.eqb (key y)) seen) eqn:E; [apply IH|].
  simpl. constructor; [|apply IH].
  intros Hin. apply in_map_iff in Hin. destruct Hin as (x & Hk & Hin).
  apply drop_duplicates_from_In in Hin. destruct Hin as [_ Hs].
  apply Hs. left. now rewrite Hk.
Qed.

Lemma drop_duplicates_from_keys {A} (key : A -> Z) seen (l : list A) x :
  In x l -> ~ In (key x) seen ->
  exists y, In y (Etl.drop_duplicates_from key seen l) /\ key y = key x.
Proof.
  revert seen. induction l as [|z l IH]; intros seen; simpl; [tauto|].
  intros [->|Hin] Hs.
  - destruct (existsb (Z.eqb (key x)) seen) eqn:E.
    + apply seen_spec in E. contradiction.
    + exists x. split; [now left|reflexivity].
  - destruct (existsb (Z.eqb (key z)) seen) eqn:E; [now apply IH|].
    destruct (Z.eq_dec (key z) (key x)) as [Ez|Nz].
    + exists z. split; [now left|exact Ez].
    + destruct (IH (key z :: seen) Hin) as (y & Hy & Hk).
      * intros [E'|Hs']; [congruence|contradiction].
      * exists y. split; [now right|exact Hk].
Qed.

Lemma drop_duplicates_from_id {A} (key : A -> Z) seen (l : list A) :
  List.NoDup (map key l) -> (forall x, In x l -> ~ In (key x) seen) ->
  Etl.drop_duplicates_from key seen l = l.
Proof.
  revert seen. induction l as [|y l IH]; intros seen Hnd Hs; simpl; [reflexivity|].
  inversion Hnd as [|k ks Hk Hnd']; subst.
  destruct (existsb (Z.eqb (key y)) seen) eqn:E.
  - apply seen_spec in E. exfalso. apply (Hs y); [now left|exact E].
  - f_equal. apply IH; [exact Hnd'|].
    intros x Hx [E'|Hin].
    + apply Hk. rewrite E'. now apply in_map.
    + apply (Hs x); [now right|exact Hin].
Qed.

Lemma drop_duplicates_from_map {A} (key : A -> Z) (f : A -> A) seen (l : list A) :
  (forall x, key (f x) = key x) ->
  Etl.drop_duplicates_from key seen (map f l)
  = map f (Etl.drop_duplicates_from key seen l).
Proof.
  intros Hk. revert seen. induction l as [|y l IH]; intros seen; simpl; [reflexivity|].
  rewrite Hk. destruct (existsb (Z.eqb (key y)) seen); simpl; now rewrite IH.
Qed.

(** Dropping duplicates a second time changes nothing. *)
Lemma drop_duplicates_idempotent {A} (key : A -> Z) (l : list A) :
  Etl.drop_duplicates key (Etl.drop_duplicates key l) = Etl.drop_duplicates key l.
Proof.
  unfold Etl.drop_duplicates. apply drop_duplicates_from_id.
  - apply drop_duplicates_from_NoDup.
  - intros x _ [].
Qed.

Lemma Qabs_idempotent (q : Q) : Qabs (Qabs q) = Qabs q.
Proof. destruct q as [n d]. simpl. now rewrite Z.abs_idemp. Qed.

(** The entries of a dictionary are pairs of the list it was built
    from; when no key occurs twice, every pair is an entry. *)
Lemma fold_insert_lookup {V} (pairs : list (Z * V)) (m : gmap Z V) k v :
  fold_left (fun m kv => <[fst kv := snd kv]> m) pairs m !! k = Some v ->
  In (k, v) pairs \/ m !! k = Some v.
Proof.
  revert m. induction pairs as [|[k' v'] pairs IH]; intros m; simpl; [tauto|].
  intros Hl. apply IH in Hl. destruct Hl as [Hin|Hm]; [left; now right|].
  destruct (Z.eq_dec k' k) as [->|Hne].
  - rewrite lookup_insert_eq in Hm. injection Hm as ->. left. now left.
  - rewrite lookup_insert_ne in Hm by exact Hne. now right.
Qed.

Lemma fold_insert_other {V} (pairs : list (Z * V)) (m : gmap Z V) k :
  ~ In k (map fst pairs) ->
  fold_left (fun m kv => <[fst kv := snd kv]> m) pairs m !! k = m !! k.
Proof.
  revert m. induction pairs as [|[k' v'] pairs IH]; intros m Hk; simpl; [reflexivity|].
  simpl in Hk. rewrite IH by tauto. apply lookup_insert_ne. tauto.
Qed.

Lemma fold_insert_entry {V} (pairs : list (Z * V)) (m : gmap Z V) k v :
  List.NoDup (map fst pairs) -> In (k, v) pairs ->
  fold_left (fun m kv => <[fst kv := snd kv]> m) pairs m !! k = Some v.
Proof.
  revert m. induction pairs as [|[k' v'] pairs IH]; intros m Hnd Hin; simpl; [destruct Hin|].
  inversion Hnd as [|a b Hk Hnd']; subst. destruct Hin as [[= -> ->]|Hin].
  - rewrite fold_insert_other by exact Hk. apply lookup_insert_eq.
  - now apply IH.
Qed.

Lemma dict_lookup {V} (pairs : list (Z * V)) k v :
  Etl.dict pairs !! k = Some v -> In (k, v) pairs.
Proof.
  unfold Etl.dict. intros Hl. apply fold_insert_lookup in Hl.
  destruct Hl as [Hin|He]; [exact Hin|]. rewrite lookup_empty in He. discriminate.
Qed.

Lemma dict_entry {V} (pairs : list (Z * V)) k v :
  List.NoDup (map fst pairs) -> In (k, v) pairs -> Etl.dict pairs !! k = Some v.
Proof. apply fold_insert_entry. Qed.

Lemma dict_missing {V} (pairs : list (Z * V)) k :
  ~ In k (map fst pairs) -> Etl.dict pairs !! k = None.
Proof.
  intros Hk. unfold Etl.dict. rewrite fold_insert_other by exact Hk.
  apply lookup_empty.
Qed.

Lemma combine_seq_In {A B} (g : nat -> B) (l : list A) s i x :
  nth_error l i = Some x ->
  In (x, g (s + i)%nat) (combine l (map g (seq s (length l)))).
Proof.
  revert s i. induction l as [|y l IH]; intros s [|i] Hn; simpl in *;
    try discriminate.
  - injection Hn as ->. left. now rewrite Nat.add_0_r.
  - right. replace (s + S i)%nat with (S s + i)%nat by lia. now apply IH.
Qed.

End EtlFacts.

Section EtlTheorems.
Context `{Calendar}.
Local Open Scope Q_scope.

(** X1. [clean_transactions] leaves no transaction id twice and no
    negative amount; every cleaned row is a raw row with the absolute
    value of its amount, and no transaction id of the raw file is lost. *)
Theorem clean_transactions_unique_nonnegative (df : list Etl.RawTx) :
  List.NoDup (map Etl.transaction_id (Etl.clean_transactions df))
  /\ (forall t, In t (Etl.clean_transactions df) ->
        0 <= Etl.amount t
        /\ exists r, In r df /\ t = Etl.with_abs_amount r)
  /\ (forall r, In r df ->
        exists t, In t (Etl.clean_transactions df)
                  /\ Etl.transaction_id t = Etl.transaction_id r).
Proof.
  unfold Etl.clean_transactions, Etl.drop_duplicates. split; [|split].
  - rewrite map_map. simpl. apply drop_duplicates_from_NoDup.
  - intros t Ht. apply in_map_iff in Ht. destruct Ht as (r & <- & Hr).
    apply drop_duplicates_from_In in Hr. destruct Hr as [Hr _]. split.
    + simpl. apply Qabs_nonneg.
    + exists r. split; [exact Hr|reflexivity].
  - intros r Hr.
    destruct (drop_duplicates_from_keys Etl.transaction_id [] df r Hr)
      as (y & Hy & Hk); [intros []|].
    exists (Etl.with_abs_amount y). split; [now apply in_map|exact Hk].
Qed.

(** X2. Cleaning is idempotent: cleaning cleaned transactions returns
    them unchanged. *)
Theorem clean_transactions_idempotent (df : list Etl.RawTx) :
  Etl.clean_transactions (Etl.clean_transactions df) = Etl.clean_transactions df.
Proof.
  unfold Etl.clean_transactions, Etl.drop_duplicates.
  rewrite (drop_duplicates_from_map Etl.transaction_id Etl.with_abs_amount)
    by reflexivity.
  fold (Etl.drop_duplicates Etl.transaction_id df).
  fold (Etl.drop_duplicates Etl.transaction_id
          (Etl.drop_duplicates Etl.transaction_id df)).
  rewrite drop_duplicates_idempotent, map_map. apply map_ext.
  intros [i a q d ty]. unfold Etl.with_abs_amount. simpl.
  now rewrite Qabs_idempotent.
Qed.

Lemma time_dimension_dates (txs : list Etl.RawTx) :
  map Etl.date (Etl.populate_time_dimension txs)
  = Etl.unique (map (fun t => Etl.date_of (Etl.transaction_date t)) txs).
Proof.
  unfold Etl.populate_time_dimension. rewrite map_map. simpl. apply map_id.
Qed.

Lemma time_dimension_NoDup (txs : list Etl.RawTx) :
  List.NoDup (map Etl.date (Etl.populate_time_dimension txs)).
Proof.
  rewrite time_dimension_dates. unfold Etl.unique, Etl.drop_duplicates.
  rewrite <- (map_id (Etl.drop_duplicates_from _ _ _)).
  apply (drop_duplicates_from_NoDup (fun x : Z => x)).
Qed.

(** The day of every transaction is in the time dimension. *)
Lemma time_dimension_covers (txs : list Etl.RawTx) (t : Etl.RawTx) :
  In t txs ->
  In (Etl.date_of (Etl.transaction_date t))
     (map Etl.date (Etl.populate_time_dimension txs)).
Proof.
  intros Hin. rewrite time_dimension_dates.
  unfold Etl.unique, Etl.drop_duplicates.
  destruct (drop_duplicates_from_keys (fun x : Z => x) []
              (map (fun t => Etl.date_of (Etl.transaction_date t)) txs)
              (Etl.date_of (Etl.transaction_date t)))
    as (y & Hy & Hk);
    [apply in_map_iff; exists t; split; [reflexivity|exact Hin]|intros []|].
  simpl in Hk. now subst.
Qed.

(** X3. The time dimension has one row for each day on which a
    transaction took place: no day twice, and a day is present exactly
    when some transaction falls on it. *)
Theorem time_dimension_distinct_days (txs : list Etl.RawTx) :
  List.NoDup (map Etl.date (Etl.populate_time_dimension txs))
  /\ (forall d, In d (map Etl.date (Etl.populate_time_dimension txs))
                <-> exists t, In t txs /\ Etl.date_of (Etl.transaction_date t) = d).
Proof.
  split; [apply time_dimension_NoDup|]. intros d. split.
  - rewrite time_dimension_dates. unfold Etl.unique, Etl.drop_duplicates.
    intros Hd. apply drop_duplicates_from_In in Hd. destruct Hd as [Hd _].
    apply in_map_iff in Hd. destruct Hd as (t & Ht & Hin). eauto.
  - intros (t & Hin & <-). now apply time_dimension_covers.
Qed.

Lemma time_ids_entry (df_time : list Etl.TimeRow) i row :
  List.NoDup (map Etl.date df_time) ->
  nth_error df_time i = Some row ->
  Etl.time_ids df_time !! Etl.date row = Some (Z.of_nat i + 1)%Z.
Proof.
  intros Hnd Hi. unfold Etl.time_ids. apply dict_entry.
  - rewrite map_fst_combine; [exact Hnd|].
    now rewrite !length_map, length_seq.
  - assert (nth_error (map Etl.date df_time) i = Some (Etl.date row)) as Hd
        by (rewrite nth_error_map, Hi; reflexivity).
    pose proof (combine_seq_In (fun i => (Z.of_nat i + 1)%Z)
                  (map Etl.date df_time) 0 i _ Hd) as Hin.
    now rewrite length_map in Hin.
Qed.

(** X4. Every loaded transaction has a [time_id], and the row of the
    time dimension with that number (counted from 1) carries the day of
    the transaction. *)
Theorem time_id_resolves (accts : list Acct.t) (txs : list Etl.RawTx)
        (kyc : list Etl.Kyc) (f : Etl.FactTx) :
  In f (Etl.fact_transactions (Etl.main accts txs kyc)) ->
  exists i row,
    Etl.time_id f = Some (Z.of_nat i + 1)%Z
    /\ nth_error (Etl.dim_time (Etl.main accts txs kyc)) i = Some row
    /\ Etl.date row = Etl.date_of (Etl.transaction_date (Etl.tx f)).
Proof.
  unfold Etl.main, Etl.load_data. simpl. intros Hf.
  apply in_map_iff in Hf. destruct Hf as (t & <- & Ht). simpl.
  set (cleaned := Etl.clean_transactions txs) in *.
  pose proof (time_dimension_NoDup cleaned) as Hnd.
  pose proof (time_dimension_covers cleaned t Ht) as Hin.
  apply in_map_iff in Hin. destruct Hin as (row & Hrow & Hin).
  apply In_nth_error in Hin. destruct Hin as (i & Hi).
  exists i, row. rewrite <- Hrow. split; [|split; [exact Hi|reflexivity]].
  now apply time_ids_entry.
Qed.

(** X5. The [client_id] of a loaded transaction is that of the cleaned
    account row with the transaction's account; it is null exactly when
    the accounts file has no such account. *)
Theorem client_id_resolves (accts : list Acct.t) (txs : list Etl.RawTx)
        (kyc : list Etl.Kyc) (f : Etl.FactTx) :
  In f (Etl.fact_transactions (Etl.main accts txs kyc)) ->
  (forall c, Etl.fact_client_id f = Some c
             <-> exists a, In a (Etl.clean_accounts accts)
                           /\ Acct.account_id a = Etl.account_id (Etl.tx f)
                           /\ Acct.client_id a = c)
  /\ (Etl.fact_client_id f = None
      <-> forall a, In a accts -> Acct.account_id a <> Etl.account_id (Etl.tx f)).
Proof.
  unfold Etl.main, Etl.load_data. simpl. intros Hf.
  apply in_map_iff in Hf. destruct Hf as (t & <- & _). simpl.
  unfold Etl.client_ids.
  set (cleaned := Etl.clean_accounts accts).
  assert (List.NoDup (map fst (map (fun a => (Acct.account_id a, Acct.client_id a))
                                   cleaned))) as Hnd.
  { rewrite map_map. simpl. apply drop_duplicates_from_NoDup. }
  split.
  - intros c. split.
    + intros Hl. apply dict_lookup, in_map_iff in Hl.
      destruct Hl as (a & [= Ha Hc] & Hin). eauto.
    + intros (a & Hin & Ha & Hc). apply dict_entry; [exact Hnd|].
      apply in_map_iff. exists a. split; [now rewrite Ha, Hc|exact Hin].
  - split.
    + intros Hnone a Hin Ha.
      destruct (drop_duplicates_from_keys Acct.account_id [] accts a Hin)
        as (y & Hy & Hk); [intros []|].
      assert (Etl.dict (map (fun a => (Acct.account_id a, Acct.client_id a)) cleaned)
                !! Etl.account_id t = Some (Acct.client_id y)) as Hsome.
      { apply dict_entry; [exact Hnd|]. apply in_map_iff. exists y.
        split; [now rewrite Hk, Ha|exact Hy]. }
      congruence.
    + intros Hno. apply dict_missing. rewrite map_map. simpl.
      intros Hin. apply in_map_iff in Hin. destruct Hin as (a & Ha & Hin).
      apply drop_duplicates_from_In in Hin. destruct Hin as [Hin _].
      exact (Hno a Hin Ha).
Qed.

End EtlTheorems.

Section EtlComposition.
Context `{Calendar} `{Platform}.
Local Open Scope Q_scope.

Lemma clean_transactions_nonempty (txs : list Etl.RawTx) :
  txs <> [] -> Etl.clean_transactions txs <> [].
Proof. destruct txs; [congruence|discriminate]. Qed.

Lemma nunique_pos (l : list Z) : l <> [] -> (0 < Pd.nunique l)%Z.
Proof.
  destruct l as [|x l]; [congruence|]. intros _. unfold Pd.nunique.
  assert (In x (Pd.unique_sorted (x :: l))) as Hin
      by (apply unique_sorted_In; now left).
  destruct (Pd.unique_sorted (x :: l)); [destruct Hin|simpl; lia].
Qed.

Lemma true_divide_pos n d :
  (0 < n)%Z -> (0 < d)%Z -> exists q, true_divide n d = Fin q /\ 0 < q.
Proof.
  intros Hn Hd. unfold true_divide.
  destruct (d =? 0)%Z eqn:E; [apply Z.eqb_eq in E; lia|].
  eexists. split; [reflexivity|].
  apply Qlt_shift_div_l.
  - change 0 with (inject_Z 0). rewrite <- Zlt_Qlt. exact Hd.
  - rewrite Qmult_0_l. change 0 with (inject_Z 0). rewrite <- Zlt_Qlt. exact Hn.
Qed.

(** X6. The time dimension the ETL builds from a non-empty transactions
    file has at least one distinct day, so the rate [tx_count_per_day]
    computed against it is a finite positive number for every account:
    after the ETL the division by the number of days never meets zero. *)
Theorem etl_time_dimension_makes_rates_finite
        (accts : list Acct.t) (txs : list Etl.RawTx) (kyc : list Etl.Kyc)
        (df_tx : list Tx.t) :
  txs <> [] ->
  (0 < Pd.nunique (map Etl.date (Etl.dim_time (Etl.main accts txs kyc))))%Z
  /\ List.Forall
       (fun f => exists q, DefaultFeatures.tx_count_per_day f = Fin q /\ 0 < q)
       (DefaultFeatures.features
          df_tx (map Etl.date (Etl.dim_time (Etl.main accts txs kyc)))).
Proof.
  intros Hne.
  assert (0 < Pd.nunique (map Etl.date (Etl.dim_time (Etl.main accts txs kyc))))%Z
    as Hdays.
  { apply nunique_pos. unfold Etl.main, Etl.load_data. simpl.
    rewrite time_dimension_dates.
    pose proof (clean_transactions_nonempty txs Hne) as Hc.
    destruct (Etl.clean_transactions txs); [congruence|discriminate]. }
  split; [exact Hdays|].
  apply List.Forall_forall. intros f Hf.
  destruct (features_In _ _ _ Hf) as (k & g & -> & Hg & _). simpl.
  apply true_divide_pos; [apply count_pos, Hg|exact Hdays].
Qed.

End EtlComposition.

(** ** Groups partition the rows *)

Section Partition.
Context {A K : Type} (eqb : K -> K -> bool) (key : A -> K).
Hypothesis eqb_eq : forall a b, eqb a b = true <-> a = b.
Local Open Scope Q_scope.

Lemma indicator_count (ks : list K) (k0 : K) :
  List.NoDup ks -> In k0 ks ->
  list_sum (map (fun k => if eqb k0 k then 1%nat else 0%nat) ks) = 1%nat.
Proof.
  induction 1 as [|k ks Hk Hnd IH]; intros Hin; [destruct Hin|]. simpl.
  destruct (eqb k0 k) eqn:E.
  - apply eqb_eq in E. subst k0. f_equal.
    clear IH Hin. induction ks as [|k' ks IH]; [reflexivity|]. simpl.
    destruct (eqb k k') eqn:E'.
    + apply eqb_eq in E'. subst. exfalso. apply Hk. now left.
    + apply IH; [intros Hin; apply Hk; now right|now inversion Hnd].
  - destruct Hin as [->|Hin].
    + assert (eqb k0 k0 = true) by now apply eqb_eq. congruence.
    + now apply IH.
Qed.

Lemma indicator_sum (ks : list K) (k0 : K) (v : Q) :
  List.NoDup ks -> In k0 ks ->
  Np.sum (map (fun k => if eqb k0 k then v else 0) ks) == v.
Proof.
  induction 1 as [|k ks Hk Hnd IH]; intros Hin; [destruct Hin|]. simpl.
  destruct (eqb k0 k) eqn:E.
  - apply eqb_eq in E. subst k0.
    assert (Np.sum (map (fun k' => if eqb k k' then v else 0) ks) == 0) as ->;
      [|ring].
    clear IH Hin. induction ks as [|k' ks IH]; [reflexivity|]. simpl.
    destruct (eqb k k') eqn:E'.
    + apply eqb_eq in E'. subst. exfalso. apply Hk. now left.
    + rewrite IH; [ring|intros Hin; apply Hk; now right|now inversion Hnd].
  - destruct Hin as [->|Hin].
    + assert (eqb k0 k0 = true) by now apply eqb_eq. congruence.
    + rewrite IH by exact Hin. ring.
Qed.

Lemma list_sum_add (a b : K -> nat) (ks : list K) :
  list_sum (map (fun k => a k + b k)%nat ks)
  = (list_sum (map a ks) + list_sum (map b ks))%nat.
Proof. induction ks as [|k ks IH]; simpl; [reflexivity|]. rewrite IH. lia. Qed.

Lemma sum_add (a b : K -> Q) (ks : list K) :
  Np.sum (map (fun k => a k + b k) ks) == Np.sum (map a ks) + Np.sum (map b ks).
Proof.
  unfold Np.sum. induction ks as [|k ks IH]; simpl; [ring|].
  rewrite IH. ring.
Qed.

(** Over distinct keys that cover the rows, the sizes of the groups add
    up to the number of rows. *)
Lemma groups_count (ks : list K) (l : list A) :
  List.NoDup ks -> (forall x, In x l -> In (key x) ks) ->
  list_sum (map (fun k => length (List.filter (fun x => eqb (key x) k) l)) ks)
  = length l.
Proof.
  intros Hnd. induction l as [|x l IH]; intros Hcov.
  - simpl. clear. induction ks as [|k ks IHk]; [reflexivity|exact IHk].
  - transitivity
      (list_sum (map (fun k => if eqb (key x) k then 1%nat else 0%nat) ks)
       + list_sum (map (fun k => length (List.filter (fun y => eqb (key y) k) l)) ks))%nat.
    + rewrite <- list_sum_add. f_equal. apply map_ext. intros k. simpl.
      destruct (eqb (key x) k); reflexivity.
    + rewrite IH by (intros y Hy; apply Hcov; now right).
      rewrite (indicator_count ks (key x) Hnd) by (apply Hcov; now left).
      reflexivity.
Qed.

(** Likewise the totals of the groups add up to the total of the rows. *)
Lemma groups_sum (f : A -> Q) (ks : list K) (l : list A) :
  List.NoDup ks -> (forall x, In x l -> In (key x) ks) ->
  Np.sum (map (fun k => Np.sum (map f (List.filter (fun x => eqb (key x) k) l))) ks)
  == Np.sum (map f l).
Proof.
  intros Hnd. induction l as [|x l IH]; intros Hcov.
  - simpl. clear. induction ks as [|k ks IHk]; [reflexivity|]. simpl.
    rewrite IHk. ring.
  - transitivity
      (Np.sum (map (fun k => if eqb (key x) k then f x else 0) ks)
       + Np.sum (map (fun k => Np.sum (map f (List.filter (fun y => eqb (key y) k) l))) ks)).
    + rewrite <- sum_add.
      assert (forall g1 g2 : K -> Q, (forall k, g1 k == g2 k) ->
                Np.sum (map g1 ks) == Np.sum (map g2 ks)) as Hext.
      { intros g1 g2 Hg. clear -Hg. unfold Np.sum.
        induction ks as [|k ks IHk]; simpl; [reflexivity|].
        now rewrite IHk, Hg. }
      apply Hext. intros k. simpl.
      destruct (eqb (key x) k); simpl; ring.
    + rewrite IH by (intros y Hy; apply Hcov; now right).
      rewrite (indicator_sum ks (key x) (f x) Hnd) by (apply Hcov; now left).
      simpl. reflexivity.
Qed.

End Partition.

Section KpiTheorems.
Local Open Scope Q_scope.

Lemma sort_by_length {A} (leb : A -> A -> bool) (l : list A) :
  length (Pd.sort_by leb l) = length l.
Proof.
  induction l as [|x l IH]; simpl; [reflexivity|]. rewrite <- IH.
  generalize (Pd.sort_by leb l). intros s.
  induction s as [|y s IHs]; simpl; [reflexivity|].
  destruct (leb x y); simpl; congruence.
Qed.

Lemma insert_by_NoDup {A} (leb : A -> A -> bool) x (l : list A) :
  List.NoDup (x :: l) -> List.NoDup (Pd.insert_by leb x l).
Proof.
  induction l as [|y l IH]; intros Hnd; simpl; [exact Hnd|].
  destruct (leb x y); [exact Hnd|].
  inversion Hnd as [|a b Hx Hnd']; subst.
  inversion Hnd' as [|a b Hy Hnd'']; subst.
  constructor.
  - rewrite insert_by_In. intros [->|Hin]; [apply Hx; now left|contradiction].
  - apply IH. constructor; [|exact Hnd'']. intros Hin. apply Hx. now right.
Qed.

Lemma sort_by_NoDup {A} (leb : A -> A -> bool) (l : list A) :
  List.NoDup l -> List.NoDup (Pd.sort_by leb l).
Proof.
  induction 1 as [|x l Hx Hnd IH]; simpl; [constructor|].
  apply insert_by_NoDup. constructor; [|exact IH].
  now rewrite sort_by_In.
Qed.

Lemma str_seen_spec k seen : existsb (String.eqb k) seen = true <-> In k seen.
Proof.
  rewrite existsb_exists. split.
  - intros (x & Hin & E). apply String.eqb_eq in E. now subst.
  - intros Hin. exists k. split; [exact Hin|apply String.eqb_refl].
Qed.

Lemma unique_from_In seen l x :
  In x (Reporting.unique_from seen l) <-> In x l /\ ~ In x seen.
Proof.
  revert seen. induction l as [|y l IH]; intros seen; simpl; [tauto|].
  destruct (existsb (String.eqb y) seen) eqn:E.
  - apply str_seen_spec in E. rewrite IH. split; [tauto|].
    intros [[->|Hin] Hs]; [contradiction|tauto].
  - assert (~ In y seen) as Hy by (rewrite <- str_seen_spec; congruence).
    simpl. rewrite IH. simpl. split.
    + intros [->|[Hin Hs]]; [tauto|]. split; [tauto|]. intros Hs'. apply Hs. tauto.
    + intros [[->|Hin] Hs]; [tauto|].
      destruct (String.string_dec y x) as [->|Hne]; [tauto|]. right.
      split; [exact Hin|]. intros [E'|Hs']; [congruence|contradiction].
Qed.

Lemma unique_from_NoDup seen l : List.NoDup (Reporting.unique_from seen l).
Proof.
  revert seen. induction l as [|y l IH]; intros seen; simpl; [constructor|].
  destruct (existsb (String.eqb y) seen); [apply IH|].
  constructor; [|apply IH]. rewrite unique_from_In. intros [_ Hs]. apply Hs. now left.
Qed.

Lemma kpi_keys {A} (key : A -> string) (l : list A) :
  map fst (Reporting.groupby key l)
  = Pd.sort_by String.leb (Reporting.unique (map key l)).
Proof. unfold Reporting.groupby. rewrite map_map. simpl. apply map_id. Qed.

Lemma Z_sum_of_nat {B} (g : B -> nat) (l : list B) :
  fold_right Z.add 0%Z (map (fun x => Z.of_nat (g x)) l)
  = Z.of_nat (list_sum (map g l)).
Proof. induction l as [|x l IH]; simpl fold_right; [reflexivity|]. simpl. lia. Qed.

(** X7. The KPI summary has one row for each transaction type that
    occurs, and its rows partition the table: the counts add up to the
    number of transactions and the totals to the total amount. *)
Theorem kpi_summary_partitions (df : list Tx.t) :
  List.NoDup (map Reporting.transaction_type (Reporting.generate_kpi_summary df))
  /\ (forall ty,
        In ty (map Reporting.transaction_type (Reporting.generate_kpi_summary df))
        <-> exists t, In t df /\ Tx.transaction_type t = ty)
  /\ fold_right Z.add 0%Z (map Reporting.count (Reporting.generate_kpi_summary df))
     = Z.of_nat (length df)
  /\ Np.sum (map Reporting.total_amount (Reporting.generate_kpi_summary df))
     == Np.sum (map Tx.amount df).
Proof.
  set (ks := Pd.sort_by String.leb (Reporting.unique (map Tx.transaction_type df))).
  assert (List.NoDup ks) as Hnd by apply sort_by_NoDup, unique_from_NoDup.
  assert (forall ty, In ty ks <-> exists t, In t df /\ Tx.transaction_type t = ty)
    as Hks.
  { intros ty. unfold ks, Reporting.unique.
    rewrite sort_by_In, unique_from_In, in_map_iff. split.
    - intros [(t & Ht & Hin) _]. eauto.
    - intros (t & Hin & Ht). split; [eauto|intros []]. }
  assert (map Reporting.transaction_type (Reporting.generate_kpi_summary df) = ks)
    as Htypes.
  { unfold Reporting.generate_kpi_summary. rewrite map_map. simpl.
    rewrite <- (map_map fst (fun k : string => k)), map_id. apply kpi_keys. }
  rewrite Htypes. split; [exact Hnd|]. split; [exact Hks|].
  unfold Reporting.generate_kpi_summary, Reporting.groupby. fold ks.
  rewrite !map_map. simpl. split.
  - unfold Pd.count.
    rewrite (Z_sum_of_nat
               (fun k => length (List.filter
                                   (fun x => String.eqb (Tx.transaction_type x) k) df))).
    f_equal. apply (groups_count String.eqb Tx.transaction_type String.eqb_eq);
      [exact Hnd|]. intros x Hx. apply Hks. eauto.
  - apply (groups_sum String.eqb Tx.transaction_type String.eqb_eq Tx.amount);
      [exact Hnd|]. intros x Hx. apply Hks. eauto.
Qed.

End KpiTheorems.

Section FeatureCounts.
Context `{Platform}.

(** X8. [features] has one row for each account, in increasing order
    of account id; every row counts at least one transaction and the
    counts add up to the number of transactions. *)
Theorem features_counts_partition (df_tx : list Tx.t) (df_time : list Z) :
  StronglySorted Z.lt
    (map DefaultFeatures.account_id (DefaultFeatures.features df_tx df_time))
  /\ (forall k, In k (map DefaultFeatures.account_id
                          (DefaultFeatures.features df_tx df_time))
                <-> exists t, In t df_tx /\ Tx.account_id t = k)
  /\ List.Forall (fun f => (0 < DefaultFeatures.tx_count f)%Z)
                 (DefaultFeatures.features df_tx df_time)
  /\ fold_right Z.add 0%Z
       (map DefaultFeatures.tx_count (DefaultFeatures.features df_tx df_time))
     = Z.of_nat (length df_tx).
Proof.
  rewrite features_accounts.
  set (sorted := Pd.sort_by DefaultFeatures.by_account_and_date df_tx).
  split; [apply unique_sorted_increasing|]. split; [|split].
  - intros k. rewrite unique_sorted_In, in_map_iff. unfold sorted. split.
    + intros (t & Ht & Hin). apply sort_by_In in Hin. eauto.
    + intros (t & Hin & Ht). exists t. split; [exact Ht|now apply sort_by_In].
  - apply List.Forall_forall. intros f Hf.
    destruct (features_In _ _ _ Hf) as (k & g & -> & Hg & _).
    simpl. apply count_pos, Hg.
  - unfold DefaultFeatures.features, Pd.groupby. fold sorted.
    rewrite !map_map. simpl. unfold Pd.count.
    rewrite (Z_sum_of_nat
               (fun k => length (List.filter (fun x => (Tx.account_id x =? k)%Z)
                                             sorted))).
    rewrite <- (sort_by_length DefaultFeatures.by_account_and_date df_tx).
    fold sorted. f_equal.
    apply (groups_count Z.eqb Tx.account_id Z.eqb_eq).
    + apply increasing_NoDup, unique_sorted_increasing.
    + intros x Hx. apply unique_sorted_In. now apply in_map.
Qed.

End FeatureCounts.

(** ** How many values lie beyond a quantile *)

Section QuantileCounts.
Local Open Scope Q_scope.

Lemma insert_sorted_filter_length (p : Q -> bool) x l :
  length (List.filter p (Np.insert_sorted x l)) = length (List.filter p (x :: l)).
Proof.
  induction l as [|y l IH]; simpl; [reflexivity|].
  destruct (Qle_bool x y); simpl; [reflexivity|].
  simpl in IH. destruct (p y), (p x); simpl in *; lia.
Qed.

Lemma sort_filter_length (p : Q -> bool) l :
  length (List.filter p (Np.sort l)) = length (List.filter p l).
Proof.
  induction l as [|x l IH]; simpl; [reflexivity|].
  rewrite insert_sorted_filter_length. simpl. destruct (p x); simpl; lia.
Qed.

Lemma filter_length_le {A} (p : A -> bool) (l : list A) :
  (length (List.filter p l) <= length l)%nat.
Proof. induction l as [|x l IH]; simpl; [lia|]. destruct (p x); simpl; lia. Qed.

Lemma filter_all {A} (p : A -> bool) (l : list A) :
  List.Forall (fun x => p x = true) l -> length (List.filter p l) = length l.
Proof. induction 1 as [|x l Hx _ IH]; simpl; [reflexivity|]. rewrite Hx. simpl. lia. Qed.

(** In a sorted array every value from position [p] on is at least the
    value at [p]. *)
Lemma count_ge_sorted (s : list Q) t p :
  StronglySorted Qle s -> (p < length s)%nat -> t <= nth p s 0 ->
  (length s - p <= length (List.filter (Qle_bool t) s))%nat.
Proof.
  intros Hs. revert p. induction Hs as [|x s Hs IH Hall]; intros p Hp Ht;
    simpl in Hp; [lia|].
  destruct p as [|p].
  - simpl in Ht. rewrite filter_all; [simpl; lia|].
    constructor; [now apply Qle_bool_iff|].
    eapply List.Forall_impl; [|exact Hall]. intros y Hy. simpl in Hy.
    apply Qle_bool_iff. lra.
  - simpl in Ht. specialize (IH p ltac:(lia) Ht). simpl.
    destruct (Qle_bool t x); simpl; lia.
Qed.

(** ... and no value up to position [p] exceeds the value at [p]. *)
Lemma count_gt_sorted (s : list Q) t p :
  StronglySorted Qle s -> (p < length s)%nat -> nth p s 0 <= t ->
  (length (List.filter (fun x => Np.Qltb t x) s) <= length s - 1 - p)%nat.
Proof.
  intros Hs. revert p. induction Hs as [|x s Hs IH Hall]; intros p Hp Ht;
    simpl in Hp; [lia|].
  assert (x <= t) as Hx.
  { destruct p as [|p]; [exact Ht|]. simpl in Ht.
    rewrite List.Forall_forall in Hall.
    specialize (Hall (nth p s 0) ltac:(apply nth_In; lia)). simpl in Hall. lra. }
  simpl. unfold Np.Qltb at 1.
  assert (Qle_bool x t = true) as -> by now apply Qle_bool_iff. simpl.
  destruct p as [|p].
  - pose proof (filter_length_le (fun y => Np.Qltb t y) s). lia.
  - simpl in Ht. specialize (IH p ltac:(lia) Ht). lia.
Qed.

Lemma count_true_filter {A} (p : A -> bool) (l : list A) :
  Np.count_true (map p l) = length (List.filter p l).
Proof.
  unfold Np.count_true. induction l as [|x l IH]; simpl; [reflexivity|].
  destruct (p x); simpl; congruence.
Qed.

Lemma inject_nat_minus_one n :
  (0 < n)%nat -> 0 <= inject_Z (Z.of_nat n) - 1.
Proof.
  intros Hn. assert (1 <= inject_Z (Z.of_nat n)); [|lra].
  change 1 with (inject_Z 1). rewrite <- Zle_Qle. lia.
Qed.

(** At least [(1 - q) (n - 1)] of [n] values are greater than or equal
    to their [q]-quantile. *)
Lemma count_ge_quantile (r : list Q) q :
  r <> [] -> 0 <= q ->
  (1 - q) * (inject_Z (Z.of_nat (length r)) - 1)
  <= inject_Z (Z.of_nat (length (List.filter (Qle_bool (Np.quantile r q)) r))).
Proof.
  intros Hr Hq. rewrite <- (sort_filter_length _ r). unfold Np.quantile.
  set (s := Np.sort r).
  assert (length s = length r) as Hlen by apply sort_length.
  assert (0 < length s)%nat as Hn by (rewrite Hlen; destruct r; simpl; [congruence|lia]).
  assert (s <> []) as Hs by (intros E; rewrite E in Hn; simpl in Hn; lia).
  set (h := q * (inject_Z (Z.of_nat (length s)) - 1)).
  pose proof (at_index_between s h (sort_sorted r) Hs) as [_ U].
  pose proof (count_ge_sorted s (Np.at_index s h) _ (sort_sorted r)
                (clip_index_lt (length s) (Qfloor h + 1) Hn) U) as Hc.
  pose proof (inject_nat_minus_one (length s) Hn) as Hn1.
  assert (0 <= h) as Hh by (unfold h; nra).
  assert (0 <= Qfloor h)%Z as Hf.
  { change 0%Z with (Qfloor 0). now apply Qfloor_resp_le. }
  pose proof (Qfloor_le h) as Hfl.
  assert (Z.of_nat (length s) - 1 - Qfloor h
          <= Z.of_nat (length (List.filter (Qle_bool (Np.at_index s h)) s)))%Z as Hz.
  { unfold Np.clip_index in Hc. lia. }
  rewrite Zle_Qle in Hz. unfold Zminus in Hz.
  rewrite !inject_Z_plus, !inject_Z_opp in Hz. change (inject_Z 1) with 1 in Hz.
  rewrite <- Hlen. fold h. unfold h in *. nra.
Qed.

(** Fewer than [(1 - q) (n - 1) + 1] of [n] values are greater than
    their [q]-quantile. *)
Lemma count_gt_quantile (r : list Q) q :
  r <> [] -> 0 <= q -> q <= 1 ->
  inject_Z (Z.of_nat (length (List.filter (fun x => Np.Qltb (Np.quantile r q) x) r)))
  < (1 - q) * (inject_Z (Z.of_nat (length r)) - 1) + 1.
Proof.
  intros Hr Hq0 Hq1. rewrite <- (sort_filter_length _ r). unfold Np.quantile.
  set (s := Np.sort r).
  assert (length s = length r) as Hlen by apply sort_length.
  assert (0 < length s)%nat as Hn by (rewrite Hlen; destruct r; simpl; [congruence|lia]).
  assert (s <> []) as Hs by (intros E; rewrite E in Hn; simpl in Hn; lia).
  set (h := q * (inject_Z (Z.of_nat (length s)) - 1)).
  pose proof (at_index_between s h (sort_sorted r) Hs) as [L _].
  pose proof (count_gt_sorted s (Np.at_index s h) _ (sort_sorted r)
                (clip_index_lt (length s) (Qfloor h) Hn) L) as Hc.
  pose proof (inject_nat_minus_one (length s) Hn) as Hn1.
  assert (0 <= h) as Hh by (unfold h; nra).
  assert (h <= inject_Z (Z.of_nat (length s) - 1)) as Hh1.
  { unfold Zminus. rewrite inject_Z_plus, inject_Z_opp.
    change (inject_Z 1) with 1. unfold h. nra. }
  assert (0 <= Qfloor h)%Z as Hf0.
  { change 0%Z with (Qfloor 0). now apply Qfloor_resp_le. }
  assert (Qfloor h <= Z.of_nat (length s) - 1)%Z as Hf1.
  { rewrite <- (Qfloor_Z (Z.of_nat (length s) - 1)). now apply Qfloor_resp_le. }
  pose proof (Qlt_floor h) as Hfl.
  assert (Z.of_nat (length (List.filter (fun x => Np.Qltb (Np.at_index s h) x) s))
          <= Z.of_nat (length s) - 1 - Qfloor h)%Z as Hz.
  { unfold Np.clip_index in Hc. lia. }
  rewrite Zle_Qle in Hz. unfold Zminus in Hz.
  rewrite !inject_Z_plus, !inject_Z_opp in Hz. change (inject_Z 1) with 1 in Hz.
  rewrite inject_Z_plus in Hfl. change (inject_Z 1) with 1 in Hfl.
  rewrite <- Hlen. fold h. unfold h in *. nra.
Qed.

End QuantileCounts.

Section ShareTheorems.
Context `{TreeEnsemble} `{Platform}.
Local Open Scope Q_scope.

(** X9. On a valid call [detect_anomalies] flags at least the share
    [contamination] of all transactions but one: with [n] transactions
    the number of flagged ones is at least [contamination * (n - 1)]. *)
Theorem flagged_at_least_contamination_share
        (w : World) (df : loc) (d : DataFrame) X c :
  frames w !! df = Some d ->
  Anomaly.design_matrix d = Some X -> X <> [] ->
  0 < c -> c <= 1 # 2 ->
  exists d',
    Anomaly.detect_anomalies df c w
    = (Ok df, set_frames (<[df := d']> (frames w)) w)
    /\ c * (inject_Z (Z.of_nat (length X)) - 1)
       <= inject_Z (Z.of_nat (Anomaly.n_anomalies d')).
Proof.
  intros Hd HX Hne Hc0 Hc1.
  destruct (detect_anomalies_valid w df d X c Hd HX Hne Hc0 Hc1)
    as (d' & Hrun & _ & _ & _ & Hraw).
  exists d'. split; [exact Hrun|].
  unfold Anomaly.n_anomalies. rewrite Hraw, count_true_filter.
  pose proof (count_ge_quantile (Anomaly.raw_scores X) (1 - c)
                (raw_scores_nonempty X Hne) ltac:(lra)) as Hcount.
  assert (length (Anomaly.raw_scores X) = length X) as Hlen.
  { unfold Anomaly.raw_scores, Sklearn.score_samples. now rewrite !length_map. }
  rewrite Hlen in Hcount.
  eapply Qle_trans; [|exact Hcount].
  pose proof (inject_nat_minus_one (length X)
                ltac:(destruct X; simpl; [congruence|lia])).
  nra.
Qed.

Lemma finite_values_Fin (vals : list Q) :
  Imputer.finite_values (map Fin vals) = vals.
Proof. induction vals as [|v vals IH]; simpl; [reflexivity|]. now rewrite IH. Qed.

Lemma labels_sum (thr : Q) (vals : list Q) :
  fold_right Z.add 0%Z
    (map (fun x => if Targets.fgt x (Fin thr) then 1%Z else 0%Z) (map Fin vals))
  = Z.of_nat (length (List.filter (fun v => Np.Qltb thr v) vals)).
Proof.
  induction vals as [|v vals IH]; [reflexivity|].
  cbn [map fold_right List.filter]. rewrite IH. simpl Targets.fgt.
  destruct (Np.Qltb thr v); simpl length; lia.
Qed.

Lemma labels_bound (vals : list Q) :
  vals <> [] ->
  inject_Z
    (fold_right Z.add 0%Z
       (map (fun x => if Targets.fgt x (Targets.series_quantile (map Fin vals) (8 # 10))
                      then 1%Z else 0%Z)
            (map Fin vals)))
  < (2 # 10) * (inject_Z (Z.of_nat (length vals)) - 1) + 1.
Proof.
  intros Hne. unfold Targets.series_quantile. rewrite finite_values_Fin.
  destruct vals as [|v0 vals0] eqn:E; [congruence|]. rewrite <- E in *.
  rewrite labels_sum.
  pose proof (count_gt_quantile vals (8 # 10) Hne ltac:(lra) ltac:(lra)) as Hc.
  eapply Qlt_le_trans; [exact Hc|]. lra.
Qed.

Lemma features_avg_finite df_tx df_time :
  exists vals,
    map DefaultFeatures.avg_amount (DefaultFeatures.features df_tx df_time)
    = map Fin vals.
Proof.
  assert (forall fs : list DefaultFeatures.t,
             (forall f, In f fs -> exists q, DefaultFeatures.avg_amount f = Fin q) ->
             exists vals, map DefaultFeatures.avg_amount fs = map Fin vals) as Hgen.
  { induction fs as [|f fs IH]; intros Hall; [exists []; reflexivity|].
    destruct (Hall f (or_introl eq_refl)) as (q & Hq).
    destruct IH as (vals & Hv); [intros g Hg; apply Hall; now right|].
    exists (q :: vals). simpl. now rewrite Hq, Hv. }
  apply Hgen. intros f Hf.
  destruct (features_In _ _ _ Hf) as (k & g & -> & Hg & _). simpl.
  unfold Pd.mean. destruct (map Tx.amount g) eqn:E; [|eauto].
  apply map_eq_nil in E. contradiction.
Qed.

(** X10. The simulated default target marks fewer than a fifth of the
    accounts but one, plus one: with [n] accounts, the number of accounts
    labelled 1 is below [0.2 * (n - 1) + 1]. *)
Theorem simulated_defaults_below_a_fifth (df_tx : list Tx.t) (df_time : list Z) :
  df_tx <> [] ->
  inject_Z
    (fold_right Z.add 0%Z
       (Targets.simulate_is_default (DefaultFeatures.features df_tx df_time)))
  < (2 # 10)
    * (inject_Z (Z.of_nat (length (DefaultFeatures.features df_tx df_time))) - 1)
    + 1.
Proof.
  intros Hne. pose proof (features_nonempty df_tx df_time Hne) as Hfs.
  destruct (features_avg_finite df_tx df_time) as (vals & Hv).
  unfold Targets.simulate_is_default. cbv zeta.
  rewrite <- (map_map DefaultFeatures.avg_amount
                      (fun x => if Targets.fgt x _ then 1%Z else 0%Z)).
  rewrite Hv.
  assert (length (DefaultFeatures.features df_tx df_time) = length vals) as Hlen.
  { rewrite <- (length_map DefaultFeatures.avg_amount), Hv. apply length_map. }
  rewrite Hlen. apply labels_bound.
  intros E. rewrite E in Hlen. simpl in Hlen.
  destruct (DefaultFeatures.features df_tx df_time); [congruence|discriminate].
Qed.

(** X11. The simulated churn target marks fewer than a fifth of the
    clients but one, plus one: with [n] clients, the number of clients
    labelled 1 is below [0.2 * (n - 1) + 1]. *)
Theorem simulated_churn_below_a_fifth (features : list ChurnFeatures.t) :
  features <> [] ->
  inject_Z (fold_right Z.add 0%Z (Targets.simulate_is_churn features))
  < (2 # 10) * (inject_Z (Z.of_nat (length features)) - 1) + 1.
Proof.
  intros Hne. unfold Targets.simulate_is_churn. cbv zeta.
  rewrite <- (map_map (fun f => inject_Z (ChurnFeatures.days_since_last f)) Fin).
  rewrite <- (length_map (fun f => inject_Z (ChurnFeatures.days_since_last f))).
  apply labels_bound. destruct features; [congruence|discriminate].
Qed.

End ShareTheorems.

(** ** Sorting and grouping commute *)

Section SortFacts.
Context {A : Type} (leb : A -> A -> bool).
Hypothesis leb_total : forall a b, leb a b = false -> leb b a = true.
Hypothesis leb_trans : forall a b c, leb a b = true -> leb b c = true -> leb a c = true.

Lemma insert_by_sorted x (l : list A) :
  StronglySorted (fun a b => leb a b = true) l ->
  StronglySorted (fun a b => leb a b = true) (Pd.insert_by leb x l).
Proof.
  induction 1 as [|y l Hs IH Hall]; simpl.
  - constructor; constructor.
  - destruct (leb x y) eqn:E.
    + constructor; [constructor; assumption|].
      constructor; [exact E|].
      eapply List.Forall_impl; [|exact Hall]. intros z Hz. simpl in Hz.
      eapply leb_trans; eassumption.
    + constructor; [exact IH|].
      apply List.Forall_forall. intros z Hz. apply insert_by_In in Hz.
      destruct Hz as [->|Hz]; [now apply leb_total|].
      rewrite List.Forall_forall in Hall. apply Hall, Hz.
Qed.

Lemma sort_by_sorted (l : list A) :
  StronglySorted (fun a b => leb a b = true) (Pd.sort_by leb l).
Proof.
  induction l as [|x l IH]; simpl; [constructor|].
  apply insert_by_sorted, IH.
Qed.

End SortFacts.

Section GroupOrder.

Lemma by_account_and_date_total a b :
  DefaultFeatures.by_account_and_date a b = false ->
  DefaultFeatures.by_account_and_date b a = true.
Proof.
  unfold DefaultFeatures.by_account_and_date.
  destruct (Z.ltb_spec (Tx.account_id a) (Tx.account_id b)),
           (Z.eqb_spec (Tx.account_id a) (Tx.account_id b)),
           (Z.leb_spec (Tx.transaction_date a) (Tx.transaction_date b)),
           (Z.ltb_spec (Tx.account_id b) (Tx.account_id a)),
           (Z.eqb_spec (Tx.account_id b) (Tx.account_id a)),
           (Z.leb_spec (Tx.transaction_date b) (Tx.transaction_date a));
    simpl; intros; try reflexivity; try discriminate; lia.
Qed.

Lemma by_account_and_date_trans a b c :
  DefaultFeatures.by_account_and_date a b = true ->
  DefaultFeatures.by_account_and_date b c = true ->
  DefaultFeatures.by_account_and_date a c = true.
Proof.
  unfold DefaultFeatures.by_account_and_date.
  destruct (Z.ltb_spec (Tx.account_id a) (Tx.account_id b)),
           (Z.eqb_spec (Tx.account_id a) (Tx.account_id b)),
           (Z.leb_spec (Tx.transaction_date a) (Tx.transaction_date b)),
           (Z.ltb_spec (Tx.account_id b) (Tx.account_id c)),
           (Z.eqb_spec (Tx.account_id b) (Tx.account_id c)),
           (Z.leb_spec (Tx.transaction_date b) (Tx.transaction_date c)),
           (Z.ltb_spec (Tx.account_id a) (Tx.account_id c)),
           (Z.eqb_spec (Tx.account_id a) (Tx.account_id c)),
           (Z.leb_spec (Tx.transaction_date a) (Tx.transaction_date c));
    simpl; intros; try reflexivity; try discriminate; lia.
Qed.

Lemma filter_insert_by_account (k : Z) (x : Tx.t) (s : list Tx.t) :
  StronglySorted (fun a b => DefaultFeatures.by_account_and_date a b = true) s ->
  List.filter (fun t => (Tx.account_id t =? k)%Z)
              (Pd.insert_by DefaultFeatures.by_account_and_date x s)
  = if (Tx.account_id x =? k)%Z
    then Pd.insert_by App.by_date x (List.filter (fun t => (Tx.account_id t =? k)%Z) s)
    else List.filter (fun t => (Tx.account_id t =? k)%Z) s.
Proof.
  induction 1 as [|y s Hs IH Hall].
  - simpl. destruct (Tx.account_id x =? k)%Z; reflexivity.
  - cbn [Pd.insert_by].
    destruct (DefaultFeatures.by_account_and_date x y) eqn:E.
    + change (List.filter (fun t => (Tx.account_id t =? k)%Z) (x :: y :: s))
        with (if (Tx.account_id x =? k)%Z
              then x :: List.filter (fun t => (Tx.account_id t =? k)%Z) (y :: s)
              else List.filter (fun t => (Tx.account_id t =? k)%Z) (y :: s)).
      destruct (Tx.account_id x =? k)%Z eqn:Ex; [|reflexivity].
      assert (forall z, In z (y :: s) -> (Tx.account_id z =? k)%Z = true ->
                        App.by_date x z = true) as Hz.
      { intros z Hin Hk.
        assert (DefaultFeatures.by_account_and_date x z = true) as Hxz.
        { destruct Hin as [<-|Hin]; [exact E|].
          rewrite List.Forall_forall in Hall.
          eapply by_account_and_date_trans; [exact E|apply Hall, Hin]. }
        apply Z.eqb_eq in Ex, Hk. revert Hxz.
        unfold DefaultFeatures.by_account_and_date, App.by_date.
        destruct (Z.ltb_spec (Tx.account_id x) (Tx.account_id z)),
                 (Z.eqb_spec (Tx.account_id x) (Tx.account_id z));
          simpl; intros; try discriminate; try assumption; lia. }
      destruct (List.filter (fun t => (Tx.account_id t =? k)%Z) (y :: s))
        as [|z g] eqn:Ef; [reflexivity|].
      assert (In z (y :: s) /\ (Tx.account_id z =? k)%Z = true) as [Hin Hk].
      { apply (proj1 (filter_In (fun t => (Tx.account_id t =? k)%Z) z (y :: s))).
        rewrite Ef. now left. }
      cbn [Pd.insert_by]. now rewrite (Hz z Hin Hk).
    + cbn [List.filter]. rewrite IH.
      destruct (Tx.account_id y =? k)%Z eqn:Ey;
        destruct (Tx.account_id x =? k)%Z eqn:Ex; try reflexivity.
      cbn [Pd.insert_by].
      assert (App.by_date x y = false) as ->; [|reflexivity].
      apply Z.eqb_eq in Ex, Ey. revert E.
      unfold DefaultFeatures.by_account_and_date, App.by_date.
      destruct (Z.ltb_spec (Tx.account_id x) (Tx.account_id y)),
               (Z.eqb_spec (Tx.account_id x) (Tx.account_id y));
        simpl; intros; try discriminate; try assumption; lia.
Qed.

(** The rows of one account in the frame sorted by account and date are
    the rows of that account sorted by date. *)
Lemma filter_sort_by_account (k : Z) (l : list Tx.t) :
  List.filter (fun t => (Tx.account_id t =? k)%Z)
              (Pd.sort_by DefaultFeatures.by_account_and_date l)
  = Pd.sort_by App.by_date (List.filter (fun t => (Tx.account_id t =? k)%Z) l).
Proof.
  induction l as [|x l IH]; simpl; [reflexivity|].
  rewrite filter_insert_by_account
    by (apply sort_by_sorted;
        [apply by_account_and_date_total|apply by_account_and_date_trans]).
  rewrite IH. destruct (Tx.account_id x =? k)%Z; reflexivity.
Qed.

End GroupOrder.

Section ScoreDefaultTheorems.
Context `{TreeEnsemble} `{Classifiers} `{Platform}.
Local Open Scope Q_scope.

(** X12. [score_default] answers 404 for an account without
    transactions: the classifier is not consulted and nothing changes. *)
Theorem score_default_unknown_account (w : World) (k : Z) :
  (forall t, In t (fact_transactions (db w)) -> Tx.account_id t <> k) ->
  App.score_default k w = (Raise (HTTPException 404), w).
Proof.
  intros Hno. unfold App.score_default, mbind, M_bind, bind, gets, raise. simpl.
  rewrite sort_by_length.
  assert (List.filter (fun t => (Tx.account_id t =? k)%Z) (fact_transactions (db w))
          = []) as ->; [|reflexivity].
  destruct (List.filter _ _) as [|t g] eqn:E; [reflexivity|]. exfalso.
  assert (In t (t :: g)) as Hin by now left. rewrite <- E in Hin.
  apply filter_In in Hin. destruct Hin as [Hin Hk]. apply Z.eqb_eq in Hk.
  exact (Hno t Hin Hk).
Qed.

(** X13. For an account that has transactions, the row [score_default]
    hands to the classifier is the row of that account in the feature
    matrix of the batch aggregation, before imputation. *)
Theorem score_default_uses_batch_row (w : World) (k : Z) :
  (exists t, In t (fact_transactions (db w)) /\ Tx.account_id t = k) ->
  exists f,
    In f (DefaultFeatures.features (fact_transactions (db w)) (dim_time (db w)))
    /\ DefaultFeatures.account_id f = k
    /\ App.score_default k w
       = (match logreg_predict_proba [DefaultFeatures.X_row f] with
          | Ok (score :: _) => Ok (k, score)
          | Ok [] => Raise IndexError
          | Raise e => Raise e
          end, w).
Proof.
  intros (t & Hin & Hk).
  set (txs := fact_transactions (db w)) in *.
  set (g := List.filter (fun t => (Tx.account_id t =? k)%Z)
                        (Pd.sort_by DefaultFeatures.by_account_and_date txs)).
  assert (g <> []) as Hg.
  { intros E. assert (In t g) as Ht.
    { apply filter_In. split; [now apply sort_by_In|now apply Z.eqb_eq]. }
    rewrite E in Ht. exact Ht. }
  exists (DefaultFeatures.aggregate (Pd.nunique (dim_time (db w))) k g).
  split; [|split; [reflexivity|]].
  - unfold DefaultFeatures.features. apply in_map_iff. exists (k, g).
    split; [reflexivity|]. now apply groupby_key_In.
  - unfold App.score_default, mbind, M_bind, bind, gets, raise, lift, ret. simpl.
    fold txs. rewrite <- filter_sort_by_account. fold g.
    destruct g as [|t0 g0] eqn:Eg; [congruence|]. simpl length. simpl Nat.eqb.
    cbv iota. unfold App.default_row, DefaultFeatures.X_row,
                DefaultFeatures.aggregate. simpl.
    destruct (logreg_predict_proba _) as [[|s p]|e]; reflexivity.
Qed.

Lemma by_date_sorted_dates (g : list Tx.t) :
  StronglySorted (fun a b => App.by_date a b = true) g ->
  StronglySorted Z.le (map Tx.transaction_date g).
Proof.
  induction 1 as [|x g Hs IH Hall]; simpl; constructor; [exact IH|].
  apply List.Forall_forall. intros d Hd. apply in_map_iff in Hd.
  destruct Hd as (y & <- & Hy). rewrite List.Forall_forall in Hall.
  specialize (Hall y Hy). unfold App.by_date in Hall. now apply Z.leb_le.
Qed.

Lemma diff_from_days (prev : Z) (l : list Z) :
  StronglySorted Z.le (prev :: l) ->
  length (Pd.dropna (Pd.dt_days (Pd.diff_from prev l))) = length l
  /\ List.Forall (fun d => (0 <= d)%Z) (Pd.dropna (Pd.dt_days (Pd.diff_from prev l))).
Proof.
  revert prev. induction l as [|x l IH]; intros prev Hs; simpl;
    [split; [reflexivity|constructor]|].
  inversion Hs as [|a b Hs' Hall]; subst.
  destruct (IH x Hs') as [Hlen Hpos]. split; [now rewrite Hlen|].
  constructor; [|exact Hpos].
  apply List.Forall_inv in Hall. unfold Pd.days.
  apply Z.div_pos; lia.
Qed.

Lemma sum_nonneg (l : list Z) :
  List.Forall (fun d => (0 <= d)%Z) l -> 0 <= Np.sum (map inject_Z l).
Proof.
  unfold Np.sum. induction 1 as [|d l Hd _ IH]; simpl; [lra|].
  assert (0 <= inject_Z d) by (change 0 with (inject_Z 0); now rewrite <- Zle_Qle).
  lra.
Qed.

Lemma avg_delay_sorted (dates : list Z) :
  StronglySorted Z.le dates ->
  ((length dates <= 1)%nat /\ DefaultFeatures.avg_delay dates = NaN)
  \/ ((1 < length dates)%nat
      /\ exists q, DefaultFeatures.avg_delay dates = Fin q /\ 0 <= q).
Proof.
  intros Hs. destruct dates as [|d0 l]; [left; split; [simpl; lia|reflexivity]|].
  destruct (diff_from_days d0 l Hs) as [Hlen Hpos].
  unfold DefaultFeatures.avg_delay. simpl Pd.diff. simpl Pd.dt_days. simpl Pd.dropna.
  destruct (Pd.dropna (Pd.dt_days (Pd.diff_from d0 l))) as [|x ds] eqn:E.
  - left. simpl in Hlen. split; [simpl; lia|reflexivity].
  - right. split; [simpl in *; lia|]. eexists. split; [reflexivity|].
    apply Qle_shift_div_l.
    + unfold Pd.count. change 0 with (inject_Z 0). rewrite <- Zlt_Qlt.
      simpl length. lia.
    + rewrite Qmult_0_l. apply (sum_nonneg (x :: ds)). exact Hpos.
Qed.

(** X14. In [features] the average delay of an account is null exactly
    when the account has a single transaction, and otherwise a
    non-negative number: within an account the transactions are taken in
    the order of their dates. *)
Theorem avg_delay_days_nonnegative (df_tx : list Tx.t) (df_time : list Z)
        (f : DefaultFeatures.t) :
  In f (DefaultFeatures.features df_tx df_time) ->
  (DefaultFeatures.tx_count f = 1%Z /\ DefaultFeatures.avg_delay_days f = NaN)
  \/ ((1 < DefaultFeatures.tx_count f)%Z
      /\ exists q, DefaultFeatures.avg_delay_days f = Fin q /\ 0 <= q).
Proof.
  intros Hf. destruct (features_In _ _ _ Hf) as (k & g & -> & Hg & Eg).
  rewrite filter_sort_by_account in Eg.
  assert (StronglySorted Z.le (map Tx.transaction_date g)) as Hs.
  { apply by_date_sorted_dates. rewrite Eg. apply sort_by_sorted.
    - intros a b. unfold App.by_date. intros E. apply Z.leb_le.
      apply Z.leb_gt in E. lia.
    - intros a b c. unfold App.by_date. rewrite !Z.leb_le. lia. }
  simpl. unfold Pd.count.
  destruct (avg_delay_sorted _ Hs) as [[Hlen Hnan]|[Hlen Hq]];
    rewrite length_map in Hlen.
  - left. split; [|exact Hnan]. destruct g as [|t [|u g]]; simpl in *;
      [congruence|reflexivity|lia].
  - right. split; [lia|exact Hq].
Qed.

End ScoreDefaultTheorems.

Section EndpointRun.
Context `{TreeEnsemble}.
Local Open Scope Q_scope.

(** The endpoint loads the table into a new frame, copies it into a
    second one and scores the copy. *)
Lemma detect_anomaly_run (w : World) (c : Q) :
  let txs := fact_transactions (db w) in
  let l0 := fresh (dom (frames w)) in
  let fr1 := <[l0 := Anomaly.tx_frame txs]> (frames w) in
  let l1 := fresh (dom fr1) in
  let fr2 := <[l1 := Anomaly.tx_frame txs]> fr1 in
  App.detect_anomaly c w
  = match Anomaly.scored_frame (Anomaly.tx_frame txs) c with
    | Ok d1 =>
        (Ok (firstn 100
               (Pd.sort_by App.by_score_desc
                  (to_dict_records (getitem_mask d1 (Anomaly.is_anomaly d1))))),
         set_frames (<[l1 := d1]> fr2) w)
    | Raise e => (Raise e, set_frames fr2 w)
    end.
Proof.
  cbv zeta. unfold App.detect_anomaly, Anomaly.load_data, Anomaly.copy,
    Anomaly.alloc, Anomaly.deref.
  unfold mbind, M_bind, bind, gets. cbv zeta.
  cbn [frames set_frames]. rewrite lookup_insert_eq.
  erewrite (detect_anomalies_run _ _ (Anomaly.tx_frame (fact_transactions (db w))))
    by (cbn [frames set_frames]; apply lookup_insert_eq).
  destruct (Anomaly.scored_frame _ c) as [d1|e]; [|reflexivity].
  unfold ret. cbn [frames set_frames].
  rewrite lookup_insert_eq. reflexivity.
Qed.

Lemma mask_self (col : column) :
  List.Forall (fun c => c = CBool true) (mask_column (map is_true col) col).
Proof.
  induction col as [|c col IH]; simpl; [constructor|].
  destruct (is_true c) eqn:E; [|exact IH].
  constructor; [|exact IH]. now destruct c as [| |[|]| |].
Qed.

Lemma mask_column_length (mask : list bool) (col : column) :
  length mask = length col ->
  length (mask_column mask col) = Np.count_true mask.
Proof.
  revert col. induction mask as [|b mask IH]; intros [|c col] Hlen;
    simpl in *; try reflexivity; try discriminate.
  destruct b; simpl; unfold Np.count_true in *; simpl; rewrite IH by congruence;
    reflexivity.
Qed.

(** Every record of [df[df["is_anomaly"]]] carries a set flag. *)
Lemma masked_records_flagged (d : DataFrame) (col : column) r :
  columns d !! "is_anomaly" = Some col ->
  In r (to_dict_records (getitem_mask d (Anomaly.is_anomaly d))) ->
  r !! "is_anomaly" = Some (CBool true).
Proof.
  intros Hcol Hr. unfold to_dict_records in Hr. apply in_map_iff in Hr.
  destruct Hr as (j & <- & Hj). apply in_seq in Hj.
  assert (Anomaly.is_anomaly d = map is_true col) as Emask
      by (unfold Anomaly.is_anomaly, column in *; now rewrite Hcol).
  rewrite Emask in *. unfold getitem_mask in Hj. cbn [nrows] in Hj.
  unfold row, getitem_mask. cbn [columns].
  rewrite lookup_omap, lookup_fmap. unfold column in *. rewrite Hcol. simpl.
  pose proof (mask_self col) as Hall.
  assert (j < length (mask_column (map is_true col) col))%nat as Hlt.
  { rewrite mask_column_length by now rewrite length_map. lia. }
  destruct (lookup_lt_is_Some_2 _ _ Hlt) as (c & Hc). rewrite Hc. f_equal.
  rewrite List.Forall_forall in Hall. apply Hall.
  apply list_elem_of_In. eapply list_elem_of_lookup_2. exact Hc.
Qed.

Lemma firstn_In {A} n (l : list A) x : In x (firstn n l) -> In x l.
Proof.
  revert l. induction n as [|n IH]; intros [|y l]; simpl; try tauto.
  intros [->|Hin]; [now left|right; now apply IH].
Qed.

Lemma firstn_sorted {A} (R : A -> A -> Prop) n (l : list A) :
  StronglySorted R l -> StronglySorted R (firstn n l).
Proof.
  intros Hs. revert n. induction Hs as [|x l Hs IH Hall]; intros [|n]; simpl;
    try constructor; [apply IH|].
  apply List.Forall_forall. intros y Hy. apply firstn_In in Hy.
  rewrite List.Forall_forall in Hall. now apply Hall.
Qed.

Lemma sorted_weaken {A} (R S : A -> A -> Prop) (l : list A) :
  (forall a b, R a b -> S a b) -> StronglySorted R l -> StronglySorted S l.
Proof.
  intros HRS. induction 1 as [|x l Hs IH Hall]; constructor; [exact IH|].
  eapply List.Forall_impl; [|exact Hall]. intros y. apply HRS.
Qed.

Lemma by_score_desc_sorted (l : list (gmap string cell)) :
  StronglySorted (fun a b => App.record_score b <= App.record_score a)
                 (Pd.sort_by App.by_score_desc l).
Proof.
  apply (sorted_weaken (fun a b => App.by_score_desc a b = true)).
  - intros a b. unfold App.by_score_desc. apply Qle_bool_iff.
  - apply sort_by_sorted.
    + intros a b. unfold App.by_score_desc. intros E.
      apply Qle_bool_false in E. apply Qle_bool_iff. lra.
    + intros a b c'. unfold App.by_score_desc. rewrite !Qle_bool_iff. lra.
Qed.

(** X15. A call of the [detect_anomaly] endpoint that succeeds returns
    at most a hundred records, ordered by non-increasing anomaly score
    and all of them flagged; it changes no frame that existed before,
    and the frame it loaded stays unscored, since the scorer worked on a
    copy. *)
Theorem detect_anomaly_endpoint_result (w w' : World) (c : Q)
        (recs : list (gmap string cell)) :
  App.detect_anomaly c w = (Ok recs, w') ->
  (length recs <= 100)%nat
  /\ StronglySorted (fun a b => App.record_score b <= App.record_score a) recs
  /\ (forall r, In r recs -> r !! "is_anomaly" = Some (CBool true))
  /\ (forall l d, frames w !! l = Some d -> frames w' !! l = Some d)
  /\ frames w' !! fresh (dom (frames w))
     = Some (Anomaly.tx_frame (fact_transactions (db w))).
Proof.
  rewrite detect_anomaly_run. cbv zeta.
  set (txs := fact_transactions (db w)).
  set (l0 := fresh (dom (frames w))).
  set (fr1 := <[l0 := Anomaly.tx_frame txs]> (frames w)).
  set (l1 := fresh (dom fr1)).
  destruct (Anomaly.scored_frame (Anomaly.tx_frame txs) c) as [d1|e] eqn:Es;
    [|discriminate].
  intros [= <- <-].
  assert (l1 <> l0) as Hl.
  { intros E. apply (is_fresh (dom fr1)). fold l1. rewrite E.
    apply elem_of_dom. unfold fr1. rewrite lookup_insert_eq. eauto. }
  split; [apply firstn_le_length|].
  split; [apply firstn_sorted, by_score_desc_sorted|].
  split; [|split].
  - intros r Hr. apply firstn_In, sort_by_In in Hr.
    destruct (scored_tx_frame txs c d1 Es) as (scores & thr & _ & ->).
    eapply masked_records_flagged; [|exact Hr].
    cbn [columns]. apply lookup_insert_eq.
  - intros l d Hd. cbn [frames set_frames].
    assert (l <> l0) as H0.
    { intros ->. apply (is_fresh (dom (frames w))). fold l0.
      apply elem_of_dom. rewrite Hd. eauto. }
    assert (l <> l1) as H1.
    { intros ->. apply (is_fresh (dom fr1)). fold l1.
      apply elem_of_dom. unfold fr1. rewrite lookup_insert_ne by congruence.
      rewrite Hd. eauto. }
    rewrite !lookup_insert_ne by congruence. unfold fr1.
    rewrite lookup_insert_ne by congruence. exact Hd.
  - cbn [frames set_frames]. rewrite !lookup_insert_ne by congruence.
    unfold fr1. apply lookup_insert_eq.
Qed.


(** On a non-empty table and a valid contamination the endpoint
    completes. *)
Lemma detect_anomaly_completes (w : World) (c : Q) :
  fact_transactions (db w) <> [] ->
  0 < c -> c <= 1 # 2 ->
  exists recs w', App.detect_anomaly c w = (Ok recs, w').
Proof.
  intros Hne Hc0 Hc1. rewrite detect_anomaly_run. cbv zeta.
  set (txs := fact_transactions (db w)) in *.
  assert (map (fun t => (Tx.amount t, inject_Z (Anomaly.tx_per_account txs t))) txs
          <> []) as HX by (destruct txs; [congruence|discriminate]).
  destruct (scored_frame_valid (Anomaly.tx_frame txs) _ c
              (design_matrix_tx_frame txs) HX
              (proj2 (valid_contamination_iff c) (conj Hc0 Hc1)))
    as (d' & -> & _).
  eexists _, _. reflexivity.
Qed.

End EndpointRun.

Section PipelineOutcome.
Context `{TreeEnsemble} `{Classifiers} `{Platform}.
Local Open Scope Q_scope.

Lemma iter_tick_metrics n (w : World) :
  mlflow_metrics (Nat.iter n tick w) = mlflow_metrics w.
Proof. induction n as [|n IH]; simpl; [reflexivity|exact IH]. Qed.

(** Whatever its outcome, stage 3 only advances the clock. *)
Lemma churn_prediction_state (w w' : World) r :
  Pipeline.churn_prediction w = (r, w') -> exists n, w' = Nat.iter n tick w.
Proof.
  unfold Pipeline.churn_prediction, ChurnFeatures.features_churn.
  unfold mbind at 1 2, M_bind at 1 2, bind at 1 2, gets.
  destruct (churn_aggregate_run
              (ChurnFeatures.merge (fact_transactions (db w)) (dim_accounts (db w))) w)
    as (fs & n & Hrun & _).
  unfold mbind at 1, M_bind at 1, bind at 1. rewrite Hrun.
  unfold mbind, M_bind, bind, lift.
  destruct (xgb_predict _) as [p|e]; [|intros [= <- <-]; eauto].
  intros [= <- <-]. eauto.
Qed.

(** Whatever its outcome, stage 4 only touches the frames. *)
Lemma anomaly_detection_state (w w' : World) r :
  Pipeline.anomaly_detection w = (r, w') -> exists fr, w' = set_frames fr w.
Proof.
  unfold Pipeline.anomaly_detection, Anomaly.load_data, Anomaly.alloc.
  unfold mbind at 1 2, M_bind at 1 2, bind at 1 2, gets. cbv zeta.
  unfold mbind at 1, M_bind at 1, bind at 1.
  erewrite (detect_anomalies_run _ _ (Anomaly.tx_frame (fact_transactions (db w))))
    by (cbn [frames set_frames]; apply lookup_insert_eq).
  destruct (Anomaly.scored_frame _ _) as [d1|e]; [|intros [= <- <-]; eauto].
  unfold mbind at 1, M_bind at 1, bind at 1.
  unfold Anomaly.deref at 1. cbn [frames set_frames]. rewrite lookup_insert_eq.
  destruct (columns d1 !! "transaction_date") as [col|].
  - unfold Anomaly.setitem, Anomaly.deref, modify, ret.
    unfold mbind, M_bind, bind. cbn [frames set_frames]. rewrite lookup_insert_eq.
    intros [= <- <-]. eauto.
  - unfold mbind, M_bind, bind, ret. intros [= <- <-]. eauto.
Qed.

(** X17. A run of the pipeline that fails in any stage writes no report:
    the report files are those that existed before the run. *)
Theorem failed_run_writes_no_report (w w' : World) (e : error) :
  Pipeline.main w = (Raise e, w') ->
  report_files w' = report_files w.
Proof.
  unfold Pipeline.main.
  unfold mbind at 1, M_bind at 1, bind at 1, lift.
  destruct etl_main as [mart|e0]; [|now intros [= <- <-]].
  unfold mbind at 1, M_bind at 1, bind at 1, modify.
  set (w1 := set_db mart w).
  unfold mbind at 1, M_bind at 1, bind at 1.
  destruct (default_scoring_run w1) as [Hst _].
  destruct (Pipeline.default_scoring w1) as [[fd|e1] w1'] eqn:Eds;
    simpl in Hst; subst w1'; [|now intros [= <- <-]].
  unfold mbind at 1, M_bind at 1, bind at 1.
  destruct (Pipeline.churn_prediction w1) as [r2 w2] eqn:Ecp.
  destruct (churn_prediction_state w1 w2 r2 Ecp) as (n & ->).
  destruct r2 as [fc|e2]; [|intros [= <- <-]; now rewrite iter_tick_reports].
  unfold mbind at 1, M_bind at 1, bind at 1.
  destruct (Pipeline.anomaly_detection _) as [r3 w3] eqn:Ead.
  destruct (anomaly_detection_state _ w3 r3 Ead) as (fr & ->).
  destruct r3 as [df_anom|e3];
    [|intros [= <- <-]; cbn [report_files set_frames]; now rewrite iter_tick_reports].
  unfold mbind at 1, M_bind at 1, bind at 1.
  unfold Anomaly.deref at 1.
  destruct (frames _ !! df_anom) as [d|];
    [|intros [= <- <-]; cbn [report_files set_frames]; now rewrite iter_tick_reports].
  unfold Pipeline.mlflow_tracking, today, modify, ret.
  unfold mbind, M_bind, bind. discriminate.
Qed.

(** X18. A run that completes sends exactly three metrics to the
    tracking server, and they agree with the report it writes:
    [n_anomalies] is the number of records in the report's anomalies
    list, and the two average risks are the means of the risks listed in
    the two summaries. *)
Theorem metrics_agree_with_report (w w' : World) (path : string) :
  Pipeline.main w = (Ok path, w') ->
  exists rep fd fc recs,
    report_files w' = (report_files w ++ [(path, rep)])%list
    /\ rep !! "default_risk_summary" = Some (JRecords (map Pipeline.default_record fd))
    /\ rep !! "churn_risk_summary" = Some (JRecords (map Pipeline.churn_record fc))
    /\ rep !! "anomalies" = Some (JRecords recs)
    /\ mlflow_metrics w'
       = (mlflow_metrics w
          ++ [("avg_default_risk", Pd.mean (map snd fd));
              ("avg_churn_risk", Pd.mean (map snd fc));
              ("n_anomalies", Fin (inject_Z (Z.of_nat (length recs))))])%list.
Proof.
  unfold Pipeline.main.
  unfold mbind at 1, M_bind at 1, bind at 1, lift.
  destruct etl_main as [mart|e0]; [|discriminate].
  unfold mbind at 1, M_bind at 1, bind at 1, modify.
  set (w1 := set_db mart w).
  unfold mbind at 1, M_bind at 1, bind at 1.
  destruct (default_scoring_run w1) as [Hst _].
  destruct (Pipeline.default_scoring w1) as [[fd|e1] w1'] eqn:Eds;
    simpl in Hst; subst w1'; [|discriminate].
  unfold mbind at 1, M_bind at 1, bind at 1.
  destruct (Pipeline.churn_prediction w1) as [r2 w2] eqn:Ecp.
  destruct (churn_prediction_state w1 w2 r2 Ecp) as (n & ->).
  destruct r2 as [fc|e2]; [|discriminate].
  unfold mbind at 1, M_bind at 1, bind at 1.
  destruct (Pipeline.anomaly_detection _) as [r3 w3] eqn:Ead.
  destruct (anomaly_detection_state _ w3 r3 Ead) as (fr & ->).
  destruct r3 as [df_anom|e3]; [|discriminate].
  unfold mbind at 1, M_bind at 1, bind at 1.
  unfold Anomaly.deref at 1.
  destruct (frames _ !! df_anom) as [d|]; [|discriminate].
  unfold Pipeline.mlflow_tracking, today, modify, ret.
  unfold mbind, M_bind, bind. intros [= <- <-].
  eexists _, fd, fc, _.
  cbn [report_files mlflow_metrics set_frames add_report add_metric tick].
  rewrite iter_tick_reports, iter_tick_metrics. cbn [report_files mlflow_metrics set_db].
  split; [reflexivity|].
  unfold Pipeline.report.
  split; [rewrite lookup_insert_ne by discriminate; apply lookup_insert_eq|].
  split; [rewrite !lookup_insert_ne by discriminate; apply lookup_insert_eq|].
  split; [rewrite !lookup_insert_ne by discriminate; apply lookup_insert_eq|].
  rewrite records_length. unfold Anomaly.n_anomalies.
  rewrite <- !app_assoc. reflexivity.
Qed.

End PipelineOutcome.

(** ** The churn endpoint *)

Section ChurnEndpointFacts.
Context `{TreeEnsemble} `{Classifiers}.

(** The columns of the merged frame: both tables have a [client_id], so
    the merge renames the two. *)
Lemma merged_header (txs : list Tx.t) (accts : list Acct.t) :
  exists rows,
    Table.merge (Table.of_transactions txs) (Table.of_accounts accts) "account_id"
    = Ok {| Table.header :=
              ["transaction_id"; "account_id"; "amount"; "transaction_date";
               "transaction_type"; "time_id"; "client_id_x"; "client_id_y";
               "account_type"; "opened_date"];
            Table.rows := rows |}.
Proof. eexists. reflexivity. Qed.

(** X19. [predict_churn] never returns a score: whatever the request and
    whatever the datamart holds, the merged frame has the columns
    [client_id_x] and [client_id_y] and no [client_id], so the query
    raises [UndefinedVariableError] before any row is looked at; the
    404 answer is never given and the model is never consulted. *)
Theorem predict_churn_cannot_resolve_client_id (client_id : Z) (w : World) :
  ChurnEndpoint.predict_churn client_id w
  = (ChurnEndpoint.Fails (ChurnEndpoint.UndefinedVariableError "client_id"), w).
Proof.
  unfold ChurnEndpoint.predict_churn.
  destruct (merged_header (fact_transactions (db w)) (dim_accounts (db w)))
    as [rows ->].
  reflexivity.
Qed.

End ChurnEndpointFacts.

(** ** The churn aggregation *)

Section ChurnStage.
Context `{TreeEnsemble}.

Lemma merge_In (df_tx : list Tx.t) (df_acct : list Acct.t) t a :
  In (t, a) (ChurnFeatures.merge df_tx df_acct)
  <-> In t df_tx /\ In a df_acct /\ Acct.account_id a = Tx.account_id t.
Proof.
  unfold ChurnFeatures.merge. rewrite in_flat_map. split.
  - intros (t' & Ht' & Hin). apply in_map_iff in Hin.
    destruct Hin as (a' & [= <- <-] & Ha). apply filter_In in Ha.
    destruct Ha as [Ha Hk]. apply Z.eqb_eq in Hk. auto.
  - intros (Ht & Ha & Hk). exists t. split; [exact Ht|].
    apply in_map_iff. exists a. split; [reflexivity|].
    apply filter_In. split; [exact Ha|]. now apply Z.eqb_eq.
Qed.

Lemma assemble_counts (groups : list (Z * list (Tx.t * Acct.t))) (ts ls : list Z) :
  length ts = length groups -> length ls = length groups ->
  map ChurnFeatures.total_tx_count (ChurnFeatures.assemble groups ts ls)
  = map (fun kg => Pd.count (snd kg)) groups.
Proof.
  revert ts ls. induction groups as [|[k g] groups IH];
    intros [|t ts] [|l ls] Ht Hl; simpl in *; try reflexivity; try discriminate.
  f_equal. apply IH; congruence.
Qed.

(** The aggregation reads the clock twice for each group. *)
Lemma churn_aggregate_rows (df : list (Tx.t * Acct.t)) (w : World) :
  exists ts ls,
    ChurnFeatures.aggregate df w
    = (Ok (ChurnFeatures.assemble
             (Pd.groupby (fun r => Tx.client_id (fst r)) df) ts ls),
       Nat.iter (2 * length (Pd.groupby (fun r => Tx.client_id (fst r)) df)) tick w)
    /\ length ts = length (Pd.groupby (fun r => Tx.client_id (fst r)) df)
    /\ length ls = length (Pd.groupby (fun r => Tx.client_id (fst r)) df).
Proof.
  unfold ChurnFeatures.aggregate, ChurnFeatures.tenure, ChurnFeatures.recency.
  set (groups := Pd.groupby (fun r => Tx.client_id (fst r)) df).
  destruct (mapM_today_run
              (fun kg t => Pd.days (t - ChurnFeatures.series_min
                   (map (fun r => Acct.opened_date (snd r)) (snd kg)))) groups w)
    as (ts & Hts & Lts).
  destruct (mapM_today_run
              (fun kg t => Pd.days (t - ChurnFeatures.series_max
                   (map (fun r => Tx.transaction_date (fst r)) (snd kg)))) groups
              (Nat.iter (length groups) tick w))
    as (ls & Hls & Lls).
  exists ts, ls. split; [|split; assumption].
  unfold mbind at 1, M_bind at 1, bind at 1. rewrite Hts.
  unfold mbind at 1, M_bind at 1, bind at 1. rewrite Hls.
  unfold ret. f_equal.
  replace (2 * length groups)%nat with (length groups + length groups)%nat by lia.
  now rewrite Nat.iter_add.
Qed.

(** X20. The churn aggregation of the pipeline always completes.  It
    returns one row for each client that has a transaction on an account
    of the accounts table, in increasing order of client id; the
    transaction counts of the rows add up to the number of rows of the
    merged frame; and the clock has been read twice for each client. *)
Theorem churn_features_partition (df_tx : list Tx.t) (df_acct : list Acct.t)
        (w : World) :
  exists fs,
    ChurnFeatures.features_churn df_tx df_acct w
    = (Ok fs, Nat.iter (2 * length fs) tick w)
    /\ StronglySorted Z.lt (map ChurnFeatures.client_id fs)
    /\ (forall k, In k (map ChurnFeatures.client_id fs)
                  <-> exists t a, In t df_tx /\ In a df_acct
                                  /\ Acct.account_id a = Tx.account_id t
                                  /\ Tx.client_id t = k)
    /\ fold_right Z.add 0%Z (map ChurnFeatures.total_tx_count fs)
       = Z.of_nat (length (ChurnFeatures.merge df_tx df_acct)).
Proof.
  unfold ChurnFeatures.features_churn.
  set (df := ChurnFeatures.merge df_tx df_acct).
  destruct (churn_aggregate_rows df w) as (ts & ls & Hrun & Lts & Lls).
  set (groups := Pd.groupby (fun r => Tx.client_id (fst r)) df) in *.
  pose proof (assemble_keys groups ts ls Lts Lls) as Hkeys.
  assert (length (ChurnFeatures.assemble groups ts ls) = length groups) as Hlen.
  { rewrite <- (length_map ChurnFeatures.client_id), Hkeys. apply length_map. }
  exists (ChurnFeatures.assemble groups ts ls). rewrite Hlen.
  split; [exact Hrun|]. rewrite Hkeys. unfold groups. rewrite groupby_keys.
  split; [apply unique_sorted_increasing|]. split.
  - intros k. rewrite unique_sorted_In, in_map_iff. split.
    + intros ([t a] & Hk & Hin). apply merge_In in Hin.
      destruct Hin as (Ht & Ha & Hacc). exists t, a. simpl in Hk. auto.
    + intros (t & a & Ht & Ha & Hacc & Hk). exists (t, a).
      split; [exact Hk|]. apply merge_In. auto.
  - rewrite assemble_counts by assumption. unfold Pd.groupby.
    rewrite map_map. simpl. unfold Pd.count.
    rewrite (Z_sum_of_nat
               (fun k => length (List.filter
                                   (fun r : Tx.t * Acct.t =>
                                      (Tx.client_id (fst r) =? k)%Z) df))).
    f_equal.
    apply (groups_count Z.eqb (fun r : Tx.t * Acct.t => Tx.client_id (fst r))
                        Z.eqb_eq).
    + apply increasing_NoDup, unique_sorted_increasing.
    + intros x Hx. apply unique_sorted_In.
      apply in_map_iff. exists x. split; [reflexivity|exact Hx].
Qed.

Lemma filter_key_unique {A} (key : A -> Z) (k : Z) (l : list A) :
  List.NoDup (map key l) ->
  (length (List.filter (fun x => (key x =? k)%Z) l) <= 1)%nat.
Proof.
  induction l as [|x l IH]; intros Hnd; [simpl; lia|].
  simpl in Hnd. inversion Hnd as [|? ? Hx Hnd']; subst.
  cbn [List.filter]. destruct (Z.eqb_spec (key x) k) as [E|E].
  - assert (List.filter (fun y => (key y =? k)%Z) l = []) as ->; [|simpl; lia].
    destruct (List.filter _ l) as [|y g] eqn:Ef; [reflexivity|].
    assert (In y (List.filter (fun y => (key y =? k)%Z) l)) as Hy
        by (rewrite Ef; now left).
    apply filter_In in Hy. destruct Hy as [Hy Hk]. apply Z.eqb_eq in Hk.
    exfalso. apply Hx. rewrite E, <- Hk.
    apply in_map_iff. exists y. split; [reflexivity|exact Hy].
  - now apply IH.
Qed.

(** X21. After the ETL has cleaned the accounts, the merge of the churn
    scripts pairs every transaction with at most one account: the
    transactions of the merged frame are the transactions whose account
    is in the accounts file, each once and in their order; a transaction
    on an unknown account is dropped. *)
Theorem merge_after_cleaning (df_tx : list Tx.t) (accts : list Acct.t) :
  map fst (ChurnFeatures.merge df_tx (Etl.clean_accounts accts))
  = List.filter
      (fun t => existsb (fun a => (Acct.account_id a =? Tx.account_id t)%Z) accts)
      df_tx.
Proof.
  unfold ChurnFeatures.merge.
  induction df_tx as [|t df_tx IH]; [reflexivity|].
  cbn [flat_map List.filter]. rewrite map_app, IH, map_map. simpl fst.
  set (cleaned := Etl.clean_accounts accts).
  pose proof (filter_key_unique Acct.account_id (Tx.account_id t) cleaned
                (drop_duplicates_from_NoDup Acct.account_id [] accts)) as Hle.
  destruct (existsb _ accts) eqn:Ex.
  - apply existsb_exists in Ex. destruct Ex as (a & Ha & Hk).
    apply Z.eqb_eq in Hk.
    destruct (drop_duplicates_from_keys Acct.account_id [] accts a Ha
                ltac:(intros []))
      as (y & Hy & Hky).
    assert (In y (List.filter
                    (fun a => (Acct.account_id a =? Tx.account_id t)%Z) cleaned))
      as Hin.
    { apply filter_In. split; [exact Hy|]. apply Z.eqb_eq. congruence. }
    destruct (List.filter _ cleaned) as [|y0 [|y1 g]]; simpl in *;
      [destruct Hin|reflexivity|lia].
  - assert (List.filter
              (fun a => (Acct.account_id a =? Tx.account_id t)%Z) cleaned = [])
      as ->; [|reflexivity].
    destruct (List.filter _ cleaned) as [|y g] eqn:Ef; [reflexivity|].
    assert (In y (List.filter
                    (fun a => (Acct.account_id a =? Tx.account_id t)%Z) cleaned))
      as Hin by (rewrite Ef; now left).
    apply filter_In in Hin. destruct Hin as [Hy Hk].
    apply drop_duplicates_from_In in Hy. destruct Hy as [Hy _].
    assert (existsb (fun a => (Acct.account_id a =? Tx.account_id t)%Z) accts
            = true) as Ht
        by (apply existsb_exists; exists y; split; assumption).
    congruence.
Qed.

End ChurnStage.

(** ** The further properties on concrete inputs *)

Section FurtherInstances.
Import Toy ToyEtl.
Local Open Scope Q_scope.

Lemma first_fact_loaded :
  In first_fact
     (Etl.fact_transactions (Etl.main ToyEtl.accounts ToyEtl.transactions kyc)).
Proof. left. vm_compute. reflexivity. Defined.

Lemma time_id_resolves_witness :
  exists i row,
    Etl.time_id first_fact = Some (Z.of_nat i + 1)%Z
    /\ nth_error (Etl.dim_time (Etl.main ToyEtl.accounts ToyEtl.transactions kyc)) i
       = Some row
    /\ Etl.date row = Etl.date_of (Etl.transaction_date (Etl.tx first_fact)).
Proof.
  exact (time_id_resolves ToyEtl.accounts ToyEtl.transactions kyc first_fact
           first_fact_loaded).
Defined.

Lemma client_id_resolves_witness :
  exists a, In a (Etl.clean_accounts ToyEtl.accounts)
            /\ Acct.account_id a = 1%Z /\ Acct.client_id a = 10%Z.
Proof.
  exact (proj1 (proj1 (client_id_resolves ToyEtl.accounts ToyEtl.transactions kyc
                         first_fact first_fact_loaded) 10%Z) eq_refl).
Defined.

Lemma etl_time_dimension_makes_rates_finite_witness :
  (0 < Pd.nunique
         (map Etl.date
              (Etl.dim_time (Etl.main ToyEtl.accounts ToyEtl.transactions kyc))))%Z
  /\ List.Forall
       (fun f => exists q, DefaultFeatures.tx_count_per_day f = Fin q /\ 0 < q)
       (DefaultFeatures.features
          Toy.transactions
          (map Etl.date
               (Etl.dim_time (Etl.main ToyEtl.accounts ToyEtl.transactions kyc)))).
Proof.
  exact (etl_time_dimension_makes_rates_finite
           ToyEtl.accounts ToyEtl.transactions kyc Toy.transactions
           ltac:(discriminate)).
Defined.

Lemma flagged_at_least_contamination_share_witness :
  exists d',
    Anomaly.detect_anomalies 0%nat (34 # 100) world
    = (Ok 0%nat, set_frames (<[0%nat := d']> (frames world)) world)
    /\ (34 # 100) * (inject_Z (Z.of_nat 3) - 1)
       <= inject_Z (Z.of_nat (Anomaly.n_anomalies d')).
Proof.
  exact (flagged_at_least_contamination_share
           world 0%nat (Anomaly.tx_frame Toy.transactions)
           [(50, 2); (55, 2); (5000, 1)] (34 # 100)
           eq_refl eq_refl toy_matrix_nonempty eq_refl ltac:(discriminate)).
Defined.

Lemma simulated_defaults_below_a_fifth_witness :
  inject_Z
    (fold_right Z.add 0%Z
       (Targets.simulate_is_default
          (DefaultFeatures.features Toy.transactions [1; 2; 3]%Z)))
  < (2 # 10)
    * (inject_Z (Z.of_nat (length (DefaultFeatures.features
                                     Toy.transactions [1; 2; 3]%Z))) - 1)
    + 1.
Proof.
  exact (simulated_defaults_below_a_fifth Toy.transactions [1; 2; 3]%Z
           ltac:(discriminate)).
Defined.

Lemma simulated_churn_below_a_fifth_witness :
  inject_Z (fold_right Z.add 0%Z (Targets.simulate_is_churn ToyRows.two_clients))
  < (2 # 10) * (inject_Z (Z.of_nat (length ToyRows.two_clients)) - 1) + 1.
Proof.
  exact (simulated_churn_below_a_fifth ToyRows.two_clients ltac:(discriminate)).
Defined.

Lemma no_account_99 :
  forall t, In t (fact_transactions (db world)) -> Tx.account_id t <> 99%Z.
Proof.
  intros t [<-|[<-|[<-|[]]]]; discriminate.
Defined.

Lemma score_default_unknown_account_witness :
  App.score_default 99 world = (Raise (HTTPException 404), world).
Proof.
  exact (score_default_unknown_account world 99%Z no_account_99).
Defined.

Lemma score_default_uses_batch_row_witness :
  exists f,
    In f (DefaultFeatures.features (fact_transactions (db world)) (dim_time (db world)))
    /\ DefaultFeatures.account_id f = 1%Z
    /\ App.score_default 1 world
       = (match logreg_predict_proba [DefaultFeatures.X_row f] with
          | Ok (score :: _) => Ok (1%Z, score)
          | Ok [] => Raise IndexError
          | Raise e => Raise e
          end, world).
Proof.
  exact (score_default_uses_batch_row world 1%Z
           (ex_intro _ (tx 1 1 10 50 86400) (conj (or_introl eq_refl) eq_refl))).
Defined.

Lemma first_account_aggregated :
  In ToyRows.first_account (DefaultFeatures.features Toy.transactions [1; 2; 3]%Z).
Proof. left. vm_compute. reflexivity. Defined.

Lemma avg_delay_days_nonnegative_witness :
  (DefaultFeatures.tx_count ToyRows.first_account = 1%Z
   /\ DefaultFeatures.avg_delay_days ToyRows.first_account = NaN)
  \/ ((1 < DefaultFeatures.tx_count ToyRows.first_account)%Z
      /\ exists q,
           DefaultFeatures.avg_delay_days ToyRows.first_account = Fin q /\ 0 <= q).
Proof.
  exact (avg_delay_days_nonnegative Toy.transactions [1; 2; 3]%Z
           ToyRows.first_account first_account_aggregated).
Defined.

Lemma detect_anomaly_endpoint_result_witness :
  exists recs w',
    App.detect_anomaly (34 # 100) (world_at 500000) = (Ok recs, w')
    /\ (length recs <= 100)%nat
    /\ (forall r, In r recs -> r !! "is_anomaly" = Some (CBool true))
    /\ frames w' !! fresh (dom (frames (world_at 500000)))
       = Some (Anomaly.tx_frame (fact_transactions (db (world_at 500000)))).
Proof.
  destruct (detect_anomaly_completes (world_at 500000) (34 # 100)
              ltac:(discriminate) eq_refl ltac:(discriminate))
    as (recs & w' & Hrun).
  destruct (detect_anomaly_endpoint_result (world_at 500000) w' (34 # 100) recs Hrun)
    as (Hlen & _ & Hflag & _ & Hframe).
  exists recs, w'. repeat split; assumption.
Defined.


Lemma pipeline_fails :
  @Pipeline.main ensemble classifiers ToyFailure.platform (world_at 500000)
  = (Raise ValueError, set_db ToyFailure.mart (world_at 500000)).
Proof. vm_compute. reflexivity. Defined.

Lemma failed_run_writes_no_report_witness :
  report_files (set_db ToyFailure.mart (world_at 500000))
  = report_files (world_at 500000).
Proof.
  exact (@failed_run_writes_no_report ensemble classifiers ToyFailure.platform
           (world_at 500000) _ ValueError pipeline_fails).
Defined.

Lemma metrics_agree_with_report_witness :
  exists rep (fd : list (DefaultFeatures.t * Q))
         (fc : list (ChurnFeatures.t * Q)) recs,
    report_files (snd (Pipeline.main (world_at 500000)))
    = [("report_20240105_000000.json", rep)]
    /\ rep !! "anomalies" = Some (JRecords recs)
    /\ mlflow_metrics (snd (Pipeline.main (world_at 500000)))
       = [("avg_default_risk", Pd.mean (map snd fd));
          ("avg_churn_risk", Pd.mean (map snd fc));
          ("n_anomalies", Fin (inject_Z (Z.of_nat (length recs))))].
Proof.
  destruct (metrics_agree_with_report (world_at 500000) _ _ pipeline_completes)
    as (rep & fd & fc & recs & Hfiles & _ & _ & Hanom & Hmetrics).
  exists rep, fd, fc, recs. repeat split; assumption.
Defined.

End FurtherInstances.
